(** * rltf: the DQN agent (rltf/agents/dqn_agent.py)

    A shallow embedding of [AgentDQN]: its constructor, the acting loop
    [_run_env], the learning loop [_train_model] and [reset].

    The two loops run in two threads and talk to collaborators that are not
    part of the file (the environment, the replay buffer, the model and its
    TensorFlow session, the schedules, the signalling helpers of the base
    class).  Every such call is an event of a small free monad, so the loops
    are written as in the source and can be given two semantics:
    - a sequential one ([exec]), where a handler answers every call and the
      calls are recorded in order;
    - an interleaving one ([gstep]), where the two threads take turns, a call
      has a beginning and an end, and the two signals block and release. *)

From Stdlib Require Import ZArith List Bool Lia Relations Wellfounded.
Import ListNotations.
Local Open Scope Z_scope.

Set Implicit Arguments.

(** ** The collaborators' data

    Observations, actions, rewards, network states, sampled tensors, TF
    summaries and floating-point numbers are opaque to the agent: it only
    passes them around, and compares two floats once ([<] at line 113).

    A placeholder is a TensorFlow tensor used as a key of the feed of lines
    157-167; as keys of a Python dict two placeholders are the same when
    they are the same object ([ph_eqb]).  The model owns five of the keys
    ([self.model.obs_t_ph] to [self.model.done_ph]) and the base class two
    ([self.mean_ep_rew_ph], [self.best_mean_ep_rew_ph]); an attribute that
    holds [None] gives the key [None]. *)
Class Collaborators : Type := {
  Obs : Type;
  Action : Type;
  Reward : Type;
  Info : Type;
  NetState : Type;
  Tensor : Type;
  Summary : Type;
  Float : Type;
  float_lt : Float -> Float -> bool;
  Placeholder : Type;
  ph_eqb : Placeholder -> Placeholder -> bool;
  ph_eqb_eq : forall p q : Placeholder, ph_eqb p q = true <-> p = q;
  obs_t_ph : option Placeholder;
  act_t_ph : option Placeholder;
  rew_t_ph : option Placeholder;
  obs_tp1_ph : option Placeholder;
  done_ph : option Placeholder;
  mean_ep_rew_ph : option Placeholder;
  best_mean_ep_rew_ph : option Placeholder
}.

(** Exceptions the code of the file can raise by itself. *)
Inductive exn : Type :=
| AssertionError
| ZeroDivisionError
| InvalidConfiguration.

Section Model.
Context {C : Collaborators}.

(** The dictionary returned by [replay_buf.sample]: the five keys that
    lines 158-162 read. *)
Record batch : Type := {
  batch_obs : Tensor;
  batch_act : Tensor;
  batch_rew : Tensor;
  batch_obs_tp1 : Tensor;
  batch_done : Tensor
}.

(** A value of the feed: an array of the batch or a number. *)
Inductive feed_value : Type :=
| Array (x : Tensor)
| Scalar (x : Float).

(** A key of the feed: the value of a placeholder attribute. *)
Definition feed_key : Type := option Placeholder.

Definition key_eqb (k1 k2 : feed_key) : bool :=
  match k1, k2 with
  | None, None => true
  | Some p, Some q => ph_eqb p q
  | _, _ => false
  end.

(** The [feed_dict] of lines 157-167, a Python dict: its items in the order
    of insertion, no key twice. *)
Definition feed_dict : Type := list (feed_key * feed_value).

(** [d[k] = v]: the value of a key that is present is replaced where the
    key stands, a new key goes to the end. *)
Fixpoint dict_set (k : feed_key) (v : feed_value) (d : feed_dict) : feed_dict :=
  match d with
  | [] => [(k, v)]
  | (k', v') :: d' =>
      if key_eqb k' k then (k', v) :: d' else (k', v') :: dict_set k v d'
  end.


(** A dict display [{k1: v1, ..., kn: vn}]: the items are inserted from left
    to right, so a later item replaces the value of an earlier one with the
    same key. *)
Definition dict_display (items : list (feed_key * feed_value)) : feed_dict :=
  fold_left (fun d kv => dict_set (fst kv) (snd kv) d) items [].

(** ** Events: every call that leaves the two loops, with its result type. *)
Inductive agentE : Type -> Type :=
(* the handshake helpers of the base class *)
| wait_train_done : agentE unit
| signal_act_chosen : agentE unit
| wait_act_chosen : agentE unit
| signal_train_done : agentE unit
(* the attribute shared by the two threads *)
| get_learn_started : agentE bool
| set_learn_started (b : bool) : agentE unit
(* the environment *)
| env_reset : agentE Obs
| env_step (a : Action) : agentE (Obs * Reward * bool * Info)
| action_space_sample : agentE Action
(* the replay buffer *)
| store_frame (o : Obs) : agentE Z
| store_effect (idx : Z) (a : Action) (r : Reward) (d : bool) : agentE unit
| encode_recent_obs : agentE NetState
| replay_buf_sample (batch_size : Z) : agentE batch
(* the model and the session *)
| control_action (s : NetState) : agentE Action
| sess_run_train (fd : feed_dict) : agentE Summary
| sess_run_update_target : agentE unit
(* schedules and randomness *)
| exploration_value (t : Z) : agentE Float
| lr_value (t : Z) : agentE Float
| random_uniform : agentE Float
(* statistics, summary, checkpoint and log of the base class *)
| get_mean_ep_rew : agentE Float
| get_best_mean_ep_rew : agentE Float
| set_summary (s : Summary) : agentE unit
| save : agentE unit
| log_progress (t : Z) : agentE unit.

(** ** Programs: a free monad over the events, with exceptions. *)
Inductive prog (R : Type) : Type :=
| Ret (r : R)
| Raise (e : exn)
| Vis (X : Type) (ev : agentE X) (k : X -> prog R).

Arguments Ret {R} r.
Arguments Raise {R} e.
Arguments Vis {R X} ev k.

Fixpoint bind {A B : Type} (p : prog A) (f : A -> prog B) : prog B :=
  match p with
  | Ret a => f a
  | Raise e => Raise e
  | Vis ev k => Vis ev (fun x => bind (k x) f)
  end.

Definition call {X : Type} (ev : agentE X) : prog X := Vis ev (fun x => Ret x).

End Model.

Arguments Ret {C R} r.
Arguments Raise {C R} e.
Arguments Vis {C R X} ev k.

Declare Scope prog_scope.
Delimit Scope prog_scope with prog.
Notation "x <- p ;; q" := (bind p (fun x => q))
  (at level 61, p at next level, right associativity) : prog_scope.
Notation "' pat <- p ;; q" := (bind p (fun x => match x with pat => q end))
  (at level 61, pat pattern, p at next level, right associativity) : prog_scope.
Notation "p ;; q" := (bind p (fun _ => q))
  (at level 61, right associativity) : prog_scope.
Local Open Scope prog_scope.

Section Agent.
Context {C : Collaborators}.

(** ** Python arithmetic and iteration *)

(** [a % b] on integers: the remainder has the sign of [b] (as [Z.modulo]),
    and a zero divisor raises. *)
Definition py_mod (a b : Z) : exn + Z :=
  if b =? 0 then inl ZeroDivisionError else inr (a mod b).

(** A Python expression that may raise, used inside a loop. *)
Definition lift {R : Type} (r : exn + R) : prog R :=
  match r with
  | inl e => Raise e
  | inr x => Ret x
  end.

(** [range(start, stop)]. *)
Definition py_range (start stop : Z) : list Z :=
  map (fun i => start + Z.of_nat i) (seq 0 (Z.to_nat (stop - start))).

(** [for t in ts: s = body(t, s)], the loop-carried variables in [s]. *)
Fixpoint for_each {S : Type} (ts : list Z) (body : Z -> S -> prog S) (s : S)
  : prog S :=
  match ts with
  | [] => Ret s
  | t :: ts' => s' <- body t s ;; for_each ts' body s'
  end.

(** ** The agent's configuration: the attributes the loops only read. *)
Record config : Type := {
  start_step : Z;
  max_steps : Z;
  start_train : Z;
  train_freq : Z;
  batch_size : Z;
  save_freq : Z;
  update_target_freq : Z;
  learn_rate_ph : option Placeholder;
  epsilon_ph : option Placeholder
}.

Variable cfg : config.

(** ** [_run_env] (lines 95-142) *)

(** Lines 109-122: the action to run. *)
Definition get_action (t : Z) : prog Action :=
  learn_started <- call get_learn_started ;;
  if learn_started then
    epsilon <- call (exploration_value t) ;;
    u <- call random_uniform ;;
    if float_lt u epsilon then
      call action_space_sample
    else
      state <- call encode_recent_obs ;;
      call (control_action state)
  else
    call action_space_sample.

(** Lines 103-142: one iteration of the loop; [last_obs] is carried over. *)
Definition run_env_body (t : Z) (last_obs : Obs) : prog Obs :=
  call wait_train_done ;;
  idx <- call (store_frame last_obs) ;;
  action <- get_action t ;;
  call signal_act_chosen ;;
  '(obs, reward, done, _) <- call (env_step action) ;;
  call (store_effect idx action reward done) ;;
  last_obs' <- (if done : bool then call env_reset else Ret obs) ;;
  call (log_progress t) ;;
  Ret last_obs'.

Definition _run_env : prog unit :=
  last_obs <- call env_reset ;;
  for_each (py_range (start_step cfg) (max_steps cfg + 1)) run_env_body last_obs ;;
  Ret tt.

(** ** [_train_model] (lines 145-184) *)

(** Line 149: [t >= self.start_train and t % self.train_freq == 0]; the
    remainder is only computed when the first test holds. *)
Definition train_now (t : Z) : prog bool :=
  if start_train cfg <=? t then
    m <- lift (py_mod t (train_freq cfg)) ;; Ret (m =? 0)
  else Ret false.

(** The items of the dict display of lines 157-167, in the order of the
    source: each key is the value of a placeholder attribute. *)
Definition feed_items (b : batch) (lr eps mean best : Float)
  : list (feed_key * feed_value) :=
  [ (obs_t_ph, Array (batch_obs b));
    (act_t_ph, Array (batch_act b));
    (rew_t_ph, Array (batch_rew b));
    (obs_tp1_ph, Array (batch_obs_tp1 b));
    (done_ph, Array (batch_done b));
    (learn_rate_ph cfg, Scalar lr);
    (epsilon_ph cfg, Scalar eps);
    (mean_ep_rew_ph, Scalar mean);
    (best_mean_ep_rew_ph, Scalar best) ].

(** The [feed_dict] of lines 157-167. *)
Definition feed_of (b : batch) (lr eps mean best : Float) : feed_dict :=
  dict_display (feed_items b lr eps mean best).

(** Lines 151-176: the branch that trains. *)
Definition train_branch (t : Z) : prog unit :=
  call (set_learn_started true) ;;
  batch <- call (replay_buf_sample (batch_size cfg)) ;;
  lr <- call (lr_value t) ;;
  eps <- call (exploration_value t) ;;
  mean <- call get_mean_ep_rew ;;
  best <- call get_best_mean_ep_rew ;;
  let fd := feed_of batch lr eps mean best in
  call wait_act_chosen ;;
  summary <- call (sess_run_train fd) ;;
  call (set_summary summary) ;;
  m <- lift (py_mod t (update_target_freq cfg)) ;;
  if m =? 0 then call sess_run_update_target else Ret tt.

(** Lines 149-184: one iteration of the loop. *)
Definition train_model_body (t : Z) (_ : unit) : prog unit :=
  b <- train_now t ;;
  (if b : bool then train_branch t else call wait_act_chosen) ;;
  m <- lift (py_mod t (save_freq cfg)) ;;
  (if m =? 0 then call save else Ret tt) ;;
  call signal_train_done.

Definition _train_model : prog unit :=
  for_each (py_range (start_step cfg) (max_steps cfg + 1)) train_model_body tt.

(** ** [reset] (lines 186-187): [pass]. *)
Definition reset : prog unit := Ret tt.

End Agent.

(** ** Sequential semantics: a handler answers every call *)

Section Exec.
Context {C : Collaborators}.

(** How a run of a program ends. *)
Inductive outcome (R : Type) : Type :=
| Returned (r : R)
| Raised (e : exn).

(** One call of a trace, with the value it returned. *)
Inductive entry : Type :=
| Call (X : Type) (ev : agentE X) (x : X).

(** The collaborators as a state machine on a world [W]. *)
Definition handler (W : Type) : Type := forall X : Type, agentE X -> W -> X * W.

Fixpoint exec {W R : Type} (h : handler W) (p : prog R) (w : W)
  : outcome R * W * list entry :=
  match p with
  | Ret r => (Returned r, w, [])
  | Raise e => (Raised _ e, w, [])
  | Vis ev k =>
      let '(x, w1) := h _ ev w in
      let '(o, w2, tr) := exec h (k x) w1 in
      (o, w2, Call ev x :: tr)
  end.

Definition result_of {W R : Type} (r : outcome R * W * list entry) : outcome R :=
  fst (fst r).
Definition trace_of {W R : Type} (r : outcome R * W * list entry) : list entry :=
  snd r.

End Exec.

Arguments Returned {R} r.
Arguments Raised {R} e.
Arguments Call {C X} ev x.

(** ** What a trace of one iteration looks like *)

Section Traces.
Context {C : Collaborators}.

(** The calls of lines 109-122 and the action they yield: a random action
    while [learn_started] is false; afterwards a random action when the draw
    is below epsilon, and the network's action on the encoded state
    otherwise. *)
Inductive action_choice (t : Z) : list entry -> Action -> Prop :=
| choice_not_started a :
    action_choice t
      [Call get_learn_started false; Call action_space_sample a] a
| choice_explore eps u a :
    float_lt u eps = true ->
    action_choice t
      [Call get_learn_started true; Call (exploration_value t) eps;
       Call random_uniform u; Call action_space_sample a] a
| choice_greedy eps u s a :
    float_lt u eps = false ->
    action_choice t
      [Call get_learn_started true; Call (exploration_value t) eps;
       Call random_uniform u; Call encode_recent_obs s;
       Call (control_action s) a] a.

(** Lines 139-140: the environment is reset when the episode ended, and the
    observation carried to the next iteration. *)
Definition episode_end (done : bool) (obs : Obs) (tr : list entry) (next : Obs)
  : Prop :=
  if done then tr = [Call env_reset next] else tr = [] /\ next = obs.

(** The names of the events, without their arguments. *)
Inductive evname : Type :=
| N_wait_train_done | N_signal_act_chosen | N_wait_act_chosen
| N_signal_train_done | N_get_learn_started | N_set_learn_started
| N_env_reset | N_env_step | N_action_space_sample | N_store_frame
| N_store_effect | N_encode_recent_obs | N_replay_buf_sample
| N_control_action | N_sess_run_train | N_sess_run_update_target
| N_exploration_value | N_lr_value | N_random_uniform | N_get_mean_ep_rew
| N_get_best_mean_ep_rew | N_set_summary | N_save | N_log_progress.

Definition name_of {X : Type} (ev : agentE X) : evname :=
  match ev with
  | wait_train_done => N_wait_train_done
  | signal_act_chosen => N_signal_act_chosen
  | wait_act_chosen => N_wait_act_chosen
  | signal_train_done => N_signal_train_done
  | get_learn_started => N_get_learn_started
  | set_learn_started _ => N_set_learn_started
  | env_reset => N_env_reset
  | env_step _ => N_env_step
  | action_space_sample => N_action_space_sample
  | store_frame _ => N_store_frame
  | store_effect _ _ _ _ => N_store_effect
  | encode_recent_obs => N_encode_recent_obs
  | replay_buf_sample _ => N_replay_buf_sample
  | control_action _ => N_control_action
  | sess_run_train _ => N_sess_run_train
  | sess_run_update_target => N_sess_run_update_target
  | exploration_value _ => N_exploration_value
  | lr_value _ => N_lr_value
  | random_uniform => N_random_uniform
  | get_mean_ep_rew => N_get_mean_ep_rew
  | get_best_mean_ep_rew => N_get_best_mean_ep_rew
  | set_summary _ => N_set_summary
  | save => N_save
  | log_progress _ => N_log_progress
  end.

Definition evname_eqb (a b : evname) : bool :=
  match a, b with
  | N_wait_train_done, N_wait_train_done
  | N_signal_act_chosen, N_signal_act_chosen
  | N_wait_act_chosen, N_wait_act_chosen
  | N_signal_train_done, N_signal_train_done
  | N_get_learn_started, N_get_learn_started
  | N_set_learn_started, N_set_learn_started
  | N_env_reset, N_env_reset
  | N_env_step, N_env_step
  | N_action_space_sample, N_action_space_sample
  | N_store_frame, N_store_frame
  | N_store_effect, N_store_effect
  | N_encode_recent_obs, N_encode_recent_obs
  | N_replay_buf_sample, N_replay_buf_sample
  | N_control_action, N_control_action
  | N_sess_run_train, N_sess_run_train
  | N_sess_run_update_target, N_sess_run_update_target
  | N_exploration_value, N_exploration_value
  | N_lr_value, N_lr_value
  | N_random_uniform, N_random_uniform
  | N_get_mean_ep_rew, N_get_mean_ep_rew
  | N_get_best_mean_ep_rew, N_get_best_mean_ep_rew
  | N_set_summary, N_set_summary
  | N_save, N_save
  | N_log_progress, N_log_progress => true
  | _, _ => false
  end.

Definition entry_name (en : entry) : evname :=
  match en with
  | Call ev _ => name_of ev
  end.

(** The network is asked for an action (line 118). *)
Definition is_inference (n : evname) : bool := evname_eqb n N_control_action.

(** The network is optimized or its target refreshed (lines 172 and 176). *)
Definition is_optimization (n : evname) : bool :=
  evname_eqb n N_sess_run_train || evname_eqb n N_sess_run_update_target.

(** How often a name occurs in a trace. *)
Definition occurrences (n : evname) (tr : list entry) : nat :=
  length (filter (fun en => evname_eqb (entry_name en) n) tr).

(** Every call named by [later] is preceded in [tr] by a call named by
    [earlier]. *)
Definition preceded_by (earlier later : evname -> bool) (tr : list entry)
  : Prop :=
  forall pre en post,
    tr = pre ++ en :: post ->
    later (entry_name en) = true ->
    exists en', In en' pre /\ earlier (entry_name en') = true.

(** Every call named by [earlier] is followed in [tr] by a call named by
    [later]. *)
Definition followed_by (earlier later : evname -> bool) (tr : list entry)
  : Prop :=
  forall pre en post,
    tr = pre ++ en :: post ->
    earlier (entry_name en) = true ->
    exists en', In en' post /\ later (entry_name en') = true.

(** Decision procedures for the two orders, on the names of a trace. *)
Fixpoint preceded_byb (earlier later : evname -> bool) (seen : bool)
  (l : list evname) : bool :=
  match l with
  | [] => true
  | n :: l' =>
      (negb (later n) || seen) && preceded_byb earlier later (seen || earlier n) l'
  end.

Fixpoint followed_byb (earlier later : evname -> bool) (l : list evname) : bool :=
  match l with
  | [] => true
  | n :: l' =>
      (negb (earlier n) || existsb later l') && followed_byb earlier later l'
  end.

End Traces.

Section LearnerTraces.
Context {C : Collaborators}.
Variable cfg : config.

(** The calls of lines 151-172, in order. *)
Definition training_calls (t : Z) (b : batch) (lr eps mean best : Float)
  (s : Summary) : list entry :=
  [Call (set_learn_started true) tt;
   Call (replay_buf_sample (batch_size cfg)) b;
   Call (lr_value t) lr;
   Call (exploration_value t) eps;
   Call get_mean_ep_rew mean;
   Call get_best_mean_ep_rew best;
   Call wait_act_chosen tt;
   Call (sess_run_train (feed_of cfg b lr eps mean best)) s;
   Call (set_summary s) tt].

(** Lines 149-179 of one iteration: the exception that ends them, if any,
    and their calls. *)
Inductive train_part (t : Z) : option exn -> list entry -> Prop :=
| tp_before_start :
    t < start_train cfg ->
    train_part t None [Call wait_act_chosen tt]
| tp_train_freq_zero :
    start_train cfg <= t -> train_freq cfg = 0 ->
    train_part t (Some ZeroDivisionError) []
| tp_off_beat :
    start_train cfg <= t -> train_freq cfg <> 0 -> t mod train_freq cfg <> 0 ->
    train_part t None [Call wait_act_chosen tt]
| tp_target_freq_zero b lr eps mean best s :
    start_train cfg <= t -> train_freq cfg <> 0 -> t mod train_freq cfg = 0 ->
    update_target_freq cfg = 0 ->
    train_part t (Some ZeroDivisionError) (training_calls t b lr eps mean best s)
| tp_train b lr eps mean best s :
    start_train cfg <= t -> train_freq cfg <> 0 -> t mod train_freq cfg = 0 ->
    update_target_freq cfg <> 0 -> t mod update_target_freq cfg <> 0 ->
    train_part t None (training_calls t b lr eps mean best s)
| tp_train_and_refresh b lr eps mean best s :
    start_train cfg <= t -> train_freq cfg <> 0 -> t mod train_freq cfg = 0 ->
    update_target_freq cfg <> 0 -> t mod update_target_freq cfg = 0 ->
    train_part t None
      (training_calls t b lr eps mean best s ++ [Call sess_run_update_target tt]).

(** Lines 181-184 of one iteration. *)
Inductive save_part (t : Z) : option exn -> list entry -> Prop :=
| sp_save_freq_zero :
    save_freq cfg = 0 ->
    save_part t (Some ZeroDivisionError) []
| sp_save :
    save_freq cfg <> 0 -> t mod save_freq cfg = 0 ->
    save_part t None [Call save tt; Call signal_train_done tt]
| sp_no_save :
    save_freq cfg <> 0 -> t mod save_freq cfg <> 0 ->
    save_part t None [Call signal_train_done tt].

(** One iteration of [_train_model]: how it ends and what it called. *)
Inductive train_model_body_run (t : Z) : outcome unit -> list entry -> Prop :=
| run_train_raises e tr :
    train_part t (Some e) tr ->
    train_model_body_run t (Raised e) tr
| run_save_raises e tr1 tr2 :
    train_part t None tr1 -> save_part t (Some e) tr2 ->
    train_model_body_run t (Raised e) (tr1 ++ tr2)
| run_returns tr1 tr2 :
    train_part t None tr1 -> save_part t None tr2 ->
    train_model_body_run t (Returned tt) (tr1 ++ tr2).

(** Line 149 holds at step [t]: training occurs. *)
Definition trains_at (t : Z) : bool :=
  (start_train cfg <=? t) &&
  match py_mod t (train_freq cfg) with
  | inr m => m =? 0
  | inl _ => false
  end.

(** [t % f == 0] evaluates to [True]. *)
Definition on_beat (t f : Z) : bool :=
  match py_mod t f with
  | inr m => m =? 0
  | inl _ => false
  end.

(** The three periods are usable as divisors. *)
Definition periods_nonzero : Prop :=
  train_freq cfg <> 0 /\ update_target_freq cfg <> 0 /\ save_freq cfg <> 0.

End LearnerTraces.

(** ** Interleaving semantics: the two loops as two threads *)

Section Threads.
Context {C : Collaborators}.

(** What the two threads share besides the collaborators: the two signals
    of the handshake and the [learn_started] attribute. *)
Record shared : Type := {
  act_chosen : bool;
  train_done : bool;
  learn_started : bool
}.

(** Modelled from the spec: the helpers [_wait_train_done],
    [_signal_act_chosen], [_wait_act_chosen] and [_signal_train_done] belong
    to the base class [OffPolicyAgent], which is not in the file.  Section
    4.2 describes them: two binary signals, [signal()] sets one and
    [wait()] blocks until it is set and then resets it, in one step.

    An event that is one step on the shared state: [None] from the inner
    function means the thread is blocked.  Reading and writing
    [self.learn_started] is one step too.  Every other event is a call to a
    collaborator, with a beginning and an end. *)
Definition atomic {X : Type} (ev : agentE X)
  : option (shared -> option (X * shared)) :=
  match ev in agentE X return option (shared -> option (X * shared)) with
  | wait_train_done =>
      Some (fun sh =>
        if train_done sh then
          Some (tt, {| act_chosen := act_chosen sh; train_done := false;
                       learn_started := learn_started sh |})
        else None)
  | signal_act_chosen =>
      Some (fun sh =>
        Some (tt, {| act_chosen := true; train_done := train_done sh;
                     learn_started := learn_started sh |}))
  | wait_act_chosen =>
      Some (fun sh =>
        if act_chosen sh then
          Some (tt, {| act_chosen := false; train_done := train_done sh;
                       learn_started := learn_started sh |})
        else None)
  | signal_train_done =>
      Some (fun sh =>
        Some (tt, {| act_chosen := act_chosen sh; train_done := true;
                     learn_started := learn_started sh |}))
  | get_learn_started => Some (fun sh => Some (learn_started sh, sh))
  | set_learn_started b =>
      Some (fun sh =>
        Some (tt, {| act_chosen := act_chosen sh; train_done := train_done sh;
                     learn_started := b |}))
  | _ => None
  end.

(** A thread is between two events, or inside a call to a collaborator. *)
Inductive thread (R : Type) : Type :=
| Ready (p : prog R)
| InCall (X : Type) (ev : agentE X) (k : X -> prog R).

Arguments Ready {R} p.
Arguments InCall {R X} ev k.

(** One step of a thread: an atomic event, the beginning of a call (both
    labelled with the event's name), or the return of a call with any
    result. *)
Definition tstep {R : Type} (sh : shared) (th : thread R)
  (lbl : option evname) (sh' : shared) (th' : thread R) : Prop :=
  match th with
  | Ready (Vis ev k) =>
      match atomic ev with
      | Some f =>
          exists x, f sh = Some (x, sh') /\ th' = Ready (k x) /\
                    lbl = Some (name_of ev)
      | None => sh' = sh /\ th' = InCall ev k /\ lbl = Some (name_of ev)
      end
  | Ready _ => False
  | InCall ev k => exists x, sh' = sh /\ th' = Ready (k x) /\ lbl = None
  end.

(** A step of a thread leads to a part of its program. *)
Definition thread_succ {R : Type} (th' th : thread R) : Prop :=
  exists sh lbl sh', tstep sh th lbl sh' th'.

(** The thread is inside a call whose name satisfies [P]. *)
Definition in_call {R : Type} (P : evname -> bool) (th : thread R) : bool :=
  match th with
  | InCall ev _ => P (name_of ev)
  | Ready _ => false
  end.

(** The thread has returned from its loop. *)
Definition returned {R : Type} (th : thread R) : Prop :=
  match th with
  | Ready (Ret _) => True
  | _ => False
  end.

Inductive tid : Type := Actor | Learner.

Definition tid_eqb (a b : tid) : bool :=
  match a, b with
  | Actor, Actor | Learner, Learner => true
  | _, _ => false
  end.

(** The whole system; the history lists the events begun so far. *)
Record gstate : Type := {
  g_shared : shared;
  g_actor : thread unit;
  g_learner : thread unit;
  g_hist : list (tid * evname)
}.

Definition tag (who : tid) (lbl : option evname) : list (tid * evname) :=
  match lbl with
  | Some n => [(who, n)]
  | None => []
  end.

Definition gstep (s s' : gstate) : Prop :=
  (exists lbl,
     tstep (g_shared s) (g_actor s) lbl (g_shared s') (g_actor s') /\
     g_learner s' = g_learner s /\
     g_hist s' = g_hist s ++ tag Actor lbl) \/
  (exists lbl,
     tstep (g_shared s) (g_learner s) lbl (g_shared s') (g_learner s') /\
     g_actor s' = g_actor s /\
     g_hist s' = g_hist s ++ tag Learner lbl).

(** Modelled from the spec: the threads are started by the base class, not
    in the file; section 4.2 says the protocol starts with [trainDone]
    signalled and [actChosen] not.  [flag] is the value of [learn_started]
    at that time. *)
Definition initial (cfg : config) (flag : bool) : gstate :=
  {| g_shared := {| act_chosen := false; train_done := true;
                    learn_started := flag |};
     g_actor := Ready (_run_env cfg);
     g_learner := Ready (_train_model cfg);
     g_hist := [] |}.

Definition reachable (cfg : config) (flag : bool) (s : gstate) : Prop :=
  clos_refl_trans_n1 gstate gstep (initial cfg flag) s.

(** How often [who] began the event [n]. *)
Definition begun (who : tid) (n : evname) (hist : list (tid * evname)) : nat :=
  length (filter (fun x => tid_eqb (fst x) who && evname_eqb (snd x) n) hist).

(** ** The discipline of the handshake

    Each thread owns one wait (it acquires the turn) and one signal (it
    releases it); the calls into the network are only allowed in between. *)
Inductive role_class : Type := Acquire | Release | Critical | Free | Forbidden.

Definition actor_class (n : evname) : role_class :=
  match n with
  | N_wait_train_done => Acquire
  | N_signal_act_chosen => Release
  | N_control_action => Critical
  | N_wait_act_chosen | N_signal_train_done
  | N_sess_run_train | N_sess_run_update_target => Forbidden
  | _ => Free
  end.

Definition learner_class (n : evname) : role_class :=
  match n with
  | N_wait_act_chosen => Acquire
  | N_signal_train_done => Release
  | N_sess_run_train | N_sess_run_update_target => Critical
  | N_wait_train_done | N_signal_act_chosen | N_control_action => Forbidden
  | _ => Free
  end.

(** [follows_to cls strict Q inside n p]: on every path of [p] the waits
    and signals of the role alternate, starting inside the turn or not, the
    critical calls stand between a wait and a signal, the path has [n]
    waits less than [Q] says at its end, and it does not raise when
    [strict]. *)
Fixpoint follows_to {R : Type} (cls : evname -> role_class) (strict : bool)
  (Q : bool -> nat -> R -> Prop) (inside : bool) (n : nat) (p : prog R) : Prop :=
  match p with
  | Ret r => Q inside n r
  | Raise _ => strict = false
  | Vis ev k =>
      match cls (name_of ev) with
      | Acquire =>
          inside = false /\
          match n with
          | S n' => forall x, follows_to cls strict Q true n' (k x)
          | O => False
          end
      | Release => inside = true /\ forall x, follows_to cls strict Q false n (k x)
      | Critical => inside = true /\ forall x, follows_to cls strict Q true n (k x)
      | Free => forall x, follows_to cls strict Q inside n (k x)
      | Forbidden => False
      end
  end.

(** A whole loop: it ends outside the turn with no wait left. *)
Definition loop_end {R : Type} (inside : bool) (n : nat) (_ : R) : Prop :=
  inside = false /\ n = O.

(** One round: from outside the turn with [S n] waits to come to outside
    the turn with [n]. *)
Definition one_round {R : Type} (n : nat) (inside : bool) (n' : nat) (_ : R) : Prop :=
  inside = false /\ n' = n.

Definition thread_follows {R : Type} (cls : evname -> role_class)
  (strict : bool) (inside : bool) (n : nat) (th : thread R) : Prop :=
  match th with
  | Ready p => follows_to cls strict loop_end inside n p
  | InCall ev k =>
      match cls (name_of ev) with
      | Free => True
      | Critical => inside = true
      | _ => False
      end /\
      forall x, follows_to cls strict loop_end inside n (k x)
  end.

(** Where the turn is: with a signal that is set, or with a thread. *)
Inductive phase : Type :=
| train_done_set | actor_holds | act_chosen_set | learner_holds.

Definition actor_inside (ph : phase) : bool :=
  match ph with actor_holds => true | _ => false end.

Definition learner_inside (ph : phase) : bool :=
  match ph with learner_holds => true | _ => false end.

Definition signals_at (ph : phase) (sh : shared) : Prop :=
  match ph with
  | train_done_set => train_done sh = true /\ act_chosen sh = false
  | act_chosen_set => train_done sh = false /\ act_chosen sh = true
  | actor_holds | learner_holds => train_done sh = false /\ act_chosen sh = false
  end.

(** The learner's waits still to come, from the actor's. *)
Definition learner_waits (ph : phase) (na : nat) : nat :=
  match ph with
  | train_done_set | learner_holds => na
  | actor_holds | act_chosen_set => S na
  end.

(** The invariant of the handshake, for loops of [rounds] iterations. *)
Definition handshake_inv (strict : bool) (rounds : nat) (s : gstate) : Prop :=
  exists ph na,
    signals_at ph (g_shared s) /\
    thread_follows actor_class strict (actor_inside ph) na (g_actor s) /\
    thread_follows learner_class strict (learner_inside ph)
      (learner_waits ph na) (g_learner s) /\
    (begun Actor N_wait_train_done (g_hist s) + na = rounds)%nat /\
    (begun Learner N_wait_act_chosen (g_hist s) + learner_waits ph na = rounds)%nat.

End Threads.

Arguments Ready {C R} p.
Arguments InCall {C R X} ev k.

(** ** Runs of one thread, and the rounds of the two loops *)

Section Runs.
Context {C : Collaborators}.

Definition names_of (lbl : option evname) : list evname :=
  match lbl with
  | Some n => [n]
  | None => []
  end.

(** Several steps of one thread, with the names of the events begun. *)
Inductive tsteps {R : Type} : shared -> thread R -> list evname -> shared ->
  thread R -> Prop :=
| tsteps_nil sh th : tsteps sh th [] sh th
| tsteps_cons sh th lbl sh1 th1 lbls sh2 th2 :
    tstep sh th lbl sh1 th1 ->
    tsteps sh1 th1 lbls sh2 th2 ->
    tsteps sh th (names_of lbl ++ lbls) sh2 th2.

(** The thread [th] followed by [f], as [bind] on programs. *)
Definition thread_bind {A B : Type} (th : thread A) (f : A -> prog B) : thread B :=
  match th with
  | Ready p => Ready (bind p f)
  | InCall ev k => InCall ev (fun x => bind (k x) f)
  end.

(** A thread run on its own, every call returning at once with the result
    [answer] gives: the value returned, the shared state and the names of
    the events, or [None] when the thread blocks or raises. *)
Fixpoint solo {R : Type} (answer : forall X : Type, agentE X -> X)
  (p : prog R) (sh : shared) : option (R * shared * list evname) :=
  match p with
  | Ret r => Some (r, sh, [])
  | Raise _ => None
  | Vis ev k =>
      match atomic ev with
      | Some f =>
          match f sh with
          | Some (x, sh1) =>
              match solo answer (k x) sh1 with
              | Some (r, sh2, lbls) => Some (r, sh2, name_of ev :: lbls)
              | None => None
              end
          | None => None
          end
      | None =>
          match solo answer (k (answer _ ev)) sh with
          | Some (r, sh2, lbls) => Some (r, sh2, name_of ev :: lbls)
          | None => None
          end
      end
  end.

(** How often a name occurs in a list of names. *)
Definition count_name (n : evname) (l : list evname) : nat :=
  length (filter (fun m => evname_eqb m n) l).

(** Both loops have completed exactly [i] iterations: the actor has logged
    [i] steps (line 142) and the learner has signalled [i] times
    (line 184). *)
Definition completed (i : nat) (hist : list (tid * evname)) : Prop :=
  begun Actor N_log_progress hist = i /\
  begun Learner N_signal_train_done hist = i.

(** Both loops have completed [i] iterations and begun no other. *)
Definition at_round (i : nat) (hist : list (tid * evname)) : Prop :=
  completed i hist /\
  begun Actor N_wait_train_done hist = i /\
  begun Learner N_wait_act_chosen hist = i.

Variable cfg : config.

(** Both loops are about to start the iterations [ts]: [train_done] is set,
    [act_chosen] is not. *)
Definition round_start (ts : list Z) (last_obs : Obs) (flag : bool)
  (hist : list (tid * evname)) : gstate :=
  {| g_shared := {| act_chosen := false; train_done := true;
                    learn_started := flag |};
     g_actor := Ready (for_each ts run_env_body last_obs ;; Ret tt);
     g_learner := Ready (for_each ts (train_model_body cfg) tt);
     g_hist := hist |}.

End Runs.

(** ** The constructor (lines 13-66) *)

Section Constructor.
Context {C : Collaborators}.

(** The objects the constructor only stores or passes on. *)
Variables OptimizerConf Schedule UserKwargs : Type.

(** [gym] spaces, as far as lines 37-51 look at them: the class, the
    [shape] of a [Box] (an [int] or a sequence) and the [n] of a
    [Discrete]. *)
Inductive shape : Type :=
| shape_int (n : Z)
| shape_seq (dims : list Z).

Inductive space : Type :=
| Box (shp : shape)
| Discrete (n : Z)
| other_space.

(** The attributes the base class has set when [super().__init__] returns
    (the base class is not in the file). *)
Record base_agent : Type := {
  env_observation_space : space;
  env_action_space : space;
  base_start_step : Z;
  base_max_steps : Z;
  base_start_train : Z;
  base_train_freq : Z;
  base_batch_size : Z;
  base_save_freq : Z
}.

(** [model_kwargs] after lines 53-55; the model is kept as the arguments
    it is built from. *)
Record model_kwargs : Type := {
  kw_user : UserKwargs;
  kw_obs_shape : list Z;
  kw_n_actions : Z;
  kw_opt_conf : OptimizerConf
}.

Record replay_buffer : Type := {
  buf_size : Z;
  buf_obs_shape : list Z;
  buf_obs_len : Z
}.

(** Modelled from the spec: the constructor of [rltf.memory.ReplayBuffer]
    is not in the file.  Section 7 of the spec says construction raises
    [InvalidConfiguration] when the capacity is smaller than the history
    length; nothing else is said to fail. *)
Definition ReplayBuffer (size : Z) (obs_shape : list Z) (obs_len : Z)
  : exn + replay_buffer :=
  if size <? obs_len then inl InvalidConfiguration
  else inr {| buf_size := size; buf_obs_shape := obs_shape;
              buf_obs_len := obs_len |}.

Record AgentDQN : Type := {
  agent_base : base_agent;
  agent_opt_conf : OptimizerConf;
  agent_exploration : Schedule;
  agent_update_target_freq : Z;
  agent_model : model_kwargs;
  agent_replay_buf : replay_buffer;
  agent_learn_rate_ph : option Placeholder;
  agent_epsilon_ph : option Placeholder
}.

(** [assert b]. *)
Definition py_assert (b : bool) : exn + unit :=
  if b then inr tt else inl AssertionError.

Definition and_then {A B : Type} (r : exn + A) (f : A -> exn + B) : exn + B :=
  match r with
  | inl e => inl e
  | inr a => f a
  end.

Definition is_Box (s : space) : bool :=
  match s with Box _ => true | _ => false end.

Definition is_Discrete (s : space) : bool :=
  match s with Discrete _ => true | _ => false end.

(** [space.shape] and [space.n], read after the assertions on the class. *)
Definition space_shape (s : space) : shape :=
  match s with Box shp => shp | _ => shape_seq [] end.

Definition space_n (s : space) : Z :=
  match s with Discrete n => n | _ => 0 end.

(** Lines 35-66; [base] is the object as [super().__init__] leaves it. *)
Definition __init__ (base : base_agent) (user_kwargs : UserKwargs)
  (opt_conf : OptimizerConf) (exploration : Schedule)
  (update_target_freq memory_size obs_hist_len : Z) : exn + AgentDQN :=
  and_then (py_assert (is_Box (env_observation_space base))) (fun _ =>
  and_then (py_assert (is_Discrete (env_action_space base))) (fun _ =>
  and_then (py_mod update_target_freq (base_train_freq base)) (fun m =>
  and_then (py_assert (m =? 0)) (fun _ =>
  let obs_shape :=
    match space_shape (env_observation_space base) with
    | shape_int n => [n]
    | shape_seq dims => dims
    end in
  let n_actions := space_n (env_action_space base) in
  let model := {| kw_user := user_kwargs; kw_obs_shape := obs_shape;
                  kw_n_actions := n_actions; kw_opt_conf := opt_conf |} in
  and_then (ReplayBuffer memory_size obs_shape obs_hist_len) (fun replay_buf =>
  inr {| agent_base := base;
         agent_opt_conf := opt_conf;
         agent_exploration := exploration;
         agent_update_target_freq := update_target_freq;
         agent_model := model;
         agent_replay_buf := replay_buf;
         agent_learn_rate_ph := None;
         agent_epsilon_ph := None |}))))).

(** The attributes the two loops read. *)
Definition config_of (a : AgentDQN) : config :=
  {| start_step := base_start_step (agent_base a);
     max_steps := base_max_steps (agent_base a);
     start_train := base_start_train (agent_base a);
     train_freq := base_train_freq (agent_base a);
     batch_size := base_batch_size (agent_base a);
     save_freq := base_save_freq (agent_base a);
     update_target_freq := agent_update_target_freq a;
     learn_rate_ph := agent_learn_rate_ph a;
     epsilon_ph := agent_epsilon_ph a |}.

End Constructor.

(** ** Reading a trace *)

Section Reading.
Context {C : Collaborators}.

(** The value of [learn_started] an entry read, if it is such a read. *)
Definition flag_read (en : entry) : option bool :=
  match en with
  | Call ev x =>
      match ev in agentE X return X -> option bool with
      | get_learn_started => fun b => Some b
      | _ => fun _ => None
      end x
  end.

(** The steps logged by [_log_progress], in order. *)
Fixpoint logged_steps (tr : list entry) : list Z :=
  match tr with
  | [] => []
  | Call ev _ :: tr' =>
      match ev with
      | log_progress t => t :: logged_steps tr'
      | _ => logged_steps tr'
      end
  end.

(** The steps at which the learning rate was asked for (line 163), in
    order: the steps at which the loop trained. *)
Fixpoint trained_steps (tr : list entry) : list Z :=
  match tr with
  | [] => []
  | Call ev _ :: tr' =>
      match ev with
      | lr_value t => t :: trained_steps tr'
      | _ => trained_steps tr'
      end
  end.

(** A handler that keeps no state and answers by a fixed function. *)
Definition stateless (answer : forall X : Type, agentE X -> X) : handler unit :=
  fun X ev w => (answer X ev, w).

End Reading.

(** ** A small concrete world, to run the definitions on examples *)

#[export] Instance small_world : Collaborators := {|
  Obs := Z;
  Action := Z;
  Reward := Z;
  Info := unit;
  NetState := list Z;
  Tensor := list Z;
  Summary := unit;
  Float := Z;
  float_lt := Z.ltb;
  Placeholder := Z;
  ph_eqb := Z.eqb;
  ph_eqb_eq := Z.eqb_eq;
  obs_t_ph := Some 0;
  act_t_ph := Some 1;
  rew_t_ph := Some 2;
  obs_tp1_ph := Some 3;
  done_ph := Some 4;
  mean_ep_rew_ph := Some 7;
  best_mean_ep_rew_ph := Some 8
|}.

(** Collaborators that answer the same way every time: the flag reads
    [started], the draw is [u] and epsilon is [eps]. *)
Definition small_answer (started : bool) (u eps : Z) (X : Type)
  (ev : @agentE small_world X) : X :=
  match ev in agentE X return X with
  | wait_train_done => tt
  | signal_act_chosen => tt
  | wait_act_chosen => tt
  | signal_train_done => tt
  | get_learn_started => started
  | set_learn_started _ => tt
  | env_reset => 0
  | env_step a => (a + 1, 1, false, tt)
  | action_space_sample => 7
  | store_frame _ => 0
  | store_effect _ _ _ _ => tt
  | encode_recent_obs => [0; 0; 0; 0]
  | replay_buf_sample _ =>
      {| batch_obs := []; batch_act := []; batch_rew := [];
         batch_obs_tp1 := []; batch_done := [] |}
  | control_action _ => 3
  | sess_run_train _ => tt
  | sess_run_update_target => tt
  | exploration_value _ => eps
  | lr_value _ => 1
  | random_uniform => u
  | get_mean_ep_rew => 0
  | get_best_mean_ep_rew => 0
  | set_summary _ => tt
  | save => tt
  | log_progress _ => tt
  end.

Definition small_config : config :=
  {| start_step := 1; max_steps := 4; start_train := 2; train_freq := 2;
     batch_size := 32; save_freq := 3; update_target_freq := 4;
     learn_rate_ph := Some 5; epsilon_ph := Some 6 |}.

(** A base object with a [Box] observation space and the action space
    given. *)
Definition small_base (action_space : space) (train_freq : Z) : base_agent :=
  {| env_observation_space := Box (shape_seq [84; 84]);
     env_action_space := action_space;
     base_start_step := 1;
     base_max_steps := 4;
     base_start_train := 2;
     base_train_freq := train_freq;
     base_batch_size := 32;
     base_save_freq := 3 |}.

(** ** More readings of a trace: what reaches the replay buffer *)

Section BufferReadings.
Context {C : Collaborators}.

(** The observations given to [store_frame], in order. *)
Fixpoint stored_frames (tr : list entry) : list Obs :=
  match tr with
  | [] => []
  | Call ev _ :: tr' =>
      match ev with
      | store_frame o => o :: stored_frames tr'
      | _ => stored_frames tr'
      end
  end.

(** The observations the environment hands to the loop for its next
    iteration, in order: the result of every [reset], and the observation of
    every [step] that does not end the episode (the observation of a step
    that ends it is dropped at line 140). *)
Fixpoint carried_obs (tr : list entry) : list Obs :=
  match tr with
  | [] => []
  | Call ev x :: tr' =>
      match ev in agentE X return X -> list Obs with
      | env_reset => fun o => o :: carried_obs tr'
      | env_step _ =>
          fun res =>
            let '(obs, _, done, _) := res in
            if done : bool then carried_obs tr' else obs :: carried_obs tr'
      | _ => fun _ => carried_obs tr'
      end x
  end.

(** The two-phase writes of the replay buffer along a trace.  [pending] is
    the index of the frame stored and not yet completed, [acted] what the
    environment step since then was given and returned.  A frame is only
    stored when none is pending; the environment is only stepped while one
    is; an effect is only stored on the pending index, with the action, the
    reward and the flag of that step; [Q] holds at the end. *)
Fixpoint protocol_to (Q : option Z -> option (Action * Reward * bool) -> Prop)
  (pending : option Z) (acted : option (Action * Reward * bool))
  (tr : list entry) : Prop :=
  match tr with
  | [] => Q pending acted
  | Call ev x :: tr' =>
      match ev in agentE X return X -> Prop with
      | store_frame _ =>
          fun idx => pending = None /\ protocol_to Q (Some idx) None tr'
      | env_step a =>
          fun res =>
            let '(_, r, done, _) := res in
            pending <> None /\ acted = None /\
            protocol_to Q pending (Some (a, r, done)) tr'
      | store_effect idx a r d =>
          fun _ =>
            pending = Some idx /\ acted = Some (a, r, d) /\
            protocol_to Q None None tr'
      | _ => fun _ => protocol_to Q pending acted tr'
      end x
  end.

(** The steps of the environment that ended an episode. *)
Fixpoint episodes_ended (tr : list entry) : nat :=
  match tr with
  | [] => O
  | Call ev x :: tr' =>
      match ev in agentE X return X -> nat with
      | env_step _ =>
          fun res =>
            let '(_, _, done, _) := res in
            if done : bool then S (episodes_ended tr') else episodes_ended tr'
      | _ => fun _ => episodes_ended tr'
      end x
  end.

(** A whole run: it starts and ends with no frame pending. *)
Definition buffer_protocol (tr : list entry) : Prop :=
  protocol_to (fun pending _ => pending = None) None None tr.

End BufferReadings.

(** ** Reading the feed of the training step *)

Section FeedReadings.
Context {C : Collaborators}.



End FeedReadings.

(** ** When an iteration of the learning loop raises *)

Section Raising.
Context {C : Collaborators}.
Variable cfg : config.

(** One of the three remainders of lines 149, 175 and 181 is computed with
    a zero divisor at step [t]: line 149 once [t] has reached [start_train],
    line 175 when the iteration trains, line 181 in every iteration. *)
Definition raises_at (t : Z) : bool :=
  ((start_train cfg <=? t) && (train_freq cfg =? 0)) ||
  (trains_at cfg t && (update_target_freq cfg =? 0)) ||
  (save_freq cfg =? 0).

End Raising.

(** ** More disciplines of the two threads *)

Section ThreadDisciplines.
Context {C : Collaborators}.

(** The events the acting loop uses, and those the learning loop uses. *)
Definition actor_calls (n : evname) : bool :=
  match n with
  | N_wait_train_done | N_signal_act_chosen | N_get_learn_started
  | N_env_reset | N_env_step | N_action_space_sample | N_store_frame
  | N_store_effect | N_encode_recent_obs | N_control_action
  | N_exploration_value | N_random_uniform | N_log_progress => true
  | _ => false
  end.

Definition learner_calls (n : evname) : bool :=
  match n with
  | N_wait_act_chosen | N_signal_train_done | N_set_learn_started
  | N_replay_buf_sample | N_sess_run_train | N_sess_run_update_target
  | N_exploration_value | N_lr_value | N_get_mean_ep_rew
  | N_get_best_mean_ep_rew | N_set_summary | N_save => true
  | _ => false
  end.

Definition calls_of (who : tid) : evname -> bool :=
  match who with
  | Actor => actor_calls
  | Learner => learner_calls
  end.

(** Every event of [p], on every path, has a name in [P]. *)
Fixpoint calls_only {R : Type} (P : evname -> bool) (p : prog R) : Prop :=
  match p with
  | Ret _ => True
  | Raise _ => True
  | Vis ev k => P (name_of ev) = true /\ forall x, calls_only P (k x)
  end.

Definition thread_calls_only {R : Type} (P : evname -> bool) (th : thread R)
  : Prop :=
  match th with
  | Ready p => calls_only P p
  | InCall ev k => forall x, calls_only P (k x)
  end.

(** [p] never writes [learn_started], and asks the network for an action
    only after it has read [learn_started] as true ([may] says whether it
    has, at the start of [p]). *)
Fixpoint infer_guarded {R : Type} (may : bool) (p : prog R) : Prop :=
  match p with
  | Ret _ => True
  | Raise _ => True
  | Vis ev k =>
      match ev in agentE X return (bool -> X -> Prop) -> Prop with
      | get_learn_started => fun G => G true true /\ G false false
      | control_action _ => fun G => may = true /\ forall x, G may x
      | set_learn_started _ => fun _ => False
      | _ => fun G => forall x, G may x
      end (fun m x => infer_guarded m (k x))
  end.

Definition thread_infer_guarded {R : Type} (may : bool) (th : thread R) : Prop :=
  match th with
  | Ready p => infer_guarded may p
  | InCall ev k =>
      (is_inference (name_of ev) = true -> may = true) /\
      forall x, infer_guarded may (k x)
  end.

(** [p] writes nothing but [True] to [learn_started]. *)
Fixpoint sets_flag_only {R : Type} (p : prog R) : Prop :=
  match p with
  | Ret _ => True
  | Raise _ => True
  | Vis ev k =>
      match ev with
      | set_learn_started b => b = true
      | _ => True
      end /\ forall x, sets_flag_only (k x)
  end.

Definition thread_sets_flag_only {R : Type} (th : thread R) : Prop :=
  match th with
  | Ready p => sets_flag_only p
  | InCall ev k => forall x, sets_flag_only (k x)
  end.

(** The invariant of [learn_started], [flag] being its value at the
    start. *)
Definition learn_started_inv (flag : bool) (s : gstate) : Prop :=
  exists may,
    thread_infer_guarded may (g_actor s) /\
    (may = true -> learn_started (g_shared s) = true) /\
    thread_sets_flag_only (g_learner s) /\
    (learn_started (g_shared s) = true ->
     flag = true \/ (0 < begun Learner N_set_learn_started (g_hist s))%nat) /\
    begun Actor N_set_learn_started (g_hist s) = O.

(** On every path [p] signals [train_done] at most [n] times, the count
    left at a return satisfying [Q]. *)
Fixpoint signals_to {R : Type} (Q : nat -> R -> Prop) (n : nat) (p : prog R)
  : Prop :=
  match p with
  | Ret r => Q n r
  | Raise _ => True
  | Vis ev k =>
      if evname_eqb (name_of ev) N_signal_train_done then
        match n with
        | S n' => forall x, signals_to Q n' (k x)
        | O => False
        end
      else forall x, signals_to Q n (k x)
  end.

(** [p] never returns, and signals [train_done] at most [n] times. *)
Definition dies_within {R : Type} (n : nat) (p : prog R) : Prop :=
  signals_to (fun _ _ => False) n p.

Definition thread_dies_within {R : Type} (n : nat) (th : thread R) : Prop :=
  match th with
  | Ready p => dies_within n p
  | InCall ev k => forall x, dies_within n (k x)
  end.

(** The invariant of a learner that dies: it can still signal [left]
    times, and the actor has not passed more waits than the signal set at
    the start and the learner's signals allow. *)
Definition dying_inv (budget : nat) (s : gstate) : Prop :=
  exists left,
    thread_dies_within left (g_learner s) /\
    (begun Learner N_signal_train_done (g_hist s) + left = budget)%nat /\
    (begun Actor N_wait_train_done (g_hist s) +
     (if train_done (g_shared s) then 1 else 0)
     <= 1 + begun Learner N_signal_train_done (g_hist s))%nat.

End ThreadDisciplines.

(** The small configuration with a [save_freq] of zero: every iteration of
    the learning loop raises at line 181. *)
Definition stranded_config : config :=
  {| start_step := 1; max_steps := 4; start_train := 2; train_freq := 2;
     batch_size := 32; save_freq := 0; update_target_freq := 4;
     learn_rate_ph := Some 5; epsilon_ph := Some 6 |}.

(** * Properties *)

Section SequentialFacts.
Context {C : Collaborators}.
Variable cfg : config.

(** ** Running a program against a handler *)

Lemma exec_bind {W A B : Type} (h : handler W) (p : prog A) (f : A -> prog B) (w : W) :
  exec h (bind p f) w =
  match exec h p w with
  | (Returned a, w1, tr1) =>
      let '(o, w2, tr2) := exec h (f a) w1 in (o, w2, tr1 ++ tr2)
  | (Raised e, w1, tr1) => (Raised e, w1, tr1)
  end.
Proof.
  revert w; induction p as [a | e | X ev k IH]; intro w; simpl.
  - destruct (exec h (f a) w) as [[o w2] tr2]; reflexivity.
  - reflexivity.
  - destruct (h X ev w) as [x w1].
    rewrite IH.
    destruct (exec h (k x) w1) as [[[a | e] w2] tr1]; [| reflexivity].
    destruct (exec h (f a) w2) as [[o w3] tr2]; reflexivity.
Qed.

Lemma exec_call {W X : Type} (h : handler W) (ev : agentE X) (w : W) :
  exec h (call ev) w = (Returned (fst (h X ev w)), snd (h X ev w), [Call ev (fst (h X ev w))]).
Proof. unfold call; simpl. destruct (h X ev w); reflexivity. Qed.

(** Lines 109-122 always yield an action, by one of the three paths. *)
Lemma get_action_exec {W : Type} (h : handler W) (t : Z) (w : W) :
  exists a w' tr,
    exec h (get_action t) w = (Returned a, w', tr) /\ action_choice t tr a.
Proof.
  unfold get_action, call; simpl.
  destruct (h bool get_learn_started w) as [[|] w1]; simpl.
  - destruct (h Float (exploration_value t) w1) as [eps w2]; simpl.
    destruct (h Float random_uniform w2) as [u w3]; simpl.
    destruct (float_lt u eps) eqn:Hlt; simpl.
    + destruct (h Action action_space_sample w3) as [a w4].
      do 3 eexists; split; [reflexivity | now apply choice_explore].
    + destruct (h NetState encode_recent_obs w3) as [s w4]; simpl.
      destruct (h Action (control_action s) w4) as [a w5].
      do 3 eexists; split; [reflexivity | now apply choice_greedy].
  - destruct (h Action action_space_sample w1) as [a w2].
    do 3 eexists; split; [reflexivity | apply choice_not_started].
Qed.

(** One iteration of [_run_env] returns, and its calls are, in order: the
    wait, the frame store, the choice of the action, the signal, the
    environment step, the effect store on the index of the frame store, the
    reset if the episode ended, and the progress log. *)
Lemma run_env_body_exec {W : Type} (h : handler W) (t : Z) (last_obs : Obs) (w : W) :
  exists idx choice a obs r d info reset_tr next w',
    exec h (run_env_body t last_obs) w =
      (Returned next, w',
       [Call wait_train_done tt; Call (store_frame last_obs) idx] ++ choice ++
       [Call signal_act_chosen tt; Call (env_step a) (obs, r, d, info);
        Call (store_effect idx a r d) tt] ++ reset_tr ++
       [Call (log_progress t) tt]) /\
    action_choice t choice a /\
    episode_end d obs reset_tr next.
Proof.
  unfold run_env_body.
  rewrite exec_bind, exec_call; cbn [fst snd].
  destruct (h unit wait_train_done w) as [[] w1]; cbn [fst snd].
  rewrite exec_bind, exec_call; cbn [fst snd].
  destruct (h Z (store_frame last_obs) w1) as [idx w2]; cbn [fst snd].
  rewrite exec_bind.
  destruct (get_action_exec h t w2) as (a & w3 & choice & -> & Hchoice).
  rewrite exec_bind, exec_call.
  destruct (h unit signal_act_chosen w3) as [[] w4]; cbn [fst snd].
  rewrite exec_bind, exec_call.
  destruct (h _ (env_step a) w4) as [[[[obs r] d] info] w5]; cbn [fst snd].
  rewrite exec_bind, exec_call.
  destruct (h unit (store_effect idx a r d) w5) as [[] w6]; cbn [fst snd].
  rewrite exec_bind.
  destruct d.
  - rewrite exec_call.
    destruct (h Obs env_reset w6) as [o' w7]; cbn [fst snd].
    rewrite exec_bind, exec_call.
    destruct (h unit (log_progress t) w7) as [[] w8]; cbn [fst snd exec].
    exists idx, choice, a, obs, r, true, info, [Call env_reset o'], o', w8.
    split; [| split; [assumption | reflexivity]].
    reflexivity.
  - cbn [exec].
    rewrite exec_bind, exec_call.
    destruct (h unit (log_progress t) w6) as [[] w7]; cbn [fst snd exec].
    exists idx, choice, a, obs, r, false, info, [], obs, w7.
    split; [| split; [assumption | split; reflexivity]].
    reflexivity.
Qed.


(** One iteration of [_train_model], whatever the collaborators answer. *)
Lemma train_model_body_exec {W : Type} (h : handler W) (t : Z) (w : W) :
  train_model_body_run cfg t
    (result_of (exec h (train_model_body cfg t tt) w))
    (trace_of (exec h (train_model_body cfg t tt) w)).
Proof.
  unfold train_model_body, train_now, train_branch, py_mod, result_of, trace_of.
  assert (Hsave : forall w0 : W,
    let r := exec h
      (m <- lift (if save_freq cfg =? 0 then inl ZeroDivisionError
                  else inr (t mod save_freq cfg)) ;;
       (if m =? 0 then call save else Ret tt) ;; call signal_train_done) w0 in
    (exists e, fst (fst r) = Raised e /\ save_part cfg t (Some e) (snd r)) \/
    (fst (fst r) = Returned tt /\ save_part cfg t None (snd r))).
  { intro w0. destruct (Z.eqb_spec (save_freq cfg) 0) as [Hz | Hnz]; simpl.
    - left. eexists; split; [reflexivity | now constructor].
    - right. destruct (Z.eqb_spec (t mod save_freq cfg) 0) as [Hm | Hm]; simpl.
      + destruct (h unit save w0) as [[] w1]; simpl.
        destruct (h unit signal_train_done w1) as [[] w2]; simpl.
        split; [reflexivity | now constructor].
      + destruct (h unit signal_train_done w0) as [[] w1]; simpl.
        split; [reflexivity | now constructor]. }
  assert (Hskip : forall tr1 : list entry,
    train_part cfg t None [Call wait_act_chosen tt] ->
    let r := exec h
      (call wait_act_chosen ;;
       m <- lift (if save_freq cfg =? 0 then inl ZeroDivisionError
                  else inr (t mod save_freq cfg)) ;;
       (if m =? 0 then call save else Ret tt) ;; call signal_train_done) w in
    train_model_body_run cfg t (fst (fst r)) (snd r)).
  { intros _ Hpart r. subst r. rewrite exec_bind, exec_call.
    destruct (h unit wait_act_chosen w) as [[] w1]; cbn [fst snd].
    specialize (Hsave w1); cbv zeta in Hsave.
    destruct (exec h _ w1) as [[o w2] tr2]; cbn [fst snd] in *.
    destruct Hsave as [(e & -> & Hs) | (-> & Hs)].
    - now apply (run_save_raises Hpart).
    - now apply (run_returns Hpart). }
  destruct (Z.leb_spec (start_train cfg) t) as [Hge | Hlt].
  2: { cbn [bind]. apply (Hskip []). now constructor. }
  destruct (Z.eqb_spec (train_freq cfg) 0) as [Hz | Hnz].
  { simpl. apply run_train_raises. now constructor. }
  cbn [lift bind].
  destruct (Z.eqb_spec (t mod train_freq cfg) 0) as [Hm | Hm].
  2: { apply (Hskip []). now constructor. }
  rewrite exec_bind.
  set (body := bind (call (set_learn_started true)) _).
  assert (Hbody :
    (exists e tr w1, exec h body w = (Raised e, w1, tr) /\
                     train_part cfg t (Some e) tr) \/
    (exists tr w1, exec h body w = (Returned tt, w1, tr) /\
                   train_part cfg t None tr)).
  { subst body. unfold call; simpl.
    destruct (h unit (set_learn_started true) w) as [[] w1]; simpl.
    destruct (h batch (replay_buf_sample (batch_size cfg)) w1) as [b w2]; simpl.
    destruct (h Float (lr_value t) w2) as [lr w3]; simpl.
    destruct (h Float (exploration_value t) w3) as [eps w4]; simpl.
    destruct (h Float get_mean_ep_rew w4) as [mean w5]; simpl.
    destruct (h Float get_best_mean_ep_rew w5) as [best w6]; simpl.
    destruct (h unit wait_act_chosen w6) as [[] w7]; simpl.
    destruct (h Summary (sess_run_train _) w7) as [s w8]; simpl.
    destruct (h unit (set_summary s) w8) as [[] w9]; simpl.
    destruct (Z.eqb_spec (update_target_freq cfg) 0) as [Hu | Hu]; simpl.
    - left. do 3 eexists; split; [reflexivity |].
      apply tp_target_freq_zero; assumption.
    - right. destruct (Z.eqb_spec (t mod update_target_freq cfg) 0) as [Hmu | Hmu]; simpl.
      + destruct (h unit sess_run_update_target w9) as [[] w10]; simpl.
        do 2 eexists; split; [reflexivity |].
        apply (tp_train_and_refresh cfg b lr eps mean best s); assumption.
      + do 2 eexists; split; [reflexivity |].
        apply tp_train; assumption. }
  destruct Hbody as [(e & tr & w1 & -> & Hp) | (tr & w1 & -> & Hp)].
  - cbn [fst snd]. now apply run_train_raises.
  - specialize (Hsave w1); cbv zeta in Hsave.
    destruct (exec h _ w1) as [[o w2] tr2]; cbn [fst snd] in *.
    destruct Hsave as [(e & -> & Hs) | (-> & Hs)].
    + now apply (run_save_raises Hp).
    + now apply (run_returns Hp).
Qed.

End SequentialFacts.

(** ** The loops follow the discipline of the handshake *)

Section Discipline.
Context {C : Collaborators}.
Variable cfg : config.

Lemma follows_to_bind {A B : Type} (cls : evname -> role_class) (strict : bool)
  (Q1 : bool -> nat -> A -> Prop) (Q2 : bool -> nat -> B -> Prop)
  (p : prog A) (f : A -> prog B) :
  forall inside n,
    follows_to cls strict Q1 inside n p ->
    (forall inside' n' a, Q1 inside' n' a -> follows_to cls strict Q2 inside' n' (f a)) ->
    follows_to cls strict Q2 inside n (bind p f).
Proof.
  induction p as [a | e | X ev k IH]; intros inside n Hp Hf; simpl in *.
  - now apply Hf.
  - assumption.
  - destruct (cls (name_of ev)).
    + destruct Hp as [Hin Hp]; split; [assumption |].
      destruct n as [| n']; [assumption |].
      intro x; now apply IH.
    + destruct Hp as [Hin Hp]; split; [assumption |].
      intro x; now apply IH.
    + destruct Hp as [Hin Hp]; split; [assumption |].
      intro x; now apply IH.
    + intro x; now apply IH.
    + assumption.
Qed.

Lemma for_each_follows {S : Type} (cls : evname -> role_class) (strict : bool)
  (body : Z -> S -> prog S) :
  (forall t s n, follows_to cls strict (one_round n) false (Datatypes.S n) (body t s)) ->
  forall ts s,
    follows_to cls strict loop_end false (length ts) (for_each ts body s).
Proof.
  intro Hbody; induction ts as [| t ts IH]; intro s; simpl.
  - split; reflexivity.
  - eapply follows_to_bind; [apply Hbody |].
    intros inside' n' s' [-> ->]. apply IH.
Qed.

Lemma run_env_body_follows (strict : bool) (t : Z) (last_obs : Obs) (n : nat) :
  follows_to actor_class strict (one_round n) false (S n) (run_env_body t last_obs).
Proof.
  unfold run_env_body, get_action, call; simpl.
  split; [reflexivity |].
  intros _ idx [|]; simpl.
  - intros eps u. destruct (float_lt u eps); simpl.
    + intros a; split; [reflexivity |].
      intros _ [[[obs r] [|]] info]; simpl; intros _; [intros o' |]; simpl;
        intros _; split; reflexivity.
    + intros s; split; [reflexivity |].
      intros a; split; [reflexivity |].
      intros _ [[[obs r] [|]] info]; simpl; intros _; [intros o' |]; simpl;
        intros _; split; reflexivity.
  - intros a; split; [reflexivity |].
    intros _ [[[obs r] [|]] info]; simpl; intros _; [intros o' |]; simpl;
      intros _; split; reflexivity.
Qed.

Lemma train_model_body_follows (strict : bool) (t : Z) (n : nat) :
  (strict = true -> periods_nonzero cfg) ->
  follows_to learner_class strict (one_round n) false (S n) (train_model_body cfg t tt).
Proof.
  intro Hper.
  assert (Hnz : forall f : Z, f = 0 -> f = train_freq cfg \/ f = update_target_freq cfg
                              \/ f = save_freq cfg -> strict = false).
  { intros f Hf Hwhich. destruct strict; [| reflexivity].
    destruct (Hper eq_refl) as (H1 & H2 & H3).
    destruct Hwhich as [-> | [-> | ->]]; contradiction. }
  assert (Htail : follows_to learner_class strict (one_round n) true n
            (m <- lift (py_mod t (save_freq cfg)) ;;
             (if m =? 0 then call save else Ret tt) ;; call signal_train_done)).
  { unfold py_mod. destruct (Z.eqb_spec (save_freq cfg) 0) as [Hz | Hz]; simpl.
    - apply (Hnz _ Hz); auto.
    - destruct (t mod save_freq cfg =? 0); simpl.
      + intros ?; split; [reflexivity |]. intros ?; split; reflexivity.
      + split; [reflexivity |]. intros ?; split; reflexivity. }
  assert (Hskip : follows_to learner_class strict (one_round n) false (S n)
            (call wait_act_chosen ;;
             m <- lift (py_mod t (save_freq cfg)) ;;
             (if m =? 0 then call save else Ret tt) ;; call signal_train_done)).
  { simpl. split; [reflexivity |]. intros ?. exact Htail. }
  unfold train_model_body, train_now.
  destruct (start_train cfg <=? t); [| exact Hskip].
  unfold py_mod at 1.
  destruct (Z.eqb_spec (train_freq cfg) 0) as [Hz | Hz]; simpl.
  { apply (Hnz _ Hz); auto. }
  destruct (t mod train_freq cfg =? 0); [| exact Hskip].
  eapply follows_to_bind with (Q1 := fun inside n' (_ : unit) => inside = true /\ n' = n).
  2: { intros inside' n' _ [-> ->]. exact Htail. }
  unfold train_branch, call; simpl.
  intros ? b lr eps mean best. split; [reflexivity |].
  intros ?. split; [reflexivity |].
  intros s ?. unfold py_mod.
  destruct (Z.eqb_spec (update_target_freq cfg) 0) as [Hu | Hu]; simpl.
  { apply (Hnz _ Hu); auto. }
  destruct (t mod update_target_freq cfg =? 0); simpl.
  - split; [reflexivity |]. intros ?; split; reflexivity.
  - split; reflexivity.
Qed.

Lemma run_env_follows (strict : bool) :
  follows_to actor_class strict loop_end false
    (length (py_range (start_step cfg) (max_steps cfg + 1))) (_run_env cfg).
Proof.
  unfold _run_env. simpl. intro last_obs.
  eapply follows_to_bind.
  - apply for_each_follows. intros t s n. apply run_env_body_follows.
  - intros inside' n' ? H. exact H.
Qed.

Lemma train_model_follows (strict : bool) :
  (strict = true -> periods_nonzero cfg) ->
  follows_to learner_class strict loop_end false
    (length (py_range (start_step cfg) (max_steps cfg + 1))) (_train_model cfg).
Proof.
  intro Hper. unfold _train_model.
  apply for_each_follows. intros t [] n. now apply train_model_body_follows.
Qed.

End Discipline.

(** ** The invariant of the handshake *)

Section Handshake.
Context {C : Collaborators}.

Lemma begun_app (who : tid) (n : evname) (h1 h2 : list (tid * evname)) :
  begun who n (h1 ++ h2) = (begun who n h1 + begun who n h2)%nat.
Proof. unfold begun. now rewrite filter_app, length_app. Qed.

Lemma begun_other (who who' : tid) (n : evname) (lbl : option evname) :
  who <> who' -> begun who n (tag who' lbl) = O.
Proof.
  intro Hne. destruct lbl as [m |]; [| reflexivity].
  unfold begun; simpl. destruct who, who'; try reflexivity; contradiction.
Qed.

Lemma evname_eqb_eq (a b : evname) : evname_eqb a b = true <-> a = b.
Proof.
  split.
  - destruct a, b; simpl; congruence.
  - intros ->; destruct b; reflexivity.
Qed.

(** What one step of the actor does to the turn. *)
Lemma actor_tstep (strict inside : bool) (n : nat) (sh sh' : shared)
  (th th' : thread unit) (lbl : option evname) :
  thread_follows actor_class strict inside n th ->
  tstep sh th lbl sh' th' ->
  (thread_follows actor_class strict inside n th' /\
   train_done sh' = train_done sh /\ act_chosen sh' = act_chosen sh /\
   begun Actor N_wait_train_done (tag Actor lbl) = O) \/
  (inside = false /\ train_done sh = true /\
   exists n', n = S n' /\ thread_follows actor_class strict true n' th' /\
     train_done sh' = false /\ act_chosen sh' = act_chosen sh /\
     begun Actor N_wait_train_done (tag Actor lbl) = 1%nat) \/
  (inside = true /\ thread_follows actor_class strict false n th' /\
   train_done sh' = train_done sh /\ act_chosen sh' = true /\
   begun Actor N_wait_train_done (tag Actor lbl) = O).
Proof.
  intros Hf Hs.
  destruct th as [[r | e | X ev k] | X ev k]; simpl in Hs; try contradiction.
  - destruct ev; simpl in Hf, Hs; try contradiction;
      lazymatch type of Hs with
      | _ /\ _ =>
          destruct Hs as (Hsh & Hth & Hlbl); subst sh' th' lbl;
          left; split; [simpl; first [tauto | destruct Hf as [-> Hf]; tauto] | repeat split; reflexivity]
      | _ => destruct Hs as (x & Hs & Hth & Hlbl); subst th' lbl
      end.
    + (* the wait *)
      destruct Hf as [-> Hf]. destruct n as [| n']; [contradiction |].
      destruct (train_done sh) eqn:Htd; [| discriminate].
      destruct x. injection Hs as <-.
      right; left. repeat split; try reflexivity.
      exists n'. repeat split; try reflexivity. apply Hf.
    + (* the signal *)
      destruct Hf as [-> Hf]. destruct x. injection Hs as <-.
      right; right. repeat split; try reflexivity. apply Hf.
    + (* get_learn_started *)
      injection Hs as <- <-.
      left. repeat split; try reflexivity. apply Hf.
    + (* set_learn_started *)
      destruct x. injection Hs as <-.
      left. repeat split; try reflexivity. apply Hf.
  - destruct Hs as (x & -> & -> & ->). destruct Hf as [_ Hf].
    left. repeat split; try reflexivity. apply Hf.
Qed.

(** What one step of the learner does to the turn. *)
Lemma learner_tstep (strict inside : bool) (n : nat) (sh sh' : shared)
  (th th' : thread unit) (lbl : option evname) :
  thread_follows learner_class strict inside n th ->
  tstep sh th lbl sh' th' ->
  (thread_follows learner_class strict inside n th' /\
   train_done sh' = train_done sh /\ act_chosen sh' = act_chosen sh /\
   begun Learner N_wait_act_chosen (tag Learner lbl) = O) \/
  (inside = false /\ act_chosen sh = true /\
   exists n', n = S n' /\ thread_follows learner_class strict true n' th' /\
     act_chosen sh' = false /\ train_done sh' = train_done sh /\
     begun Learner N_wait_act_chosen (tag Learner lbl) = 1%nat) \/
  (inside = true /\ thread_follows learner_class strict false n th' /\
   act_chosen sh' = act_chosen sh /\ train_done sh' = true /\
   begun Learner N_wait_act_chosen (tag Learner lbl) = O).
Proof.
  intros Hf Hs.
  destruct th as [[r | e | X ev k] | X ev k]; simpl in Hs; try contradiction.
  - destruct ev; simpl in Hf, Hs; try contradiction;
      lazymatch type of Hs with
      | _ /\ _ =>
          destruct Hs as (Hsh & Hth & Hlbl); subst sh' th' lbl;
          left; split; [simpl; first [tauto | destruct Hf as [-> Hf]; tauto] | repeat split; reflexivity]
      | _ => destruct Hs as (x & Hs & Hth & Hlbl); subst th' lbl
      end.
    + (* the wait *)
      destruct Hf as [-> Hf]. destruct n as [| n']; [contradiction |].
      destruct (act_chosen sh) eqn:Hac; [| discriminate].
      destruct x. injection Hs as <-.
      right; left. repeat split; try reflexivity.
      exists n'. repeat split; try reflexivity. apply Hf.
    + (* the signal *)
      destruct Hf as [-> Hf]. destruct x. injection Hs as <-.
      right; right. repeat split; try reflexivity. apply Hf.
    + (* get_learn_started *)
      injection Hs as <- <-.
      left. repeat split; try reflexivity. apply Hf.
    + (* set_learn_started *)
      destruct x. injection Hs as <-.
      left. repeat split; try reflexivity. apply Hf.
  - destruct Hs as (x & -> & -> & ->). destruct Hf as [_ Hf].
    left. repeat split; try reflexivity. apply Hf.
Qed.

Lemma signals_at_ext (ph : phase) (sh sh' : shared) :
  train_done sh' = train_done sh -> act_chosen sh' = act_chosen sh ->
  signals_at ph sh -> signals_at ph sh'.
Proof. intros Htd Hac. destruct ph; simpl; rewrite Htd, Hac; trivial. Qed.

Lemma handshake_inv_initial (cfg : config) (strict flag : bool) :
  (strict = true -> periods_nonzero cfg) ->
  handshake_inv strict (length (py_range (start_step cfg) (max_steps cfg + 1)))
    (initial cfg flag).
Proof.
  intro Hper.
  exists train_done_set, (length (py_range (start_step cfg) (max_steps cfg + 1))).
  simpl. repeat split.
  - apply run_env_follows.
  - now apply train_model_follows.
Qed.

Lemma handshake_inv_step (strict : bool) (rounds : nat) (s s' : gstate) :
  handshake_inv strict rounds s -> gstep s s' -> handshake_inv strict rounds s'.
Proof.
  intros (ph & na & Hsig & HA & HL & HcA & HcL)
         [(lbl & Hs & Hother & Hh) | (lbl & Hs & Hother & Hh)].
  - destruct (@actor_tstep _ _ _ _ _ _ _ _ HA Hs)
      as [(HA1 & Htd & Hac & Hb)
         | [(Hin & Htd & n' & -> & HA1 & Htd' & Hac & Hb)
           | (Hin & HA1 & Htd & Hac & Hb)]].
    + exists ph, na. rewrite Hh, Hother, !begun_app, Hb, begun_other by discriminate.
      repeat split; try assumption; try lia.
      eapply signals_at_ext; eassumption.
    + assert (ph = train_done_set) as ->.
      { destruct ph; simpl in *; try discriminate; try reflexivity;
          destruct Hsig; congruence. }
      exists actor_holds, n'.
      rewrite Hh, Hother, !begun_app, Hb, begun_other by discriminate.
      simpl in *. destruct Hsig as [_ Hsig].
      repeat split; try assumption; try lia; congruence.
    + assert (ph = actor_holds) as ->.
      { destruct ph; simpl in *; try discriminate; reflexivity. }
      exists act_chosen_set, na.
      rewrite Hh, Hother, !begun_app, Hb, begun_other by discriminate.
      simpl in *. destruct Hsig as [Hsig _].
      repeat split; try assumption; try lia; congruence.
  - destruct (@learner_tstep _ _ _ _ _ _ _ _ HL Hs)
      as [(HL1 & Htd & Hac & Hb)
         | [(Hin & Hac & n' & Hn & HL1 & Hac' & Htd & Hb)
           | (Hin & HL1 & Hac & Htd & Hb)]].
    + exists ph, na. rewrite Hh, Hother, !begun_app, Hb, begun_other by discriminate.
      repeat split; try assumption; try lia.
      eapply signals_at_ext; eassumption.
    + assert (ph = act_chosen_set) as ->.
      { destruct ph; simpl in *; try discriminate; try reflexivity;
          destruct Hsig; congruence. }
      simpl in Hn. injection Hn as <-.
      exists learner_holds, na.
      rewrite Hh, Hother, !begun_app, Hb, begun_other by discriminate.
      simpl in *. destruct Hsig as [Hsig _].
      repeat split; try assumption; try lia; congruence.
    + assert (ph = learner_holds) as ->.
      { destruct ph; simpl in *; try discriminate; reflexivity. }
      exists train_done_set, na.
      rewrite Hh, Hother, !begun_app, Hb, begun_other by discriminate.
      simpl in *. destruct Hsig as [_ Hsig].
      repeat split; try assumption; try lia; congruence.
Qed.

Lemma handshake_inv_reachable (cfg : config) (strict flag : bool) (s : gstate) :
  (strict = true -> periods_nonzero cfg) ->
  reachable cfg flag s ->
  handshake_inv strict (length (py_range (start_step cfg) (max_steps cfg + 1))) s.
Proof.
  intros Hper Hreach. induction Hreach as [| s1 s2 Hstep _ IH].
  - now apply handshake_inv_initial.
  - eapply handshake_inv_step; eassumption.
Qed.

(** Under the invariant the two threads are never both inside a call into
    the network. *)
Lemma handshake_inv_exclusive (strict : bool) (rounds : nat) (s : gstate) :
  handshake_inv strict rounds s ->
  in_call is_inference (g_actor s) && in_call is_optimization (g_learner s) = false.
Proof.
  intros (ph & na & Hsig & HA & HL & _).
  destruct (in_call is_inference (g_actor s)) eqn:Ha; [| reflexivity].
  destruct (in_call is_optimization (g_learner s)) eqn:Hl; [| reflexivity].
  exfalso.
  destruct (g_actor s) as [pa | X ev k]; [discriminate |].
  destruct (g_learner s) as [pl | X' ev' k']; [discriminate |].
  simpl in *.
  assert (actor_inside ph = true) as Hai.
  { destruct ev; simpl in *; try discriminate. tauto. }
  assert (learner_inside ph = true) as Hli.
  { destruct ev'; simpl in *; try discriminate; tauto. }
  destruct ph; discriminate.
Qed.

End Handshake.

(** ** Progress and termination of the two threads *)

Section Liveness.
Context {C : Collaborators}.

(** Some result for every call: the collaborators can answer. *)
Variable answer : forall X : Type, agentE X -> X.

Lemma actor_can_step (inside : bool) (n : nat) (th : thread unit) (sh : shared) :
  thread_follows actor_class true inside n th ->
  (returned th /\ inside = false /\ n = O) \/
  (inside = false /\ n <> O /\ train_done sh = false) \/
  (exists lbl sh' th', tstep sh th lbl sh' th').
Proof.
  intro Hf.
  destruct th as [[r | e | X ev k] | X ev k]; simpl in Hf.
  - left. destruct Hf as [-> ->]. simpl. auto.
  - discriminate.
  - destruct ev; simpl in Hf; try contradiction;
      try (right; right; do 3 eexists; simpl; eauto; fail).
    destruct Hf as [-> Hf]. destruct n as [| n']; [contradiction |].
    right. destruct (train_done sh) eqn:Htd.
    + right. do 3 eexists. simpl. rewrite Htd. eauto.
    + left. auto.
  - right; right. exists None, sh, (Ready (k (answer ev))). simpl. eauto.
Qed.

Lemma learner_can_step (inside : bool) (n : nat) (th : thread unit) (sh : shared) :
  thread_follows learner_class true inside n th ->
  (returned th /\ inside = false /\ n = O) \/
  (inside = false /\ n <> O /\ act_chosen sh = false) \/
  (exists lbl sh' th', tstep sh th lbl sh' th').
Proof.
  intro Hf.
  destruct th as [[r | e | X ev k] | X ev k]; simpl in Hf.
  - left. destruct Hf as [-> ->]. simpl. auto.
  - discriminate.
  - destruct ev; simpl in Hf; try contradiction;
      try (right; right; do 3 eexists; simpl; eauto; fail).
    destruct Hf as [-> Hf]. destruct n as [| n']; [contradiction |].
    right. destruct (act_chosen sh) eqn:Hac.
    + right. do 3 eexists. simpl. rewrite Hac. eauto.
    + left. auto.
  - right; right. exists None, sh, (Ready (k (answer ev))). simpl. eauto.
Qed.

(** No deadlock: under the strict invariant either both loops have
    returned or some thread can take a step. *)
Lemma handshake_inv_progress (rounds : nat) (s : gstate) :
  handshake_inv true rounds s ->
  (returned (g_actor s) /\ returned (g_learner s)) \/ exists s', gstep s s'.
Proof.
  intros (ph & na & Hsig & HA & HL & _).
  assert (Hact : (exists lbl sh' th', tstep (g_shared s) (g_actor s) lbl sh' th') ->
                 exists s', gstep s s').
  { intros (lbl & sh' & th' & Hs).
    exists {| g_shared := sh'; g_actor := th'; g_learner := g_learner s;
              g_hist := g_hist s ++ tag Actor lbl |}.
    left. exists lbl. simpl. auto. }
  assert (Hlrn : (exists lbl sh' th', tstep (g_shared s) (g_learner s) lbl sh' th') ->
                 exists s', gstep s s').
  { intros (lbl & sh' & th' & Hs).
    exists {| g_shared := sh'; g_actor := g_actor s; g_learner := th';
              g_hist := g_hist s ++ tag Learner lbl |}.
    right. exists lbl. simpl. auto. }
  destruct (@actor_can_step _ _ _ (g_shared s) HA)
    as [(Hra & Hia & Hna) | [(Hia & Hna & Htd) | Ha]];
  destruct (@learner_can_step _ _ _ (g_shared s) HL)
    as [(Hrl & Hil & Hnl) | [(Hil & Hnl & Hac) | Hl]];
  auto;
  destruct ph; simpl in *; destruct Hsig; try congruence; try discriminate.
Qed.

Lemma thread_succ_wf {R : Type} : well_founded (@thread_succ _ R).
Proof.
  assert (Hready : forall p : prog R, Acc thread_succ (Ready p)).
  { induction p as [r | e | X ev k IH]; constructor;
      intros th' (sh & lbl & sh' & Hs); simpl in Hs; try contradiction.
    assert (Hin : Acc thread_succ (InCall ev k)).
    { constructor. intros th'' (sh1 & lbl1 & sh1' & Hs1); simpl in Hs1.
      destruct Hs1 as (x & _ & -> & _). apply IH. }
    destruct (atomic ev).
    - destruct Hs as (x & _ & -> & _). apply IH.
    - destruct Hs as (_ & -> & _). exact Hin. }
  intros [p | X ev k]; [apply Hready |].
  constructor. intros th' (sh & lbl & sh' & Hs); simpl in Hs.
  destruct Hs as (x & _ & -> & _). apply Hready.
Qed.

(** No run of the two threads goes on for ever. *)
Lemma gstep_terminates : well_founded (fun s' s : gstate => gstep s s').
Proof.
  apply wf_incl with
    (R2 := fun s' s =>
             symprod _ _ thread_succ thread_succ
               (g_actor s', g_learner s') (g_actor s, g_learner s)).
  - intros s' s [(lbl & Hs & Hother & _) | (lbl & Hs & Hother & _)].
    + rewrite Hother. apply left_sym. do 3 eexists; exact Hs.
    + rewrite Hother. apply right_sym. do 3 eexists; exact Hs.
  - apply (wf_inverse_image gstate _ _ (fun s => (g_actor s, g_learner s))).
    apply wf_symprod; apply thread_succ_wf.
Qed.

(** Every state under the strict invariant can be run to the end of both
    loops. *)
Lemma handshake_inv_finishes (rounds : nat) (s : gstate) :
  handshake_inv true rounds s ->
  exists s', clos_refl_trans_n1 gstate gstep s s' /\
             returned (g_actor s') /\ returned (g_learner s').
Proof.
  induction (gstep_terminates s) as [s _ IH]. intro Hinv.
  destruct (@handshake_inv_progress _ _ Hinv) as [Hfin | (s1 & Hstep)].
  - exists s. split; [constructor | exact Hfin].
  - destruct (IH s1 Hstep) as (s' & Hrun & Hfin).
    { eapply handshake_inv_step; eassumption. }
    exists s'. split; [| exact Hfin].
    apply clos_rt_rtn1. apply rt_trans with s1.
    + now apply rt_step.
    + now apply clos_rtn1_rt.
Qed.

(** When both loops have returned, each has gone through all its rounds. *)
Lemma handshake_inv_final (strict : bool) (rounds : nat) (s : gstate) :
  handshake_inv strict rounds s ->
  returned (g_actor s) -> returned (g_learner s) ->
  begun Actor N_wait_train_done (g_hist s) = rounds /\
  begun Learner N_wait_act_chosen (g_hist s) = rounds.
Proof.
  intros (ph & na & Hsig & HA & HL & HcA & HcL) Hra Hrl.
  destruct (g_actor s) as [[[] | |] |]; try contradiction.
  destruct (g_learner s) as [[[] | |] |]; try contradiction.
  simpl in HA, HL. destruct HA as [Hia ->]. destruct HL as [Hil Hnl].
  rewrite Hnl in HcL. split; lia.
Qed.

End Liveness.

(** ** Orders and counts in a trace *)

Section TraceFacts.
Context {C : Collaborators}.

Lemma preceded_byb_sound (earlier later : evname -> bool) (tr : list entry) :
  preceded_byb earlier later false (map entry_name tr) = true ->
  preceded_by earlier later tr.
Proof.
  assert (Hgen : forall tr seen,
    preceded_byb earlier later seen (map entry_name tr) = true ->
    forall pre en post,
      tr = pre ++ en :: post -> later (entry_name en) = true ->
      seen = true \/ exists en', In en' pre /\ earlier (entry_name en') = true).
  { clear tr. induction tr as [| x tr IH]; intros seen Hb pre en post Heq Hl.
    - destruct pre; discriminate.
    - simpl in Hb. apply andb_prop in Hb as [Hhead Htail].
      destruct pre as [| y pre]; simpl in Heq; injection Heq as -> ->.
      + rewrite Hl in Hhead. simpl in Hhead. now left.
      + destruct (IH _ Htail pre en post eq_refl Hl) as [Hseen | (en' & Hin & He)].
        * apply orb_prop in Hseen as [-> | He]; [now left |].
          right. exists y. split; [now left | exact He].
        * right. exists en'. split; [now right | exact He]. }
  intros Hb pre en post Heq Hl.
  destruct (Hgen tr false Hb pre en post Heq Hl) as [Hf | H]; [discriminate | exact H].
Qed.

Lemma followed_byb_sound (earlier later : evname -> bool) (tr : list entry) :
  followed_byb earlier later (map entry_name tr) = true ->
  followed_by earlier later tr.
Proof.
  induction tr as [| x tr IH]; intros Hb pre en post Heq He.
  - destruct pre; discriminate.
  - simpl in Hb. apply andb_prop in Hb as [Hhead Htail].
    destruct pre as [| y pre]; simpl in Heq; injection Heq as -> ->.
    + rewrite He in Hhead. simpl in Hhead.
      apply existsb_exists in Hhead as (n & Hin & Hn).
      apply in_map_iff in Hin as (en' & <- & Hin).
      exists en'. split; assumption.
    + apply (IH Htail pre en post eq_refl He).
Qed.

Lemma occurrences_app (n : evname) (tr1 tr2 : list entry) :
  occurrences n (tr1 ++ tr2) = (occurrences n tr1 + occurrences n tr2)%nat.
Proof. unfold occurrences. now rewrite filter_app, length_app. Qed.

Lemma logged_steps_app (tr1 tr2 : list entry) :
  logged_steps (tr1 ++ tr2) = logged_steps tr1 ++ logged_steps tr2.
Proof.
  induction tr1 as [| [X ev x] tr1 IH]; [reflexivity |].
  simpl. destruct ev; simpl; now rewrite IH.
Qed.

Lemma trained_steps_app (tr1 tr2 : list entry) :
  trained_steps (tr1 ++ tr2) = trained_steps tr1 ++ trained_steps tr2.
Proof.
  induction tr1 as [| [X ev x] tr1 IH]; [reflexivity |].
  simpl. destruct ev; simpl; now rewrite IH.
Qed.

(** An entry that reads the flag is told from any other by what it read. *)
Lemma flag_read_call (b : bool) (en : entry) :
  en = Call get_learn_started b -> flag_read en = Some b.
Proof. now intros ->. Qed.

End TraceFacts.

(** The case analysis of a trace of [run_env_body]. *)
Ltac actor_cases h t last_obs w :=
  let idx := fresh "idx" in
  let choice := fresh "choice" in
  let a := fresh "a" in
  let obs := fresh "obs" in
  let r := fresh "r" in
  let d := fresh "d" in
  let info := fresh "info" in
  let reset_tr := fresh "reset_tr" in
  let next := fresh "next" in
  let w' := fresh "w'" in
  let Hexec := fresh "Hexec" in
  let Hchoice := fresh "Hchoice" in
  let Hend := fresh "Hend" in
  destruct (run_env_body_exec h t last_obs w)
    as (idx & choice & a & obs & r & d & info & reset_tr & next & w' &
        Hexec & Hchoice & Hend);
  rewrite Hexec; unfold trace_of, result_of; cbn [fst snd];
  unfold episode_end in Hend;
  destruct Hchoice as [a | eps u a Hlt | eps u s a Hlt];
  destruct d; [subst reset_tr | destruct Hend as [-> ->]
              | subst reset_tr | destruct Hend as [-> ->]
              | subst reset_tr | destruct Hend as [-> ->]].

(** The case analysis of a trace of [train_model_body]. *)
Ltac learner_cases cfg h t w :=
  let Hrun := fresh "Hrun" in
  let o := fresh "o" in
  let w' := fresh "w'" in
  let tr := fresh "tr" in
  pose proof (train_model_body_exec cfg h t w) as Hrun;
  unfold result_of, trace_of in *;
  destruct (exec h (train_model_body cfg t tt) w) as [[o w'] tr];
  cbn [fst snd] in *;
  destruct Hrun as [e tr Htp | e tr1 tr2 Htp Hsp | tr1 tr2 Htp Hsp];
  [ inversion Htp; subst
  | inversion Htp; subst; inversion Hsp; subst
  | inversion Htp; subst; inversion Hsp; subst ].

(** ** Runs of one thread inside the system *)

Section RunFacts.
Context {C : Collaborators}.

Lemma tstep_bind {A B : Type} (f : A -> prog B) (sh sh' : shared)
  (th th' : thread A) (lbl : option evname) :
  tstep sh th lbl sh' th' ->
  tstep sh (thread_bind th f) lbl sh' (thread_bind th' f).
Proof.
  destruct th as [[a | e | X ev k] | X ev k]; simpl; try contradiction.
  - destruct (atomic ev).
    + intros (x & Hs & -> & ->). exists x. auto.
    + intros (-> & -> & ->). auto.
  - intros (x & -> & -> & ->). exists x. auto.
Qed.

Lemma tsteps_bind {A B : Type} (f : A -> prog B) (sh sh' : shared)
  (th th' : thread A) (lbls : list evname) :
  tsteps sh th lbls sh' th' ->
  tsteps sh (thread_bind th f) lbls sh' (thread_bind th' f).
Proof.
  induction 1 as [| sh th lbl sh1 th1 lbls sh2 th2 Hstep _ IH].
  - constructor.
  - econstructor; [apply tstep_bind; exact Hstep | exact IH].
Qed.

(** What [solo] computes is a run of the thread. *)
Lemma solo_sound {R : Type} (answer : forall X : Type, agentE X -> X)
  (p : prog R) :
  forall sh r sh' lbls,
    solo answer p sh = Some (r, sh', lbls) ->
    tsteps sh (Ready p) lbls sh' (Ready (Ret r)).
Proof.
  induction p as [a | e | X ev k IH]; intros sh r sh' lbls Hsolo; simpl in Hsolo.
  - injection Hsolo as <- <- <-. constructor.
  - discriminate.
  - destruct (atomic ev) as [f |] eqn:Hat.
    + destruct (f sh) as [[x sh1] |] eqn:Hf; [| discriminate].
      destruct (solo answer (k x) sh1) as [[[r' sh2] lbls'] |] eqn:Hk;
        [| discriminate].
      injection Hsolo as <- <- <-.
      apply tsteps_cons with (lbl := Some (name_of ev)) (sh1 := sh1) (th1 := Ready (k x)).
      * simpl. rewrite Hat. exists x. auto.
      * now apply IH.
    + destruct (solo answer (k (answer X ev)) sh) as [[[r' sh2] lbls'] |] eqn:Hk;
        [| discriminate].
      injection Hsolo as <- <- <-.
      apply tsteps_cons with (lbl := Some (name_of ev)) (sh1 := sh) (th1 := InCall ev k).
      * simpl. rewrite Hat. auto.
      * apply tsteps_cons with (lbl := None) (sh1 := sh) (th1 := Ready (k (answer X ev))).
        -- simpl. exists (answer X ev). auto.
        -- now apply IH.
Qed.

Lemma tag_names (who : tid) (lbl : option evname) :
  tag who lbl = map (pair who) (names_of lbl).
Proof. destruct lbl; reflexivity. Qed.

(** A run of the actor is a run of the system, the learner standing still;
    and the other way round. *)
Lemma actor_run (sh sh' : shared) (tha tha' : thread unit) (lbls : list evname) :
  tsteps sh tha lbls sh' tha' ->
  forall thl hist,
    clos_refl_trans gstate gstep
      {| g_shared := sh; g_actor := tha; g_learner := thl; g_hist := hist |}
      {| g_shared := sh'; g_actor := tha'; g_learner := thl;
         g_hist := hist ++ map (pair Actor) lbls |}.
Proof.
  induction 1 as [| sh th lbl sh1 th1 lbls sh2 th2 Hstep _ IH]; intros thl hist.
  - simpl. rewrite app_nil_r. apply rt_refl.
  - apply rt_trans with
      {| g_shared := sh1; g_actor := th1; g_learner := thl;
         g_hist := hist ++ tag Actor lbl |}; [apply rt_step |].
    + left. exists lbl. simpl. split; [exact Hstep | split; reflexivity].
    + rewrite map_app, app_assoc, <- tag_names. apply IH.
Qed.

Lemma learner_run (sh sh' : shared) (thl thl' : thread unit) (lbls : list evname) :
  tsteps sh thl lbls sh' thl' ->
  forall tha hist,
    clos_refl_trans gstate gstep
      {| g_shared := sh; g_actor := tha; g_learner := thl; g_hist := hist |}
      {| g_shared := sh'; g_actor := tha; g_learner := thl';
         g_hist := hist ++ map (pair Learner) lbls |}.
Proof.
  induction 1 as [| sh th lbl sh1 th1 lbls sh2 th2 Hstep _ IH]; intros tha hist.
  - simpl. rewrite app_nil_r. apply rt_refl.
  - apply rt_trans with
      {| g_shared := sh1; g_actor := tha; g_learner := th1;
         g_hist := hist ++ tag Learner lbl |}; [apply rt_step |].
    + right. exists lbl. simpl. split; [exact Hstep | split; reflexivity].
    + rewrite map_app, app_assoc, <- tag_names. apply IH.
Qed.

Lemma begun_map_same (who : tid) (n : evname) (l : list evname) :
  begun who n (map (pair who) l) = count_name n l.
Proof.
  unfold begun, count_name. induction l as [| m l IH]; [reflexivity |].
  simpl. replace (tid_eqb who who) with true by (destruct who; reflexivity).
  simpl. destruct (evname_eqb m n); simpl; now rewrite IH.
Qed.

Lemma begun_map_other (who who' : tid) (n : evname) (l : list evname) :
  who <> who' -> begun who n (map (pair who') l) = O.
Proof.
  intro Hne. unfold begun. induction l as [| m l IH]; [reflexivity |].
  simpl. replace (tid_eqb who' who) with false
    by (destruct who, who'; try reflexivity; contradiction).
  exact IH.
Qed.

End RunFacts.

(** ** The rounds of the handshake *)

Section Rounds.
Context {C : Collaborators}.
Variable answer : forall X : Type, agentE X -> X.
Variable cfg : config.

(** With [train_done] set, the actor can run one whole iteration on its
    own; it leaves [act_chosen] set. *)
Lemma run_env_body_solo (t : Z) (last_obs : Obs) (sh : shared) :
  train_done sh = true ->
  exists next lbls,
    solo answer (run_env_body t last_obs) sh =
      Some (next, {| act_chosen := true; train_done := false;
                     learn_started := learn_started sh |}, lbls) /\
    count_name N_wait_train_done lbls = 1%nat /\
    count_name N_log_progress lbls = 1%nat.
Proof.
  intro Htd. unfold run_env_body, get_action, call. simpl. rewrite Htd. simpl.
  destruct (learn_started sh); simpl.
  - destruct (float_lt _ _); simpl.
    + destruct (answer (env_step _)) as [[[obs r] [|]] info]; simpl;
        do 2 eexists; repeat split.
    + destruct (answer (env_step _)) as [[[obs r] [|]] info]; simpl;
        do 2 eexists; repeat split.
  - destruct (answer (env_step _)) as [[[obs r] [|]] info]; simpl;
      do 2 eexists; repeat split.
Qed.

(** With [act_chosen] set and periods that are not zero, the learner can
    run one whole iteration on its own; it leaves [train_done] set. *)
Lemma train_model_body_solo (t : Z) (sh : shared) :
  periods_nonzero cfg ->
  act_chosen sh = true ->
  exists flag lbls,
    solo answer (train_model_body cfg t tt) sh =
      Some (tt, {| act_chosen := false; train_done := true;
                   learn_started := flag |}, lbls) /\
    count_name N_wait_act_chosen lbls = 1%nat /\
    count_name N_signal_train_done lbls = 1%nat.
Proof.
  intros (Htf & Hutf & Hsf) Hac.
  unfold train_model_body, train_now, train_branch, call, py_mod.
  destruct (Z.eqb_spec (train_freq cfg) 0) as [| _]; [contradiction |].
  destruct (Z.eqb_spec (update_target_freq cfg) 0) as [| _]; [contradiction |].
  destruct (Z.eqb_spec (save_freq cfg) 0) as [| _]; [contradiction |].
  destruct (start_train cfg <=? t); simpl.
  - destruct (t mod train_freq cfg =? 0); simpl; rewrite Hac; simpl.
    + destruct (t mod update_target_freq cfg =? 0); simpl;
        destruct (t mod save_freq cfg =? 0); simpl;
        do 2 eexists; repeat split.
    + destruct (t mod save_freq cfg =? 0); simpl; do 2 eexists; repeat split.
  - rewrite Hac; simpl.
    destruct (t mod save_freq cfg =? 0); simpl; do 2 eexists; repeat split.
Qed.

Hypothesis periods : periods_nonzero cfg.

(** One round: both loops go from the iterations [t :: ts] to [ts]. *)
Lemma one_round_run (t : Z) (ts : list Z) (last_obs : Obs) (flag : bool)
  (hist : list (tid * evname)) (i : nat) :
  at_round i hist ->
  exists next flag' hist',
    clos_refl_trans gstate gstep
      (round_start cfg (t :: ts) last_obs flag hist)
      (round_start cfg ts next flag' hist') /\
    at_round (S i) hist'.
Proof.
  intros ((Hlog & Hsig) & Hwa & Hwl).
  destruct (run_env_body_solo t last_obs
              {| act_chosen := false; train_done := true; learn_started := flag |}
              eq_refl) as (next & lblsA & HsoloA & HcA1 & HcA2).
  apply solo_sound in HsoloA.
  apply (tsteps_bind (fun o => for_each ts run_env_body o)) in HsoloA.
  apply (tsteps_bind (fun _ : Obs => Ret tt)) in HsoloA.
  destruct (train_model_body_solo t
              {| act_chosen := true; train_done := false; learn_started := flag |}
              periods eq_refl) as (flag' & lblsL & HsoloL & HcL1 & HcL2).
  apply solo_sound in HsoloL.
  apply (tsteps_bind (fun s => for_each ts (train_model_body cfg) s)) in HsoloL.
  exists next, flag', ((hist ++ map (pair Actor) lblsA) ++ map (pair Learner) lblsL).
  split.
  - eapply rt_trans.
    + apply (actor_run HsoloA).
    + apply (learner_run HsoloL).
  - unfold at_round, completed.
    rewrite !begun_app, !begun_map_same, !begun_map_other by discriminate.
    rewrite HcA1, HcA2, HcL1, HcL2. repeat split; lia.
Qed.

(** Several rounds in a row. *)
Lemma rounds_run (ts1 ts2 : list Z) :
  forall (last_obs : Obs) (flag : bool) (hist : list (tid * evname)) (i : nat),
    at_round i hist ->
    exists next flag' hist',
      clos_refl_trans gstate gstep
        (round_start cfg (ts1 ++ ts2) last_obs flag hist)
        (round_start cfg ts2 next flag' hist') /\
      at_round (i + length ts1) hist'.
Proof.
  induction ts1 as [| t ts1 IH]; intros last_obs flag hist i Hat.
  - exists last_obs, flag, hist. split; [apply rt_refl |].
    simpl. now rewrite Nat.add_0_r.
  - destruct (one_round_run t (ts1 ++ ts2) last_obs flag Hat)
      as (o1 & f1 & h1 & Hrun1 & Hat1).
    destruct (IH o1 f1 h1 (S i) Hat1) as (o2 & f2 & h2 & Hrun2 & Hat2).
    exists o2, f2, h2. split.
    + eapply rt_trans; eassumption.
    + simpl. now rewrite Nat.add_succ_r.
Qed.

(** The start: the actor resets the environment (line 97). *)
Lemma initial_run (flag : bool) :
  exists last_obs hist,
    clos_refl_trans gstate gstep (initial cfg flag)
      (round_start cfg (py_range (start_step cfg) (max_steps cfg + 1))
         last_obs flag hist) /\
    at_round 0 hist.
Proof.
  exists (answer env_reset), [(Actor, N_env_reset)]. split.
  - assert (Hrun : tsteps
        {| act_chosen := false; train_done := true; learn_started := flag |}
        (Ready (_run_env cfg))
        (names_of (Some N_env_reset) ++ names_of None ++ [])
        {| act_chosen := false; train_done := true; learn_started := flag |}
        (Ready (for_each (py_range (start_step cfg) (max_steps cfg + 1))
                  run_env_body (answer env_reset) ;; Ret tt))).
    { eapply tsteps_cons.
      - simpl. repeat split.
      - eapply tsteps_cons.
        + simpl. exists (answer env_reset). repeat split.
        + apply tsteps_nil. }
    exact (actor_run Hrun (Ready (_train_model cfg)) []).
  - repeat split.
Qed.

(** While the learner is inside [replay_buf.sample] of a step that trains,
    the actor can be inside [store_frame], and later inside
    [exploration.value], of the same step. *)
Lemma overlap_run (t : Z) (ts : list Z) (last_obs : Obs) (flag : bool)
  (hist : list (tid * evname)) (i : nat) :
  trains_at cfg t = true ->
  at_round i hist ->
  exists s1 s2,
    clos_refl_trans gstate gstep (round_start cfg (t :: ts) last_obs flag hist) s1 /\
    clos_refl_trans gstate gstep s1 s2 /\
    in_call (evname_eqb N_replay_buf_sample) (g_learner s1) = true /\
    in_call (evname_eqb N_store_frame) (g_actor s1) = true /\
    completed i (g_hist s1) /\
    in_call (evname_eqb N_replay_buf_sample) (g_learner s2) = true /\
    in_call (evname_eqb N_exploration_value) (g_actor s2) = true /\
    completed i (g_hist s2).
Proof.
  intros Htrain ((Hlog & Hsig) & _).
  unfold trains_at in Htrain. apply andb_prop in Htrain as [Hle Hmod].
  set (sh0 := {| act_chosen := false; train_done := true; learn_started := flag |}).
  set (sh1 := {| act_chosen := false; train_done := true; learn_started := true |}).
  set (sh2 := {| act_chosen := false; train_done := false; learn_started := true |}).
  assert (HL : exists thl,
    tsteps sh0 (Ready (for_each (t :: ts) (train_model_body cfg) tt))
      (names_of (Some N_set_learn_started) ++
       names_of (Some N_replay_buf_sample) ++ []) sh1 thl /\
    in_call (evname_eqb N_replay_buf_sample) thl = true).
  { simpl for_each. unfold train_model_body, train_now. rewrite Hle.
    destruct (py_mod t (train_freq cfg)) as [e | m]; [discriminate |].
    simpl. rewrite Hmod. simpl.
    eexists. split.
    - eapply tsteps_cons with (lbl := Some N_set_learn_started).
      + simpl. exists tt. repeat split.
      + eapply tsteps_cons with (lbl := Some N_replay_buf_sample).
        * simpl. repeat split.
        * apply tsteps_nil.
    - reflexivity. }
  destruct HL as (thl & HrunL & HinL).
  assert (HA1 : exists tha,
    tsteps sh1 (Ready (for_each (t :: ts) run_env_body last_obs ;; Ret tt))
      (names_of (Some N_wait_train_done) ++
       names_of (Some N_store_frame) ++ []) sh2 tha /\
    in_call (evname_eqb N_store_frame) tha = true /\
    exists tha',
      tsteps sh2 tha
        (names_of None ++ names_of (Some N_get_learn_started) ++
         names_of (Some N_exploration_value) ++ []) sh2 tha' /\
      in_call (evname_eqb N_exploration_value) tha' = true).
  { simpl for_each. unfold run_env_body, get_action.
    eexists. split; [| split; [| eexists; split]].
    - eapply tsteps_cons with (lbl := Some N_wait_train_done).
      + simpl. exists tt. repeat split.
      + eapply tsteps_cons with (lbl := Some N_store_frame).
        * simpl. repeat split.
        * apply tsteps_nil.
    - reflexivity.
    - eapply tsteps_cons with (lbl := None).
      + simpl. exists (answer (store_frame last_obs)). repeat split.
      + eapply tsteps_cons with (lbl := Some N_get_learn_started).
        * simpl. exists true. repeat split.
        * eapply tsteps_cons with (lbl := Some N_exploration_value).
          -- simpl. repeat split.
          -- apply tsteps_nil.
    - reflexivity. }
  destruct HA1 as (tha & HrunA & HinA & tha' & HrunA' & HinA').
  eexists. eexists.
  split; [| split].
  - eapply rt_trans.
    + apply (learner_run HrunL).
    + apply (actor_run HrunA).
  - apply (actor_run HrunA').
  - cbn [g_learner g_actor g_hist]. unfold completed.
    rewrite !begun_app, !begun_map_same, !begun_map_other by discriminate.
    cbn. rewrite Hlog, Hsig.
    repeat split; auto; lia.
Qed.

(** In a step that trains, the learner gets inside the training step of
    the session once the actor has signalled. *)
Lemma training_run (t : Z) (ts : list Z) (last_obs : Obs) (flag : bool)
  (hist : list (tid * evname)) :
  trains_at cfg t = true ->
  exists s,
    clos_refl_trans gstate gstep (round_start cfg (t :: ts) last_obs flag hist) s /\
    in_call is_optimization (g_learner s) = true.
Proof.
  intro Htrain.
  unfold trains_at in Htrain. apply andb_prop in Htrain as [Hle Hmod].
  set (sh0 := {| act_chosen := false; train_done := true; learn_started := flag |}).
  destruct (run_env_body_solo t last_obs sh0 eq_refl)
    as (next & lblsA & HsoloA & _).
  apply solo_sound in HsoloA.
  apply (tsteps_bind (fun o => for_each ts run_env_body o)) in HsoloA.
  apply (tsteps_bind (fun _ : Obs => Ret tt)) in HsoloA.
  cbn [learn_started sh0] in HsoloA.
  assert (HL : exists thl sh' lbls,
    tsteps {| act_chosen := true; train_done := false; learn_started := flag |}
      (Ready (for_each (t :: ts) (train_model_body cfg) tt)) lbls sh' thl /\
    in_call is_optimization thl = true).
  { cbn [for_each]. unfold train_model_body, train_now. rewrite Hle.
    destruct (py_mod t (train_freq cfg)) as [e | m]; [discriminate |].
    simpl. rewrite Hmod. simpl.
    do 3 eexists. split.
    - eapply tsteps_cons with (lbl := Some N_set_learn_started);
        [simpl; exists tt; repeat split |].
      eapply tsteps_cons with (lbl := Some N_replay_buf_sample);
        [simpl; repeat split |].
      eapply tsteps_cons with (lbl := None);
        [simpl; exists (answer (replay_buf_sample (batch_size cfg)));
         repeat split |].
      eapply tsteps_cons with (lbl := Some N_lr_value);
        [simpl; repeat split |].
      eapply tsteps_cons with (lbl := None);
        [simpl; exists (answer (lr_value t)); repeat split |].
      eapply tsteps_cons with (lbl := Some N_exploration_value);
        [simpl; repeat split |].
      eapply tsteps_cons with (lbl := None);
        [simpl; exists (answer (exploration_value t)); repeat split |].
      eapply tsteps_cons with (lbl := Some N_get_mean_ep_rew);
        [simpl; repeat split |].
      eapply tsteps_cons with (lbl := None);
        [simpl; exists (answer get_mean_ep_rew); repeat split |].
      eapply tsteps_cons with (lbl := Some N_get_best_mean_ep_rew);
        [simpl; repeat split |].
      eapply tsteps_cons with (lbl := None);
        [simpl; exists (answer get_best_mean_ep_rew); repeat split |].
      eapply tsteps_cons with (lbl := Some N_wait_act_chosen);
        [simpl; exists tt; repeat split |].
      eapply tsteps_cons with (lbl := Some N_sess_run_train);
        [simpl; repeat split |].
      apply tsteps_nil.
    - reflexivity. }
  destruct HL as (thl & sh' & lbls & HrunL & HinL).
  eexists. split.
  - eapply rt_trans.
    + apply (actor_run HsoloA).
    + apply (learner_run HrunL).
  - exact HinL.
Qed.

(** Once [learn_started] is set, and when the draw is not below epsilon,
    the actor gets inside the network's [control_action]. *)
Lemma inference_run (t : Z) (ts : list Z) (last_obs : Obs)
  (hist : list (tid * evname)) :
  float_lt (answer random_uniform) (answer (exploration_value t)) = false ->
  exists s,
    clos_refl_trans gstate gstep (round_start cfg (t :: ts) last_obs true hist) s /\
    in_call is_inference (g_actor s) = true.
Proof.
  intro Hlt.
  assert (HA : exists tha sh' lbls,
    tsteps {| act_chosen := false; train_done := true; learn_started := true |}
      (Ready (for_each (t :: ts) run_env_body last_obs ;; Ret tt)) lbls sh' tha /\
    in_call is_inference tha = true).
  { cbn [for_each]. unfold run_env_body, get_action.
    do 3 eexists. split.
    - eapply tsteps_cons with (lbl := Some N_wait_train_done);
        [simpl; exists tt; repeat split |].
      eapply tsteps_cons with (lbl := Some N_store_frame);
        [simpl; repeat split |].
      eapply tsteps_cons with (lbl := None);
        [simpl; exists (answer (store_frame last_obs)); repeat split |].
      eapply tsteps_cons with (lbl := Some N_get_learn_started);
        [simpl; exists true; repeat split |].
      eapply tsteps_cons with (lbl := Some N_exploration_value);
        [simpl; repeat split |].
      eapply tsteps_cons with (lbl := None);
        [simpl; exists (answer (exploration_value t)); repeat split |].
      eapply tsteps_cons with (lbl := Some N_random_uniform);
        [simpl; repeat split |].
      eapply tsteps_cons with (lbl := None);
        [simpl; exists (answer random_uniform); repeat split |].
      rewrite Hlt.
      eapply tsteps_cons with (lbl := Some N_encode_recent_obs);
        [simpl; repeat split |].
      eapply tsteps_cons with (lbl := None);
        [simpl; exists (answer encode_recent_obs); repeat split |].
      eapply tsteps_cons with (lbl := Some N_control_action);
        [simpl; repeat split |].
      apply tsteps_nil.
    - reflexivity. }
  destruct HA as (tha & sh' & lbls & HrunA & HinA).
  eexists. split.
  - apply (actor_run HrunA).
  - exact HinA.
Qed.

End Rounds.

(** Deciding the tests of lines 149, 175 and 181 from what is known. *)
Ltac decide_tests :=
  unfold trains_at, on_beat, py_mod;
  repeat match goal with
  | |- context [?a <=? ?b] => destruct (Z.leb_spec a b); try (exfalso; lia)
  | |- context [?a =? ?b] =>
      destruct (Z.eqb_spec a b); try (exfalso; congruence)
  end;
  cbn [andb orb negb].

(** ** The two loops, run to their end *)

Section LoopFacts.
Context {C : Collaborators}.
Variable cfg : config.

Lemma py_range_length (start stop : Z) :
  length (py_range start stop) = Z.to_nat (stop - start).
Proof. unfold py_range. now rewrite length_map, length_seq. Qed.

(** The acting loop returns and logs the steps it is given, in order. *)
Lemma run_env_loop_exec {W : Type} (h : handler W) (ts : list Z) :
  forall (last_obs : Obs) (w : W),
  exists next w' tr,
    exec h (for_each ts run_env_body last_obs) w = (Returned next, w', tr) /\
    logged_steps tr = ts /\
    occurrences N_wait_train_done tr = length ts.
Proof.
  induction ts as [| t ts IH]; intros last_obs w.
  - do 3 eexists. simpl. repeat split.
  - cbn [for_each]. rewrite exec_bind.
    destruct (run_env_body_exec h t last_obs w)
      as (idx & choice & a & obs & r & d & info & reset_tr & next & w1 &
          Hexec & Hchoice & Hend).
    rewrite Hexec.
    destruct (IH next w1) as (next' & w2 & tr2 & -> & Hlog & Hocc).
    do 3 eexists. split; [reflexivity |].
    rewrite logged_steps_app, occurrences_app, Hlog, Hocc.
    unfold episode_end in Hend.
    destruct Hchoice; destruct d;
      [subst reset_tr | destruct Hend as [-> ->]
      | subst reset_tr | destruct Hend as [-> ->]
      | subst reset_tr | destruct Hend as [-> ->]];
      split; reflexivity.
Qed.

Lemma run_env_exec {W : Type} (h : handler W) (w : W) :
  exists w' tr,
    exec h (_run_env cfg) w = (Returned tt, w', tr) /\
    logged_steps tr = py_range (start_step cfg) (max_steps cfg + 1) /\
    occurrences N_wait_train_done tr =
      length (py_range (start_step cfg) (max_steps cfg + 1)).
Proof.
  unfold _run_env. rewrite exec_bind, exec_call.
  destruct (h Obs env_reset w) as [o w1]; cbn [fst snd].
  rewrite exec_bind.
  destruct (run_env_loop_exec h (py_range (start_step cfg) (max_steps cfg + 1)) o w1)
    as (next & w2 & tr & -> & Hlog & Hocc).
  cbn [exec]. do 2 eexists. split; [reflexivity |].
  rewrite app_nil_r. cbn [app logged_steps]. split; [exact Hlog |].
  unfold occurrences in *. simpl. exact Hocc.
Qed.

(** With periods that are not zero, one iteration of the learning loop
    returns, waits once, signals once and asks for the learning rate when it
    trains. *)
Lemma train_model_body_returns {W : Type} (h : handler W) (t : Z) (w : W) :
  periods_nonzero cfg ->
  exists w' tr,
    exec h (train_model_body cfg t tt) w = (Returned tt, w', tr) /\
    occurrences N_wait_act_chosen tr = 1%nat /\
    occurrences N_signal_train_done tr = 1%nat /\
    trained_steps tr = if trains_at cfg t then [t] else [].
Proof.
  intros (Htf & Hutf & Hsf).
  pose proof (train_model_body_exec cfg h t w) as Hrun.
  unfold result_of, trace_of in Hrun.
  destruct (exec h (train_model_body cfg t tt) w) as [[o w'] tr].
  cbn [fst snd] in Hrun.
  exists w', tr.
  destruct Hrun as [e tr Htp | e tr1 tr2 Htp Hsp | tr1 tr2 Htp Hsp];
    [ inversion Htp; subst
    | inversion Htp; subst; inversion Hsp; subst
    | inversion Htp; subst; inversion Hsp; subst ];
    try contradiction;
    (split; [reflexivity |]); decide_tests; repeat split.
Qed.

(** With periods that are not zero the learning loop returns, after one
    wait and one signal per step, and it trains at the steps of its range
    where line 149 holds. *)
Lemma train_model_loop_exec {W : Type} (h : handler W) (ts : list Z) :
  periods_nonzero cfg ->
  forall w : W,
  exists w' tr,
    exec h (for_each ts (train_model_body cfg) tt) w = (Returned tt, w', tr) /\
    occurrences N_wait_act_chosen tr = length ts /\
    occurrences N_signal_train_done tr = length ts /\
    trained_steps tr = filter (trains_at cfg) ts.
Proof.
  intro Hper. induction ts as [| t ts IH]; intro w.
  - do 2 eexists. simpl. repeat split.
  - cbn [for_each]. rewrite exec_bind.
    destruct (train_model_body_returns h t w Hper)
      as (w1 & tr1 & -> & Hw & Hs & Ht).
    destruct (IH w1) as (w2 & tr2 & -> & Hw2 & Hs2 & Ht2).
    do 2 eexists. split; [reflexivity |].
    rewrite !occurrences_app, trained_steps_app, Hw, Hs, Ht, Hw2, Hs2, Ht2.
    simpl. destruct (trains_at cfg t); repeat split.
Qed.

End LoopFacts.

(** * The claims *)

Section Claims.
Context {C : Collaborators}.

(** C1. In every iteration the actor's inference call is followed by its
    signal on [act_chosen] (of which there is exactly one), and every
    optimization call of the learner (the training step and the refresh of
    the target network) is preceded by its wait on [act_chosen] (exactly one
    when the iteration returns).  Hence, in every state the two threads can
    reach from the start of the handshake, the actor is not inside an
    inference call while the learner is inside an optimization call. *)
Theorem inference_and_optimization_exclusive (cfg : config) :
  (forall (W : Type) (h : handler W) (t : Z) (last_obs : Obs) (w : W),
     let tr := trace_of (exec h (run_env_body t last_obs) w) in
     followed_by is_inference (evname_eqb N_signal_act_chosen) tr /\
     occurrences N_signal_act_chosen tr = 1%nat) /\
  (forall (W : Type) (h : handler W) (t : Z) (w : W),
     let r := exec h (train_model_body cfg t tt) w in
     preceded_by (evname_eqb N_wait_act_chosen) is_optimization (trace_of r) /\
     (result_of r = Returned tt ->
      occurrences N_wait_act_chosen (trace_of r) = 1%nat)) /\
  (forall (flag : bool) (s : gstate),
     reachable cfg flag s ->
     in_call is_inference (g_actor s) && in_call is_optimization (g_learner s)
     = false).
Proof.
  split; [| split].
  - intros W h t last_obs w tr; subst tr.
    actor_cases h t last_obs w;
      (split; [apply followed_byb_sound; reflexivity | reflexivity]).
  - intros W h t w r; subst r.
    learner_cases cfg h t w;
      (split; [apply preceded_byb_sound; reflexivity
              | try reflexivity; intro; discriminate]).
  - intros flag s Hreach.
    apply handshake_inv_exclusive with (strict := false)
      (rounds := length (py_range (start_step cfg) (max_steps cfg + 1))).
    apply handshake_inv_reachable with (flag := flag); [discriminate | exact Hreach].
Qed.

(** C2. Every iteration of the acting loop returns, and makes its calls in
    this order: the wait on [train_done], [store_frame] of the current
    observation, the choice of the action, the signal on [act_chosen], the
    step of the environment with the chosen action, [store_effect] on the
    index [store_frame] returned, the reset of the environment if the
    episode is done, and (last) the progress log. *)
Theorem run_env_body_order (W : Type) (h : handler W) (t : Z) (last_obs : Obs)
  (w : W) :
  exists idx choice a obs r d info reset_tr next,
    trace_of (exec h (run_env_body t last_obs) w) =
      [Call wait_train_done tt; Call (store_frame last_obs) idx] ++ choice ++
      [Call signal_act_chosen tt; Call (env_step a) (obs, r, d, info);
       Call (store_effect idx a r d) tt] ++ reset_tr ++
      [Call (log_progress t) tt] /\
    result_of (exec h (run_env_body t last_obs) w) = Returned next /\
    action_choice t choice a /\
    episode_end d obs reset_tr next.
Proof.
  destruct (run_env_body_exec h t last_obs w)
    as (idx & choice & a & obs & r & d & info & reset_tr & next & w' &
        Hexec & Hchoice & Hend).
  exists idx, choice, a, obs, r, d, info, reset_tr, next.
  rewrite Hexec. repeat split; assumption.
Qed.

(** C3. In an iteration of the acting loop that reads [learn_started] as
    false, the action given to the environment is the one
    [action_space.sample()] returned; the network is not asked for an action,
    the recent observations are not encoded, and neither epsilon nor a
    random number is drawn. *)
Theorem random_action_before_learning (W : Type) (h : handler W) (t : Z)
  (last_obs : Obs) (w : W) :
  let tr := trace_of (exec h (run_env_body t last_obs) w) in
  In (Call get_learn_started false) tr ->
  (exists a obs r d info,
     In (Call action_space_sample a) tr /\
     In (Call (env_step a) (obs, r, d, info)) tr) /\
  occurrences N_action_space_sample tr = 1%nat /\
  occurrences N_control_action tr = O /\
  occurrences N_encode_recent_obs tr = O /\
  occurrences N_exploration_value tr = O /\
  occurrences N_random_uniform tr = O.
Proof.
  intros tr; subst tr.
  actor_cases h t last_obs w; intro Hin;
    try (exfalso; simpl in Hin;
         repeat (destruct Hin as [Hin | Hin];
                 [apply flag_read_call in Hin; simpl in Hin; discriminate |]);
         exact Hin);
    (split; [| repeat split]);
    exists a, obs, r; eexists; exists info; simpl; split; auto 10.
Qed.

(** C7. In an iteration of the acting loop that reads [learn_started] as
    true, epsilon is [exploration.value(t)] and one number is drawn; when
    the draw is below epsilon the action given to the environment is the one
    [action_space.sample()] returned and the network is not asked; otherwise
    it is the one [control_action] returned on the state
    [encode_recent_obs] returned, and no action is sampled. *)
Theorem epsilon_greedy_once_learning_started (W : Type) (h : handler W) (t : Z)
  (last_obs : Obs) (w : W) :
  let tr := trace_of (exec h (run_env_body t last_obs) w) in
  In (Call get_learn_started true) tr ->
  exists eps u a,
    In (Call (exploration_value t) eps) tr /\
    In (Call random_uniform u) tr /\
    occurrences N_exploration_value tr = 1%nat /\
    occurrences N_random_uniform tr = 1%nat /\
    (exists obs r d info, In (Call (env_step a) (obs, r, d, info)) tr) /\
    if float_lt u eps then
      In (Call action_space_sample a) tr /\
      occurrences N_action_space_sample tr = 1%nat /\
      occurrences N_control_action tr = O /\
      occurrences N_encode_recent_obs tr = O
    else
      (exists s, In (Call encode_recent_obs s) tr /\
                 In (Call (control_action s) a) tr) /\
      occurrences N_control_action tr = 1%nat /\
      occurrences N_encode_recent_obs tr = 1%nat /\
      occurrences N_action_space_sample tr = O.
Proof.
  intros tr; subst tr.
  actor_cases h t last_obs w; intro Hin;
    try (exfalso; simpl in Hin;
         repeat (destruct Hin as [Hin | Hin];
                 [apply flag_read_call in Hin; simpl in Hin; discriminate |]);
         exact Hin);
    exists eps, u, a; rewrite Hlt;
    (repeat split; simpl; auto 10;
     try (exists obs, r; eexists; exists info; simpl; auto 10);
     try (exists s; simpl; auto 10)).
Qed.

(** C6. In every iteration of the learning loop the network is trained
    exactly when line 149 holds, and its target is refreshed exactly when,
    besides, [t % update_target_freq == 0]: once in that case and not at all
    otherwise, in particular not when the iteration does not train. *)
Theorem target_refresh_gating (cfg : config) (W : Type) (h : handler W)
  (t : Z) (w : W) :
  let tr := trace_of (exec h (train_model_body cfg t tt) w) in
  occurrences N_sess_run_train tr = (if trains_at cfg t then 1 else 0)%nat /\
  occurrences N_sess_run_update_target tr =
    (if trains_at cfg t && on_beat t (update_target_freq cfg) then 1 else 0)%nat.
Proof.
  intros tr; subst tr.
  learner_cases cfg h t w; decide_tests; split; reflexivity.
Qed.

(** Checkpoints.  Every iteration of the learning loop that does not
    raise (no remainder of lines 149, 175 and 181 is taken with a zero
    divisor) returns, and its trace ends with the checkpoint request,
    present exactly when [t % save_freq == 0], followed by the signal on
    [train_done]; before them there is no checkpoint request and no such
    signal, whether the iteration trained or not. *)
Lemma checkpoint_gating (cfg : config) (W : Type) (h : handler W) (t : Z)
  (w : W) :
  raises_at cfg t = false ->
  let r := exec h (train_model_body cfg t tt) w in
  result_of r = Returned tt /\
  exists tr1,
    trace_of r =
      tr1 ++ (if on_beat t (save_freq cfg) then [Call save tt] else []) ++
      [Call signal_train_done tt] /\
    occurrences N_save tr1 = O /\
    occurrences N_signal_train_done tr1 = O /\
    occurrences N_sess_run_train tr1 = (if trains_at cfg t then 1 else 0)%nat.
Proof.
  intros Hr r; subst r. revert Hr. unfold raises_at.
  learner_cases cfg h t w; decide_tests; intro Hr; try discriminate;
    (split; [reflexivity |]); eexists;
    (split; [reflexivity | repeat split; reflexivity]).
Qed.

(** C10. [reset] returns [None] at once: whatever the collaborators and
    the state of the world (the agent's own attributes included), it calls
    nothing and leaves the world as it is; as a thread it has no step to
    take, and the signals and [learn_started] stay as they are. *)
Theorem reset_is_a_no_op :
  (forall (W : Type) (h : handler W) (w : W),
     exec h reset w = (Returned tt, w, [])) /\
  (forall (answer : forall X : Type, agentE X -> X) (sh : shared),
     solo answer reset sh = Some (tt, sh, [])) /\
  (forall (sh sh' : shared) (lbl : option evname) (th' : thread unit),
     ~ tstep sh (Ready reset) lbl sh' th').
Proof.
  split; [| split].
  - intros W h w. reflexivity.
  - intros answer sh. reflexivity.
  - intros sh sh' lbl th' Hstep. exact Hstep.
Qed.

End Claims.

Section ConstructorClaim.
Context {C : Collaborators}.
Variables OptimizerConf Schedule UserKwargs : Type.

(** C4. Construction fails whenever [update_target_freq] is not an integer
    multiple of [train_freq] (by the assertion of line 39 when it computes a
    remainder that is not zero), and whenever the capacity of the buffer is
    smaller than the history length.  For the configurations of the spec
    (a [Box] of observations, a [Discrete] set of actions), when
    [update_target_freq % train_freq] is zero, as for 20000 and 4, and the
    buffer holds the history, construction succeeds, and the agent keeps
    the arguments it was given. *)
Theorem constructor_checks (base : base_agent) (kw : UserKwargs)
  (oc : OptimizerConf) (ex : Schedule) (utf ms hl : Z) :
  let r := __init__ base kw oc ex utf ms hl in
  ((forall k : Z, utf <> k * base_train_freq base) -> exists e, r = inl e) /\
  (forall m : Z,
     py_mod utf (base_train_freq base) = inr m -> m <> 0 ->
     r = inl AssertionError) /\
  (ms < hl -> exists e, r = inl e) /\
  (is_Box (env_observation_space base) = true ->
   is_Discrete (env_action_space base) = true ->
   py_mod utf (base_train_freq base) = inr 0 ->
   hl <= ms ->
   exists a,
     r = inr a /\
     agent_base a = base /\
     agent_update_target_freq a = utf /\
     buf_size (agent_replay_buf a) = ms /\
     buf_obs_len (agent_replay_buf a) = hl /\
     agent_learn_rate_ph a = None /\
     agent_epsilon_ph a = None).
Proof.
  intro r; subst r. unfold __init__, ReplayBuffer, py_mod, py_assert, and_then.
  assert (Hmul : utf mod base_train_freq base = 0 ->
                 ~ forall k : Z, utf <> k * base_train_freq base).
  { intros Hm Hk. apply (Hk (utf / base_train_freq base)).
    rewrite Z.mul_comm. apply Z.div_exact; [| exact Hm].
    intro Hz. apply (Hk 0). rewrite Hz in Hm. rewrite Z.mod_0_r in Hm. lia. }
  destruct (is_Box (env_observation_space base));
    destruct (is_Discrete (env_action_space base));
    destruct (Z.eqb_spec (base_train_freq base) 0) as [Hz | Hnz];
    try destruct (Z.eqb_spec (utf mod base_train_freq base) 0) as [Hm | Hm];
    destruct (Z.ltb_spec ms hl) as [Hlt | Hge];
    cbn [Z.eqb];
    (split; [| split; [| split]]);
    first
      [ intros; eexists; reflexivity
      | intros _ _ [= Hm'] _; contradiction
      | intros m [= <-] Hne; first [reflexivity | contradiction]
      | intros; discriminate
      | intros; exfalso; lia
      | intro Hk; exfalso; exact (Hmul Hm Hk)
      | intros; eexists; repeat split; reflexivity ].
Qed.

End ConstructorClaim.

(** Outside the configurations of the spec: an action space that is not
    [Discrete] is refused by the assertion of line 38, whatever the two
    periods. *)
Example constructor_rejects_continuous_actions :
  20000 mod 4 = 0 /\
  4 <= 1000000 /\
  @__init__ small_world unit unit unit
    (small_base (Box (shape_seq [1])) 4) tt tt tt 20000 1000000 4
  = inl AssertionError.
Proof. repeat split; try reflexivity; lia. Qed.

(** The scenario of the spec: 20000 and 4 are accepted, 20001 and 4 are
    not. *)
Example constructor_20000_4 :
  exists a,
    @__init__ small_world unit unit unit
      (small_base (Discrete 6) 4) tt tt tt 20000 1000000 4 = inr a /\
    update_target_freq (config_of a) = 20000 /\
    train_freq (config_of a) = 4.
Proof. eexists. repeat split. Qed.

Example constructor_20001_4 :
  @__init__ small_world unit unit unit
    (small_base (Discrete 6) 4) tt tt tt 20001 1000000 4 = inl AssertionError.
Proof. reflexivity. Qed.

(** C4 at 20000 and 4. *)
Lemma constructor_checks_witness :
  py_mod 20000 4 = inr 0 /\
  4 <= 1000000 /\
  exists a,
    @__init__ small_world unit unit unit
      (small_base (Discrete 6) 4) tt tt tt 20000 1000000 4 = inr a /\
    agent_update_target_freq a = 20000.
Proof.
  split; [reflexivity |]. split; [lia |].
  destruct (proj2 (proj2 (proj2
              (@constructor_checks small_world unit unit unit
                 (small_base (Discrete 6) 4) tt tt tt 20000 1000000 4)))
              eq_refl eq_refl eq_refl ltac:(lia))
    as (a & Ha & _ & Hutf & _).
  exists a. split; [exact Ha | exact Hutf].
Defined.

Section LoopClaims.
Context {C : Collaborators}.

(** C5. In every iteration of the learning loop that trains,
    [replay_buf.sample] is called once, and before the (one) wait on
    [act_chosen].  So the handshake does not keep it apart from the actor:
    with periods that are not zero, for every step [t] of the range at which
    the loop trains, the two threads can reach a state where the learner is
    inside [replay_buf.sample] while the actor is inside [store_frame], and
    one where the actor is inside [exploration.value] (the choice of the
    action), both loops having completed the same iterations (those before
    [t]). *)
Theorem sampling_before_wait (cfg : config)
  (answer : forall X : Type, agentE X -> X) :
  (forall (W : Type) (h : handler W) (t : Z) (w : W),
     trains_at cfg t = true ->
     let tr := trace_of (exec h (train_model_body cfg t tt) w) in
     preceded_by (evname_eqb N_replay_buf_sample)
       (evname_eqb N_wait_act_chosen) tr /\
     occurrences N_replay_buf_sample tr = 1%nat /\
     occurrences N_wait_act_chosen tr = 1%nat) /\
  (periods_nonzero cfg ->
   forall (flag : bool) (i : nat) (t : Z),
     nth_error (py_range (start_step cfg) (max_steps cfg + 1)) i = Some t ->
     trains_at cfg t = true ->
     exists s1 s2,
       reachable cfg flag s1 /\ reachable cfg flag s2 /\
       in_call (evname_eqb N_replay_buf_sample) (g_learner s1) = true /\
       in_call (evname_eqb N_store_frame) (g_actor s1) = true /\
       completed i (g_hist s1) /\
       in_call (evname_eqb N_replay_buf_sample) (g_learner s2) = true /\
       in_call (evname_eqb N_exploration_value) (g_actor s2) = true /\
       completed i (g_hist s2)).
Proof.
  split.
  - intros W h t w Htrain tr; subst tr. revert Htrain.
    learner_cases cfg h t w; decide_tests; intro Htrain; try discriminate;
      (split; [apply preceded_byb_sound; reflexivity | split; reflexivity]).
  - intros Hper flag i t Hnth Htrain.
    apply nth_error_split in Hnth as (ts1 & ts2 & Hsteps & Hlen).
    destruct (initial_run answer cfg flag) as (o0 & h0 & Hrun0 & Hat0).
    rewrite Hsteps in Hrun0.
    destruct (rounds_run answer Hper ts1 (t :: ts2) o0 flag Hat0)
      as (o1 & f1 & h1 & Hrun1 & Hat1).
    simpl in Hat1. rewrite Hlen in Hat1.
    destruct (@overlap_run _ answer cfg t ts2 o1 f1 h1 i Htrain Hat1)
      as (s1 & s2 & Hrun2 & Hrun3 & H1 & H2 & H3 & H4 & H5 & H6).
    exists s1, s2.
    assert (Hr1 : clos_refl_trans gstate gstep (initial cfg flag) s1).
    { eapply rt_trans; [exact Hrun0 |]. eapply rt_trans; eassumption. }
    split; [now apply clos_rt_rtn1 |].
    split; [apply clos_rt_rtn1; eapply rt_trans; eassumption |].
    exact (conj H1 (conj H2 (conj H3 (conj H4 (conj H5 H6))))).
Qed.

(** The rounds of the two loops.  For a horizon with
    [start_step <= max_steps + 1] and periods that are not zero: both loops
    iterate over [range(start_step, max_steps + 1)],
    which has [max_steps - start_step + 1] steps.  Run to its end against
    any collaborators, the acting loop returns after logging exactly these
    steps, and the learning loop returns after as many waits and signals,
    training at the steps of the range where line 149 holds.  Run as two
    threads, they never deadlock (some thread can step unless both loops
    have returned), no run goes on for ever, every reachable state can be
    run to the return of both loops, and when both have returned each has
    waited once per step of the range. *)
Lemma loops_run_the_same_rounds (cfg : config)
  (answer : forall X : Type, agentE X -> X) :
  start_step cfg <= max_steps cfg + 1 ->
  periods_nonzero cfg ->
  let steps := py_range (start_step cfg) (max_steps cfg + 1) in
  Z.of_nat (length steps) = max_steps cfg - start_step cfg + 1 /\
  (_run_env cfg =
     (last_obs <- call env_reset ;;
      for_each steps run_env_body last_obs ;; Ret tt) /\
   _train_model cfg = for_each steps (train_model_body cfg) tt) /\
  (forall (W : Type) (h : handler W) (w : W),
     exists w' tr,
       exec h (_run_env cfg) w = (Returned tt, w', tr) /\
       logged_steps tr = steps /\
       occurrences N_wait_train_done tr = length steps) /\
  (forall (W : Type) (h : handler W) (w : W),
     exists w' tr,
       exec h (_train_model cfg) w = (Returned tt, w', tr) /\
       occurrences N_wait_act_chosen tr = length steps /\
       occurrences N_signal_train_done tr = length steps /\
       trained_steps tr = filter (trains_at cfg) steps) /\
  (forall (flag : bool) (s : gstate),
     reachable cfg flag s ->
     ((returned (g_actor s) /\ returned (g_learner s)) \/
      exists s', gstep s s') /\
     (returned (g_actor s) -> returned (g_learner s) ->
      begun Actor N_wait_train_done (g_hist s) = length steps /\
      begun Learner N_wait_act_chosen (g_hist s) = length steps) /\
     (exists s', clos_refl_trans_n1 gstate gstep s s' /\
                 returned (g_actor s') /\ returned (g_learner s'))) /\
  well_founded (fun s' s : gstate => gstep s s').
Proof.
  intros Hle Hper steps.
  split; [| split; [| split; [| split; [| split]]]].
  - subst steps. rewrite py_range_length. lia.
  - split; reflexivity.
  - intros W h w. apply run_env_exec.
  - intros W h w. unfold _train_model. now apply train_model_loop_exec.
  - intros flag s Hreach.
    assert (Hinv : handshake_inv true (length steps) s).
    { apply handshake_inv_reachable with (flag := flag); [intros _; exact Hper | exact Hreach]. }
    split; [| split].
    + now apply (handshake_inv_progress answer Hinv).
    + now apply (handshake_inv_final Hinv).
    + now apply (handshake_inv_finishes answer Hinv).
  - apply gstep_terminates.
Qed.

End LoopClaims.

(** ** The claims at concrete inputs *)

(** C3 at step 1, with collaborators that read [learn_started] as false:
    the sampled action, 7, is the one run. *)
Lemma random_action_before_learning_witness :
  let tr := trace_of (exec (stateless (small_answer false 0 0))
                        (run_env_body 1 0) tt) in
  In (Call get_learn_started false) tr /\
  (exists a obs r d info,
     In (Call action_space_sample a) tr /\
     In (Call (env_step a) (obs, r, d, info)) tr) /\
  occurrences N_action_space_sample tr = 1%nat /\
  occurrences N_control_action tr = O /\
  occurrences N_encode_recent_obs tr = O /\
  occurrences N_exploration_value tr = O /\
  occurrences N_random_uniform tr = O.
Proof.
  assert (H : In (Call get_learn_started false)
                (trace_of (exec (stateless (small_answer false 0 0))
                             (run_env_body 1 0) tt))).
  { vm_compute. auto 10. }
  exact (conj H (@random_action_before_learning small_world unit
                   (stateless (small_answer false 0 0)) 1 0 tt H)).
Defined.

(** C7 at step 1, with [learn_started] read as true, a draw of 5 and an
    epsilon of 1: the draw is not below epsilon, the network is asked. *)
Lemma epsilon_greedy_once_learning_started_witness :
  let tr := trace_of (exec (stateless (small_answer true 5 1))
                        (run_env_body 1 0) tt) in
  In (Call get_learn_started true) tr /\
  exists eps u a,
    In (Call (exploration_value 1) eps) tr /\
    In (Call random_uniform u) tr /\
    occurrences N_exploration_value tr = 1%nat /\
    occurrences N_random_uniform tr = 1%nat /\
    (exists obs r d info, In (Call (env_step a) (obs, r, d, info)) tr) /\
    if float_lt u eps then
      In (Call action_space_sample a) tr /\
      occurrences N_action_space_sample tr = 1%nat /\
      occurrences N_control_action tr = O /\
      occurrences N_encode_recent_obs tr = O
    else
      (exists s, In (Call encode_recent_obs s) tr /\
                 In (Call (control_action s) a) tr) /\
      occurrences N_control_action tr = 1%nat /\
      occurrences N_encode_recent_obs tr = 1%nat /\
      occurrences N_action_space_sample tr = O.
Proof.
  assert (H : In (Call get_learn_started true)
                (trace_of (exec (stateless (small_answer true 5 1))
                             (run_env_body 1 0) tt))).
  { vm_compute. auto 10. }
  exact (conj H (@epsilon_greedy_once_learning_started small_world unit
                   (stateless (small_answer true 5 1)) 1 0 tt H)).
Defined.

Lemma small_config_periods : periods_nonzero small_config.
Proof. repeat split; discriminate. Defined.

(** [checkpoint_gating] at step 3 of the small configuration ([save_freq]
    is 3): the iteration does not train and asks for a checkpoint. *)
Lemma checkpoint_gating_witness :
  let r := exec (stateless (small_answer true 0 1))
             (train_model_body small_config 3 tt) tt in
  raises_at small_config 3 = false /\
  result_of r = Returned tt /\
  exists tr1,
    trace_of r =
      tr1 ++ (if on_beat 3 (save_freq small_config) then [Call save tt] else []) ++
      [Call signal_train_done tt] /\
    occurrences N_save tr1 = O /\
    occurrences N_signal_train_done tr1 = O /\
    occurrences N_sess_run_train tr1 =
      (if trains_at small_config 3 then 1 else 0)%nat.
Proof.
  exact (conj eq_refl
           (@checkpoint_gating small_world small_config unit
              (stateless (small_answer true 0 1)) 3 tt eq_refl)).
Defined.

(** C5 at step 2 of the small configuration, the second step of the range
    and the first that trains. *)
Lemma sampling_before_wait_witness :
  periods_nonzero small_config /\
  nth_error (py_range (start_step small_config) (max_steps small_config + 1)) 1
    = Some 2 /\
  trains_at small_config 2 = true /\
  exists s1 s2,
    reachable small_config false s1 /\ reachable small_config false s2 /\
    in_call (evname_eqb N_replay_buf_sample) (g_learner s1) = true /\
    in_call (evname_eqb N_store_frame) (g_actor s1) = true /\
    completed 1 (g_hist s1) /\
    in_call (evname_eqb N_replay_buf_sample) (g_learner s2) = true /\
    in_call (evname_eqb N_exploration_value) (g_actor s2) = true /\
    completed 1 (g_hist s2).
Proof.
  split; [exact small_config_periods |].
  split; [reflexivity |].
  split; [reflexivity |].
  exact (proj2 (@sampling_before_wait small_world small_config
                  (small_answer false 0 1))
           small_config_periods false 1%nat 2 eq_refl eq_refl).
Defined.

(** [loops_run_the_same_rounds] at the small configuration: four steps,
    1 to 4. *)
Lemma loops_run_the_same_rounds_witness :
  start_step small_config <= max_steps small_config + 1 /\
  periods_nonzero small_config /\
  Z.of_nat (length (py_range 1 5)) = 4 /\
  (exists w' tr,
     exec (stateless (small_answer false 0 1)) (_run_env small_config) tt
       = (Returned tt, w', tr) /\
     logged_steps tr = [1; 2; 3; 4] /\
     occurrences N_wait_train_done tr = 4%nat) /\
  (exists w' tr,
     exec (stateless (small_answer false 0 1)) (_train_model small_config) tt
       = (Returned tt, w', tr) /\
     occurrences N_wait_act_chosen tr = 4%nat /\
     occurrences N_signal_train_done tr = 4%nat /\
     trained_steps tr = [2; 4]) /\
  (exists s',
     reachable small_config false s' /\
     returned (g_actor s') /\ returned (g_learner s') /\
     begun Actor N_wait_train_done (g_hist s') = 4%nat /\
     begun Learner N_wait_act_chosen (g_hist s') = 4%nat).
Proof.
  assert (Hle : start_step small_config <= max_steps small_config + 1)
    by (vm_compute; discriminate).
  destruct (@loops_run_the_same_rounds small_world small_config
              (small_answer false 0 1) Hle small_config_periods)
    as (Hlen & _ & Hactor & Hlearner & Hthreads & _).
  split; [exact Hle |].
  split; [exact small_config_periods |].
  split; [exact Hlen |].
  split; [exact (Hactor unit (stateless (small_answer false 0 1)) tt) |].
  split; [exact (Hlearner unit (stateless (small_answer false 0 1)) tt) |].
  destruct (Hthreads false (initial small_config false) (rtn1_refl _ _ _))
    as (_ & _ & s' & Hrun & Hra & Hrl).
  destruct (Hthreads false s' Hrun) as (_ & Hfinal & _).
  exists s'. split; [exact Hrun |].
  split; [exact Hra |]. split; [exact Hrl |].
  exact (Hfinal Hra Hrl).
Defined.

(** C1 at the small configuration: a state is reached where the learner is
    inside the training step of step 2, and the actor is not inside the
    network there; and (with [learn_started] set from the start, a draw of
    5 and an epsilon of 1) a state where the actor is inside
    [control_action] of step 1, and the learner is not inside the session
    there. *)
Lemma inference_and_optimization_exclusive_witness :
  (exists s,
     reachable small_config false s /\
     in_call is_optimization (g_learner s) = true /\
     in_call is_inference (g_actor s) = false) /\
  (exists s,
     reachable small_config true s /\
     in_call is_inference (g_actor s) = true /\
     in_call is_optimization (g_learner s) = false).
Proof.
  split.
  - destruct (initial_run (small_answer false 0 1) small_config false)
      as (o0 & h0 & Hrun0 & Hat0).
    change (py_range (start_step small_config) (max_steps small_config + 1))
      with ([1] ++ [2; 3; 4]) in Hrun0.
    destruct (rounds_run (small_answer false 0 1) small_config_periods
                [1] [2; 3; 4] o0 false Hat0)
      as (o1 & f1 & h1 & Hrun1 & _).
    destruct (@training_run small_world (small_answer false 0 1) small_config
                2 [3; 4] o1 f1 h1 eq_refl)
      as (s & Hrun2 & Hin).
    assert (Hreach : reachable small_config false s).
    { apply clos_rt_rtn1. eapply rt_trans; [exact Hrun0 |].
      eapply rt_trans; [exact Hrun1 | exact Hrun2]. }
    exists s. split; [exact Hreach |]. split; [exact Hin |].
    pose proof (proj2 (proj2 (@inference_and_optimization_exclusive small_world
                                small_config)) false s Hreach) as Hex.
    rewrite Hin, andb_true_r in Hex. exact Hex.
  - destruct (initial_run (small_answer true 5 1) small_config true)
      as (o0 & h0 & Hrun0 & Hat0).
    change (py_range (start_step small_config) (max_steps small_config + 1))
      with (1 :: [2; 3; 4]) in Hrun0.
    destruct (@inference_run small_world (small_answer true 5 1) small_config
                1 [2; 3; 4] o0 h0 eq_refl)
      as (s & Hrun1 & Hin).
    assert (Hreach : reachable small_config true s).
    { apply clos_rt_rtn1. eapply rt_trans; [exact Hrun0 | exact Hrun1]. }
    exists s. split; [exact Hreach |]. split; [exact Hin |].
    pose proof (proj2 (proj2 (@inference_and_optimization_exclusive small_world
                                small_config)) true s Hreach) as Hex.
    rewrite Hin in Hex. exact Hex.
Defined.

(** * Further properties of the two loops *)

Section BufferFacts.
Context {C : Collaborators}.
Variable cfg : config.

Lemma stored_frames_app (tr1 tr2 : list entry) :
  stored_frames (tr1 ++ tr2) = stored_frames tr1 ++ stored_frames tr2.
Proof.
  induction tr1 as [| [X ev x] tr1 IH]; [reflexivity |].
  simpl. destruct ev; simpl; now rewrite IH.
Qed.

Lemma carried_obs_app (tr1 tr2 : list entry) :
  carried_obs (tr1 ++ tr2) = carried_obs tr1 ++ carried_obs tr2.
Proof.
  induction tr1 as [| [X ev x] tr1 IH]; [reflexivity |].
  simpl. destruct ev; simpl; try now rewrite IH.
  destruct x as [[[obs r] [|]] info]; simpl; now rewrite IH.
Qed.

Lemma protocol_to_app (Q : option Z -> option (Action * Reward * bool) -> Prop)
  (tr1 tr2 : list entry) :
  forall pending acted,
    protocol_to (fun p a => protocol_to Q p a tr2) pending acted tr1 ->
    protocol_to Q pending acted (tr1 ++ tr2).
Proof.
  induction tr1 as [| [X ev x] tr1 IH]; intros pending acted H; [exact H |].
  simpl in *. destruct ev; simpl in *; try (now apply IH).
  - destruct x as [[[obs r] d] info]. destruct H as (H1 & H2 & H3).
    repeat split; try assumption. now apply IH.
  - destruct H as [H1 H2]. split; [assumption |]. now apply IH.
  - destruct H as (H1 & H2 & H3). repeat split; try assumption. now apply IH.
Qed.

(** The acting loop, iteration after iteration: what it stores, what it
    carries over, and the protocol of the buffer. *)
Lemma run_env_loop_buffer {W : Type} (h : handler W) (ts : list Z) :
  forall (last_obs : Obs) (w : W),
  exists next w' tr,
    exec h (for_each ts run_env_body last_obs) w = (Returned next, w', tr) /\
    last_obs :: carried_obs tr = stored_frames tr ++ [next] /\
    buffer_protocol tr.
Proof.
  induction ts as [| t ts IH]; intros last_obs w.
  - do 3 eexists. simpl. repeat split.
  - cbn [for_each]. rewrite exec_bind.
    destruct (run_env_body_exec h t last_obs w)
      as (idx & choice & a & obs & r & d & info & reset_tr & next & w1 &
          Hexec & Hchoice & Hend).
    rewrite Hexec.
    destruct (IH next w1) as (next' & w2 & tr2 & -> & Hobs & Hproto).
    do 3 eexists. split; [reflexivity |].
    rewrite carried_obs_app, stored_frames_app.
    unfold episode_end in Hend.
    split.
    + destruct Hchoice; destruct d;
        [subst reset_tr | destruct Hend as [-> ->]
        | subst reset_tr | destruct Hend as [-> ->]
        | subst reset_tr | destruct Hend as [-> ->]];
        simpl; rewrite Hobs; reflexivity.
    + unfold buffer_protocol. apply protocol_to_app.
      destruct Hchoice; destruct d;
        [subst reset_tr | destruct Hend as [-> ->]
        | subst reset_tr | destruct Hend as [-> ->]
        | subst reset_tr | destruct Hend as [-> ->]];
        simpl; repeat split; try discriminate; exact Hproto.
Qed.

(** X1. Over a whole run of the acting loop, whatever the collaborators
    answer, the observations given to [store_frame] are the observations the
    environment handed over, in the same order and one iteration later: the
    first is the result of the initial reset, each next one is the
    observation of the preceding step or, when that step ended the episode,
    the result of the reset that followed; only the last one handed over is
    never stored. *)
Theorem stored_frames_follow_environment (W : Type) (h : handler W) (w : W) :
  exists last,
    carried_obs (trace_of (exec h (_run_env cfg) w)) =
    stored_frames (trace_of (exec h (_run_env cfg) w)) ++ [last].
Proof.
  unfold _run_env. rewrite exec_bind, exec_call.
  destruct (h Obs env_reset w) as [o w1]; cbn [fst snd].
  rewrite exec_bind.
  destruct (run_env_loop_buffer h (py_range (start_step cfg) (max_steps cfg + 1)) o w1)
    as (next & w2 & tr & -> & Hobs & _).
  cbn [exec]. unfold trace_of; cbn [snd].
  exists next. rewrite app_nil_r. cbn [app carried_obs stored_frames].
  exact Hobs.
Qed.

(** X2. Over a whole run of the acting loop, whatever the collaborators
    answer, the writes to the replay buffer come in pairs: [store_frame] is
    only called when no frame is pending, the environment is stepped exactly
    once while a frame is pending, [store_effect] is called with the index
    that [store_frame] returned and with the action given to that step and
    the reward and done flag it returned, and no frame is pending when the
    loop returns. *)
Theorem buffer_writes_are_paired (W : Type) (h : handler W) (w : W) :
  buffer_protocol (trace_of (exec h (_run_env cfg) w)).
Proof.
  unfold _run_env. rewrite exec_bind, exec_call.
  destruct (h Obs env_reset w) as [o w1]; cbn [fst snd].
  rewrite exec_bind.
  destruct (run_env_loop_buffer h (py_range (start_step cfg) (max_steps cfg + 1)) o w1)
    as (next & w2 & tr & -> & _ & Hproto).
  cbn [exec]. unfold trace_of; cbn [snd].
  rewrite app_nil_r. exact Hproto.
Qed.

Lemma episodes_ended_app (tr1 tr2 : list entry) :
  episodes_ended (tr1 ++ tr2) = (episodes_ended tr1 + episodes_ended tr2)%nat.
Proof.
  induction tr1 as [| [X ev x] tr1 IH]; [reflexivity |].
  simpl. destruct ev; simpl; try exact IH.
  destruct x as [[[obs r] [|]] info]; simpl; now rewrite IH.
Qed.

Lemma run_env_loop_totals {W : Type} (h : handler W) (ts : list Z) :
  forall (last_obs : Obs) (w : W),
  exists next w' tr,
    exec h (for_each ts run_env_body last_obs) w = (Returned next, w', tr) /\
    occurrences N_env_reset tr = episodes_ended tr /\
    occurrences N_store_frame tr = length ts /\
    occurrences N_get_learn_started tr = length ts /\
    occurrences N_env_step tr = length ts /\
    occurrences N_store_effect tr = length ts /\
    occurrences N_signal_act_chosen tr = length ts.
Proof.
  induction ts as [| t ts IH]; intros last_obs w.
  - do 3 eexists. simpl. repeat split.
  - cbn [for_each]. rewrite exec_bind.
    destruct (run_env_body_exec h t last_obs w)
      as (idx & choice & a & obs & r & d & info & reset_tr & next & w1 &
          Hexec & Hchoice & Hend).
    rewrite Hexec.
    destruct (IH next w1)
      as (next' & w2 & tr2 & -> & H1 & H2 & H3 & H4 & H5 & H6).
    do 3 eexists. split; [reflexivity |].
    rewrite episodes_ended_app, !occurrences_app, H1, H2, H3, H4, H5, H6.
    unfold episode_end in Hend.
    destruct Hchoice; destruct d;
      [subst reset_tr | destruct Hend as [-> ->]
      | subst reset_tr | destruct Hend as [-> ->]
      | subst reset_tr | destruct Hend as [-> ->]];
      repeat split.
Qed.

(** X3. The acting loop never raises by itself: against any collaborators
    it returns, having reset the environment once at the start and once
    more after each step that ended an episode, and having, for each step
    of its range, stored one frame, read [learn_started] once, stepped the
    environment once, stored one effect and signalled [act_chosen] once. *)
Theorem acting_loop_totals (W : Type) (h : handler W) (w : W) :
  let n := length (py_range (start_step cfg) (max_steps cfg + 1)) in
  let r := exec h (_run_env cfg) w in
  result_of r = Returned tt /\
  occurrences N_env_reset (trace_of r) = S (episodes_ended (trace_of r)) /\
  occurrences N_store_frame (trace_of r) = n /\
  occurrences N_get_learn_started (trace_of r) = n /\
  occurrences N_env_step (trace_of r) = n /\
  occurrences N_store_effect (trace_of r) = n /\
  occurrences N_signal_act_chosen (trace_of r) = n.
Proof.
  intros n r; subst n r.
  unfold _run_env. rewrite exec_bind, exec_call.
  destruct (h Obs env_reset w) as [o w1]; cbn [fst snd].
  rewrite exec_bind.
  destruct (run_env_loop_totals h (py_range (start_step cfg) (max_steps cfg + 1)) o w1)
    as (next & w2 & tr & -> & H1 & H2 & H3 & H4 & H5 & H6).
  cbn [exec]. unfold result_of, trace_of; cbn [fst snd].
  rewrite app_nil_r.
  change (Call env_reset o :: tr) with ([Call env_reset o] ++ tr).
  rewrite episodes_ended_app, !occurrences_app, H1, H2, H3, H4, H5, H6.
  repeat split.
Qed.

End BufferFacts.

Section LearnerFacts.
Context {C : Collaborators}.
Variable cfg : config.

(** How often one iteration of the learning loop samples, trains, refreshes
    the target, saves and signals, whatever the collaborators answer. *)
Lemma train_model_body_counts {W : Type} (h : handler W) (t : Z) (w : W) :
  let r := exec h (train_model_body cfg t tt) w in
  result_of r =
    (if raises_at cfg t then Raised ZeroDivisionError else Returned tt) /\
  occurrences N_replay_buf_sample (trace_of r) =
    (if trains_at cfg t then 1 else 0)%nat /\
  occurrences N_sess_run_train (trace_of r) =
    (if trains_at cfg t then 1 else 0)%nat /\
  occurrences N_sess_run_update_target (trace_of r) =
    (if trains_at cfg t && on_beat t (update_target_freq cfg) then 1 else 0)%nat /\
  occurrences N_save (trace_of r) =
    (if negb (raises_at cfg t) && on_beat t (save_freq cfg) then 1 else 0)%nat /\
  occurrences N_signal_train_done (trace_of r) =
    (if raises_at cfg t then 0 else 1)%nat.
Proof.
  intro r; subst r.
  learner_cases cfg h t w; unfold raises_at; decide_tests; repeat split.
Qed.

(** X4. An iteration of the learning loop raises [ZeroDivisionError]
    exactly when one of its three remainders is taken with a zero divisor
    ([train_freq] once [t >= start_train], [update_target_freq] when the
    iteration trains, [save_freq] always), and returns otherwise.  An
    iteration that raises asks for no checkpoint and does not signal
    [train_done]; one that returns signals exactly once. *)
Theorem learner_iteration_raises_on_zero_period (W : Type) (h : handler W)
  (t : Z) (w : W) :
  let r := exec h (train_model_body cfg t tt) w in
  result_of r =
    (if raises_at cfg t then Raised ZeroDivisionError else Returned tt) /\
  occurrences N_signal_train_done (trace_of r) =
    (if raises_at cfg t then 0 else 1)%nat /\
  (raises_at cfg t = true -> occurrences N_save (trace_of r) = O).
Proof.
  intro r; subst r.
  destruct (train_model_body_counts h t w) as (Hres & _ & _ & _ & Hsave & Hsig).
  split; [exact Hres |]. split; [exact Hsig |].
  intro Hr. rewrite Hsave, Hr. reflexivity.
Qed.

Lemma periods_never_raise (t : Z) :
  periods_nonzero cfg -> raises_at cfg t = false.
Proof.
  intros (Htf & Hutf & Hsf). unfold raises_at.
  destruct (Z.eqb_spec (train_freq cfg) 0); [contradiction |].
  destruct (Z.eqb_spec (update_target_freq cfg) 0); [contradiction |].
  destruct (Z.eqb_spec (save_freq cfg) 0); [contradiction |].
  now rewrite !andb_false_r.
Qed.

(** The counts over the whole learning loop. *)
Lemma train_model_loop_counts {W : Type} (h : handler W) (ts : list Z) :
  periods_nonzero cfg ->
  forall w : W,
  exists w' tr,
    exec h (for_each ts (train_model_body cfg) tt) w = (Returned tt, w', tr) /\
    occurrences N_replay_buf_sample tr = length (filter (trains_at cfg) ts) /\
    occurrences N_sess_run_train tr = length (filter (trains_at cfg) ts) /\
    occurrences N_sess_run_update_target tr =
      length (filter (fun t => trains_at cfg t &&
                               on_beat t (update_target_freq cfg)) ts) /\
    occurrences N_save tr =
      length (filter (fun t => on_beat t (save_freq cfg)) ts).
Proof.
  intro Hper. induction ts as [| t ts IH]; intro w.
  - do 2 eexists. simpl. repeat split.
  - cbn [for_each]. rewrite exec_bind.
    pose proof (train_model_body_counts h t w) as Hc. cbv zeta in Hc.
    unfold result_of, trace_of in Hc.
    destruct (exec h (train_model_body cfg t tt) w) as [[o w1] tr1].
    cbn [fst snd] in Hc.
    rewrite (periods_never_raise t Hper) in Hc. cbn [negb andb] in Hc.
    destruct Hc as (-> & H1 & H2 & H3 & H4 & _).
    destruct (IH w1) as (w2 & tr2 & -> & K1 & K2 & K3 & K4).
    do 2 eexists. split; [reflexivity |].
    rewrite !occurrences_app, H1, H2, H3, H4, K1, K2, K3, K4.
    cbn [filter].
    destruct (trains_at cfg t); destruct (on_beat t (update_target_freq cfg));
      destruct (on_beat t (save_freq cfg)); repeat split.
Qed.

(** X5. With periods that are not zero, a whole run of the learning loop
    returns, whatever the collaborators answer, and it samples and trains
    once per step of the range at which line 149 holds, refreshes the target
    once per such step that [update_target_freq] divides, and asks for a
    checkpoint once per step of the range that [save_freq] divides. *)
Theorem learning_loop_counts (W : Type) (h : handler W) (w : W) :
  periods_nonzero cfg ->
  let steps := py_range (start_step cfg) (max_steps cfg + 1) in
  let r := exec h (_train_model cfg) w in
  result_of r = Returned tt /\
  occurrences N_replay_buf_sample (trace_of r) =
    length (filter (trains_at cfg) steps) /\
  occurrences N_sess_run_train (trace_of r) =
    length (filter (trains_at cfg) steps) /\
  occurrences N_sess_run_update_target (trace_of r) =
    length (filter (fun t => trains_at cfg t &&
                             on_beat t (update_target_freq cfg)) steps) /\
  occurrences N_save (trace_of r) =
    length (filter (fun t => on_beat t (save_freq cfg)) steps).
Proof.
  intros Hper steps r; subst steps r. unfold _train_model.
  destruct (train_model_loop_counts h
              (py_range (start_step cfg) (max_steps cfg + 1)) Hper w)
    as (w' & tr & -> & H1 & H2 & H3 & H4).
  repeat split; assumption.
Qed.











End LearnerFacts.

Section ConstructedAgent.
Context {C : Collaborators}.
Variables OptimizerConf Schedule UserKwargs : Type.

(** What a successful construction establishes. *)
Lemma init_success (base : base_agent) (kw : UserKwargs) (oc : OptimizerConf)
  (ex : Schedule) (utf ms hl : Z) (a : AgentDQN OptimizerConf Schedule UserKwargs) :
  __init__ base kw oc ex utf ms hl = inr a ->
  is_Box (env_observation_space base) = true /\
  is_Discrete (env_action_space base) = true /\
  base_train_freq base <> 0 /\
  utf mod base_train_freq base = 0 /\
  hl <= ms /\
  agent_base a = base /\
  agent_update_target_freq a = utf.
Proof.
  unfold __init__, ReplayBuffer, py_mod, py_assert, and_then.
  destruct (is_Box (env_observation_space base)); [| discriminate].
  destruct (is_Discrete (env_action_space base)); [| discriminate].
  destruct (Z.eqb_spec (base_train_freq base) 0) as [Hz | Hnz]; [discriminate |].
  destruct (Z.eqb_spec (utf mod base_train_freq base) 0) as [Hm | Hm];
    [| discriminate].
  destruct (Z.ltb_spec ms hl) as [Hlt | Hge]; [discriminate |].
  intros [= <-]. simpl. repeat split; assumption.
Qed.

Lemma on_beat_spec (t f : Z) : f <> 0 -> on_beat t f = true <-> (f | t).
Proof.
  intro Hf. unfold on_beat, py_mod.
  destruct (Z.eqb_spec f 0); [contradiction |].
  rewrite Z.eqb_eq. now apply Z.mod_divide.
Qed.

(** X7. For an agent that [__init__] built, [train_freq] is not zero and
    divides [update_target_freq]; so, when [update_target_freq] is not zero,
    every step it divides is a step [train_freq] divides, and from
    [start_train] on the learning loop refreshes the target exactly at the
    steps [update_target_freq] divides, each of which also trains. *)
Theorem built_agent_refreshes_on_its_period (base : base_agent)
  (kw : UserKwargs) (oc : OptimizerConf) (ex : Schedule) (utf ms hl : Z)
  (a : AgentDQN OptimizerConf Schedule UserKwargs) :
  __init__ base kw oc ex utf ms hl = inr a ->
  update_target_freq (config_of a) <> 0 ->
  train_freq (config_of a) <> 0 /\
  (train_freq (config_of a) | update_target_freq (config_of a)) /\
  forall (W : Type) (h : handler W) (t : Z) (w : W),
    start_train (config_of a) <= t ->
    let tr := trace_of (exec h (train_model_body (config_of a) t tt) w) in
    occurrences N_sess_run_update_target tr =
      (if on_beat t (update_target_freq (config_of a)) then 1 else 0)%nat /\
    (on_beat t (update_target_freq (config_of a)) = true ->
     occurrences N_sess_run_train tr = 1%nat).
Proof.
  intros Hinit Hutf.
  destruct (init_success _ _ _ _ _ _ _ Hinit)
    as (_ & _ & Htf & Hmod & _ & Hbase & Hu).
  assert (Htf' : train_freq (config_of a) <> 0).
  { unfold config_of; simpl. now rewrite Hbase. }
  assert (Hdiv : (train_freq (config_of a) | update_target_freq (config_of a))).
  { unfold config_of; simpl. rewrite Hbase, Hu. now apply Z.mod_divide. }
  split; [exact Htf' |]. split; [exact Hdiv |].
  intros W h t w Hstart tr; subst tr.
  assert (Himp : on_beat t (update_target_freq (config_of a)) = true ->
                 trains_at (config_of a) t = true).
  { intro Hb. apply on_beat_spec in Hb; [| exact Hutf].
    unfold trains_at. apply andb_true_intro. split; [now apply Z.leb_le |].
    apply (on_beat_spec t Htf'). now apply Z.divide_trans with
      (m := update_target_freq (config_of a)). }
  destruct (train_model_body_counts (config_of a) h t w)
    as (_ & _ & Htrain & Hrefresh & _).
  rewrite Hrefresh, Htrain.
  destruct (on_beat t (update_target_freq (config_of a))) eqn:Hb.
  - rewrite (Himp eq_refl). split; [reflexivity | reflexivity].
  - rewrite andb_false_r. split; [reflexivity | discriminate].
Qed.

(** X8. [__init__] accepts an [update_target_freq] of zero (its remainder
    by a [train_freq] that is not zero is zero), and the agent it builds
    cannot train: every iteration of the learning loop at which line 149
    holds runs the training step once and then raises [ZeroDivisionError]
    at line 175, without refreshing the target, asking for a checkpoint or
    signalling [train_done]. *)
Theorem zero_target_period_is_accepted_and_raises (base : base_agent)
  (kw : UserKwargs) (oc : OptimizerConf) (ex : Schedule) (ms hl : Z) :
  is_Box (env_observation_space base) = true ->
  is_Discrete (env_action_space base) = true ->
  base_train_freq base <> 0 ->
  hl <= ms ->
  exists a,
    __init__ base kw oc ex 0 ms hl = inr a /\
    forall (W : Type) (h : handler W) (t : Z) (w : W),
      trains_at (config_of a) t = true ->
      let r := exec h (train_model_body (config_of a) t tt) w in
      result_of r = Raised ZeroDivisionError /\
      occurrences N_sess_run_train (trace_of r) = 1%nat /\
      occurrences N_sess_run_update_target (trace_of r) = O /\
      occurrences N_save (trace_of r) = O /\
      occurrences N_signal_train_done (trace_of r) = O.
Proof.
  intros HB HD Htf Hcap.
  unfold __init__, ReplayBuffer, py_mod, py_assert, and_then.
  rewrite HB, HD.
  destruct (Z.eqb_spec (base_train_freq base) 0) as [Hz | _]; [contradiction |].
  rewrite Z.mod_0_l by exact Htf. cbn [Z.eqb].
  destruct (Z.ltb_spec ms hl) as [Hlt | _]; [lia |].
  eexists. split; [reflexivity |].
  intros W h t w Htrain.
  match goal with |- context [train_model_body ?c t tt] => set (cfg := c) in * end.
  assert (Hraise : raises_at cfg t = true).
  { unfold raises_at. rewrite Htrain. subst cfg. simpl.
    now rewrite orb_true_r. }
  assert (Hbeat : on_beat t (update_target_freq cfg) = false).
  { subst cfg. reflexivity. }
  destruct (train_model_body_counts cfg h t w)
    as (Hres & _ & Htr & Href & Hsave & Hsig).
  rewrite Hres, Htr, Href, Hsave, Hsig, Hraise, Htrain, Hbeat.
  repeat split.
Qed.

End ConstructedAgent.

Section ThreadFacts.
Context {C : Collaborators}.
Variable cfg : config.

(** *** Which loop calls what *)

Lemma calls_only_bind {A B : Type} (P : evname -> bool) (p : prog A)
  (f : A -> prog B) :
  calls_only P p -> (forall a, calls_only P (f a)) -> calls_only P (bind p f).
Proof.
  induction p as [a | e | X ev k IH]; simpl; intros Hp Hf.
  - apply Hf.
  - exact I.
  - destruct Hp as [Hn Hk]. split; [exact Hn |]. intro x. now apply IH.
Qed.

Lemma calls_only_for_each {S : Type} (P : evname -> bool)
  (body : Z -> S -> prog S) :
  (forall t s, calls_only P (body t s)) ->
  forall ts s, calls_only P (for_each ts body s).
Proof.
  intro Hbody. induction ts as [| t ts IH]; intro s; simpl; [exact I |].
  apply calls_only_bind; [apply Hbody | apply IH].
Qed.

Lemma run_env_calls : calls_only actor_calls (_run_env cfg).
Proof.
  unfold _run_env. apply calls_only_bind; [simpl; auto |].
  intro o. apply calls_only_bind; [| simpl; auto].
  apply calls_only_for_each. intros t s.
  unfold run_env_body, get_action, call. simpl.
  repeat (simpl;
    match goal with
    | |- _ /\ _ => split
    | |- forall _, _ => intro
    | |- _ = _ => reflexivity
    | |- True => exact I
    | |- context [if ?b then _ else _] => destruct b
    | |- context [match ?x with pair _ _ => _ end] => destruct x
    end).
Qed.

Lemma train_model_calls : calls_only learner_calls (_train_model cfg).
Proof.
  unfold _train_model. apply calls_only_for_each. intros t [].
  unfold train_model_body, train_now, train_branch, call, py_mod.
  destruct (start_train cfg <=? t);
    destruct (train_freq cfg =? 0); simpl; auto;
    try destruct (t mod train_freq cfg =? 0); simpl;
    destruct (save_freq cfg =? 0); simpl;
    destruct (update_target_freq cfg =? 0); simpl;
    try destruct (t mod update_target_freq cfg =? 0); simpl;
    try destruct (t mod save_freq cfg =? 0); simpl;
    repeat split; auto.
Qed.

Lemma calls_only_exec {W R : Type} (P : evname -> bool) (h : handler W)
  (p : prog R) :
  calls_only P p ->
  forall w, Forall (fun en => P (entry_name en) = true) (trace_of (exec h p w)).
Proof.
  unfold trace_of.
  induction p as [r | e | X ev k IH]; simpl; intros Hp w; try constructor.
  destruct Hp as [Hn Hk].
  destruct (h X ev w) as [x w1].
  specialize (IH x (Hk x) w1).
  destruct (exec h (k x) w1) as [[o w2] tr]. simpl in *.
  constructor; assumption.
Qed.

Lemma calls_only_tstep {R : Type} (P : evname -> bool) (sh sh' : shared)
  (th th' : thread R) (lbl : option evname) :
  thread_calls_only P th -> tstep sh th lbl sh' th' ->
  thread_calls_only P th' /\
  match lbl with Some n => P n = true | None => True end.
Proof.
  destruct th as [[r | e | X ev k] | X ev k]; simpl; try contradiction.
  - intros [Hn Hk]. destruct (atomic ev).
    + intros (x & _ & -> & ->). split; [apply Hk | exact Hn].
    + intros (_ & -> & ->). split; [exact Hk | exact Hn].
  - intros Hk (x & _ & -> & ->). split; [apply Hk | exact I].
Qed.

Lemma calls_only_reachable (flag : bool) (s : gstate) :
  reachable cfg flag s ->
  thread_calls_only actor_calls (g_actor s) /\
  thread_calls_only learner_calls (g_learner s) /\
  Forall (fun x => calls_of (fst x) (snd x) = true) (g_hist s).
Proof.
  induction 1 as [| s1 s2 Hstep _ IH].
  - simpl. split; [apply run_env_calls |]. split; [apply train_model_calls |].
    constructor.
  - destruct IH as (HA & HL & HH).
    destruct Hstep as [(lbl & Hs & Hother & Hh) | (lbl & Hs & Hother & Hh)];
      rewrite Hother, Hh.
    + destruct (@calls_only_tstep _ _ _ _ _ _ _ HA Hs) as [HA' Hl].
      split; [exact HA' |]. split; [exact HL |].
      apply Forall_app. split; [exact HH |].
      destruct lbl; simpl; constructor; [exact Hl | constructor].
    + destruct (@calls_only_tstep _ _ _ _ _ _ _ HL Hs) as [HL' Hl].
      split; [exact HA |]. split; [exact HL' |].
      apply Forall_app. split; [exact HH |].
      destruct lbl; simpl; constructor; [exact Hl | constructor].
Qed.

(** X9. Each loop keeps to its own collaborators: in every run, against
    any collaborators and also when the learning loop raises, the acting
    loop only calls the environment, [store_frame], [store_effect],
    [encode_recent_obs], the network's [control_action], the exploration
    schedule, the random draw, the progress log, its wait and its signal,
    and reads [learn_started]; the learning loop only calls
    [replay_buf.sample], the two schedules, the session's training and
    target operations, the checkpoint, its wait and its signal, and writes
    [learn_started] and the summary.  The only call they share is
    [exploration.value]; in particular only the acting loop writes to the
    replay buffer and only the learning loop samples it.  The same holds
    for the events of the two threads in every state they reach. *)
Theorem loops_keep_to_their_collaborators :
  (forall (W : Type) (h : handler W) (w : W),
     Forall (fun en => actor_calls (entry_name en) = true)
       (trace_of (exec h (_run_env cfg) w))) /\
  (forall (W : Type) (h : handler W) (w : W),
     Forall (fun en => learner_calls (entry_name en) = true)
       (trace_of (exec h (_train_model cfg) w))) /\
  (forall n : evname,
     actor_calls n && learner_calls n = true <-> n = N_exploration_value) /\
  (forall (flag : bool) (s : gstate) (who : tid) (n : evname),
     reachable cfg flag s -> In (who, n) (g_hist s) -> calls_of who n = true).
Proof.
  split; [| split; [| split]].
  - intros W h w. apply calls_only_exec, run_env_calls.
  - intros W h w. apply calls_only_exec, train_model_calls.
  - intro n. split.
    + destruct n; simpl; intro H; try discriminate; reflexivity.
    + intros ->. reflexivity.
  - intros flag s who n Hreach Hin.
    destruct (calls_only_reachable Hreach) as (_ & _ & HH).
    rewrite Forall_forall in HH. apply (HH (who, n) Hin).
Qed.

End ThreadFacts.

Section FlagFacts.
Context {C : Collaborators}.
Variable cfg : config.

(** X10. The two loops advance in lockstep: in every state the two threads
    reach (also when the learning loop raises), the actor has passed its
    wait as often as the learner has passed its own, or once more; it has
    passed it at most once per step of the range; and the two signals are
    never set at the same time. *)
Theorem loops_advance_in_lockstep (flag : bool) (s : gstate) :
  reachable cfg flag s ->
  (begun Actor N_wait_train_done (g_hist s) =
     begun Learner N_wait_act_chosen (g_hist s) \/
   begun Actor N_wait_train_done (g_hist s) =
     S (begun Learner N_wait_act_chosen (g_hist s))) /\
  (begun Actor N_wait_train_done (g_hist s)
   <= length (py_range (start_step cfg) (max_steps cfg + 1)))%nat /\
  act_chosen (g_shared s) && train_done (g_shared s) = false.
Proof.
  intro Hreach.
  destruct (@handshake_inv_reachable _ cfg false flag s) as
    (ph & na & Hsig & _ & _ & HcA & HcL); [discriminate | exact Hreach |].
  split; [| split].
  - destruct ph; simpl in HcL; [left | right | right | left]; lia.
  - lia.
  - destruct ph; simpl in Hsig; destruct Hsig as [-> ->]; reflexivity.
Qed.

(** *** [learn_started] *)

Lemma infer_guarded_bind {A B : Type} (p : prog A) (f : A -> prog B) :
  (forall may a, infer_guarded may (f a)) ->
  forall may, infer_guarded may p -> infer_guarded may (bind p f).
Proof.
  intro Hf. induction p as [a | e | X ev k IH]; intros may Hp; simpl.
  - apply Hf.
  - exact I.
  - destruct ev; simpl in *;
      try (intro x; apply IH; apply Hp);
      try contradiction.
    + destruct Hp as [Ht Hfalse]. split; now apply IH.
    + destruct Hp as [Hm Hk]. split; [exact Hm |]. intro x. now apply IH.
Qed.

Lemma infer_guarded_for_each {S : Type} (body : Z -> S -> prog S) :
  (forall may t s, infer_guarded may (body t s)) ->
  forall ts may s, infer_guarded may (for_each ts body s).
Proof.
  intro Hbody. induction ts as [| t ts IH]; intros may s; simpl; [exact I |].
  apply infer_guarded_bind; [intros; apply IH | apply Hbody].
Qed.

Lemma run_env_infer_guarded (may : bool) : infer_guarded may (_run_env cfg).
Proof.
  unfold _run_env. apply infer_guarded_bind; [| simpl; auto].
  intros may' o. apply infer_guarded_bind; [simpl; auto |].
  apply infer_guarded_for_each. clear. intros may t s.
  unfold run_env_body, get_action, call. simpl.
  repeat (simpl;
    match goal with
    | |- _ /\ _ => split
    | |- forall _, _ => intro
    | |- _ = _ => reflexivity
    | |- True => exact I
    | |- context [if ?b then _ else _] => destruct b
    | |- context [match ?x with pair _ _ => _ end] => destruct x
    end).
Qed.

Lemma sets_flag_only_bind {A B : Type} (p : prog A) (f : A -> prog B) :
  sets_flag_only p -> (forall a, sets_flag_only (f a)) ->
  sets_flag_only (bind p f).
Proof.
  induction p as [a | e | X ev k IH]; simpl; intros Hp Hf.
  - apply Hf.
  - exact I.
  - destruct Hp as [Hn Hk]. split; [exact Hn |]. intro x. now apply IH.
Qed.

Lemma train_model_sets_flag_only : sets_flag_only (_train_model cfg).
Proof.
  unfold _train_model.
  induction (py_range (start_step cfg) (max_steps cfg + 1)) as [| t ts IH];
    simpl; [exact I |].
  apply sets_flag_only_bind; [| intros []; exact IH].
  unfold train_model_body, train_now, train_branch, call, py_mod.
  destruct (start_train cfg <=? t);
    destruct (train_freq cfg =? 0); simpl; auto;
    try destruct (t mod train_freq cfg =? 0); simpl;
    destruct (save_freq cfg =? 0); simpl;
    destruct (update_target_freq cfg =? 0); simpl;
    try destruct (t mod update_target_freq cfg =? 0); simpl;
    try destruct (t mod save_freq cfg =? 0); simpl;
    repeat split; auto.
Qed.

Lemma actor_flag_step (may : bool) (sh sh' : shared) (th th' : thread unit)
  (lbl : option evname) :
  thread_infer_guarded may th ->
  tstep sh th lbl sh' th' ->
  learn_started sh' = learn_started sh /\
  begun Actor N_set_learn_started (tag Actor lbl) = O /\
  exists may',
    thread_infer_guarded may' th' /\
    (may' = true -> may = true \/ learn_started sh = true).
Proof.
  intros Hg Hs.
  destruct th as [[r | e | X ev k] | X ev k]; simpl in Hs; try contradiction.
  - destruct ev; simpl in Hg, Hs; try contradiction;
      lazymatch type of Hs with
      | _ /\ _ =>
          destruct Hs as (Hsh & Hth & Hlbl); subst sh' th' lbl;
          split; [reflexivity |]; split; [reflexivity |];
          exists may; split; [simpl; first [tauto | split; [discriminate | exact Hg]]
                            | auto]
      | _ => destruct Hs as (x & Hs & Hth & Hlbl); subst th' lbl
      end.
    + destruct (train_done sh); [| discriminate]. injection Hs as <- <-.
      repeat split. exists may. split; [apply Hg | auto].
    + injection Hs as <- <-.
      repeat split. exists may. split; [apply Hg | auto].
    + destruct (act_chosen sh); [| discriminate]. injection Hs as <- <-.
      repeat split. exists may. split; [apply Hg | auto].
    + injection Hs as <- <-.
      repeat split. exists may. split; [apply Hg | auto].
    + injection Hs as <- <-.
      repeat split. exists (learn_started sh). split.
      * simpl. destruct (learn_started sh); tauto.
      * auto.
  - destruct Hs as (x & -> & -> & ->). destruct Hg as [_ Hg].
    repeat split. exists may. split; [apply Hg | auto].
Qed.

Lemma learner_flag_step (sh sh' : shared) (th th' : thread unit)
  (lbl : option evname) :
  thread_sets_flag_only th ->
  tstep sh th lbl sh' th' ->
  thread_sets_flag_only th' /\
  ((learn_started sh' = learn_started sh /\
    begun Learner N_set_learn_started (tag Learner lbl) = O) \/
   (learn_started sh' = true /\
    begun Learner N_set_learn_started (tag Learner lbl) = 1%nat)).
Proof.
  intros Hg Hs.
  destruct th as [[r | e | X ev k] | X ev k]; simpl in Hs; try contradiction.
  - destruct Hg as [Hn Hk].
    destruct ev; simpl in Hs;
      lazymatch type of Hs with
      | _ /\ _ =>
          destruct Hs as (Hsh & Hth & Hlbl); subst sh' th' lbl;
          split; [exact Hk | left; split; reflexivity]
      | _ => destruct Hs as (x & Hs & Hth & Hlbl); subst th' lbl
      end.
    + destruct (train_done sh); [| discriminate]. injection Hs as <- <-.
      split; [apply Hk | left; split; reflexivity].
    + injection Hs as <- <-. split; [apply Hk | left; split; reflexivity].
    + destruct (act_chosen sh); [| discriminate]. injection Hs as <- <-.
      split; [apply Hk | left; split; reflexivity].
    + injection Hs as <- <-. split; [apply Hk | left; split; reflexivity].
    + injection Hs as <- <-. split; [apply Hk | left; split; reflexivity].
    + injection Hs as <- <-. subst b.
      split; [apply Hk | right; split; reflexivity].
  - destruct Hs as (x & -> & -> & ->).
    split; [apply Hg | left; split; reflexivity].
Qed.

Lemma learn_started_inv_step (flag : bool) (s s' : gstate) :
  learn_started_inv flag s -> gstep s s' ->
  learn_started_inv flag s' /\
  (learn_started (g_shared s) = true -> learn_started (g_shared s') = true).
Proof.
  intros (may & HA & Hmay & HL & Hset & HactorSet)
         [(lbl & Hs & Hother & Hh) | (lbl & Hs & Hother & Hh)].
  - destruct (@actor_flag_step _ _ _ _ _ _ HA Hs)
      as (Hflag & Hb & may' & HA' & Hmay').
    split; [| now rewrite Hflag].
    exists may'. rewrite Hother, Hh, Hflag, !begun_app, Hb.
    rewrite begun_other by discriminate.
    repeat split.
    + exact HA'.
    + intro Hm. destruct (Hmay' Hm) as [Hm0 | Hf]; [now apply Hmay | exact Hf].
    + exact HL.
    + intro Hf. destruct (Hset Hf) as [-> | Hpos]; [now left | right; lia].
    + lia.
  - destruct (@learner_flag_step _ _ _ _ _ HL Hs)
      as (HL' & [(Hflag & Hb) | (Hflag & Hb)]).
    + split; [| now rewrite Hflag].
      exists may. rewrite Hother, Hh, Hflag, !begun_app, Hb.
      rewrite begun_other by discriminate.
      repeat split; try assumption.
      * intro Hf. destruct (Hset Hf) as [-> | Hpos]; [now left | right; lia].
      * lia.
    + split; [| intros _; exact Hflag].
      exists may. rewrite Hother, Hh, Hflag, !begun_app, Hb.
      rewrite begun_other by discriminate.
      repeat split; try assumption.
      * intros _. right. lia.
      * lia.
Qed.

Lemma learn_started_inv_reachable (flag : bool) (s : gstate) :
  reachable cfg flag s -> learn_started_inv flag s.
Proof.
  induction 1 as [| s1 s2 Hstep _ IH].
  - exists false. simpl. repeat split.
    + apply run_env_infer_guarded.
    + discriminate.
    + apply train_model_sets_flag_only.
    + intros ->. now left.
  - now apply (learn_started_inv_step IH).
Qed.

(** X11. [learn_started] only ever goes from false to true: in the states
    the two threads reach, once it is set no step clears it, and it is set
    only if it was set at the start or the learner has executed line 151;
    the actor never writes it.  And the actor is inside the network's
    [control_action] only in states where [learn_started] is set. *)
Theorem learn_started_is_set_once_and_gates_inference (flag : bool)
  (s : gstate) :
  reachable cfg flag s ->
  (in_call is_inference (g_actor s) = true ->
   learn_started (g_shared s) = true) /\
  (learn_started (g_shared s) = true ->
   flag = true \/ (0 < begun Learner N_set_learn_started (g_hist s))%nat) /\
  begun Actor N_set_learn_started (g_hist s) = O /\
  (forall s', gstep s s' ->
     learn_started (g_shared s) = true ->
     learn_started (g_shared s') = true).
Proof.
  intro Hreach.
  pose proof (learn_started_inv_reachable Hreach) as Hinv.
  split; [| split; [| split]].
  - destruct Hinv as (may & HA & Hmay & _).
    intro Hin. apply Hmay.
    destruct (g_actor s) as [p | X ev k]; [discriminate |].
    simpl in *. now apply HA.
  - destruct Hinv as (may & _ & _ & _ & Hset & _). exact Hset.
  - destruct Hinv as (may & _ & _ & _ & _ & Hactor). exact Hactor.
  - intros s' Hstep. now apply (learn_started_inv_step Hinv Hstep).
Qed.

End FlagFacts.

Section DyingLearner.
Context {C : Collaborators}.
Variable cfg : config.

Lemma signals_to_bind {A B : Type} (Q1 : nat -> A -> Prop)
  (Q2 : nat -> B -> Prop) (p : prog A) (f : A -> prog B) :
  (forall n a, Q1 n a -> signals_to Q2 n (f a)) ->
  forall n, signals_to Q1 n p -> signals_to Q2 n (bind p f).
Proof.
  intro Hf. induction p as [a | e | X ev k IH]; intros n Hp; simpl in *.
  - now apply Hf.
  - exact I.
  - destruct (evname_eqb (name_of ev) N_signal_train_done).
    + destruct n as [| n']; [contradiction |]. intro x. now apply IH.
    + intro x. now apply IH.
Qed.

(** An iteration of the learning loop signals once if it returns, and not
    at all if it raises. *)
Lemma train_model_body_signals (t : Z) (n : nat) :
  signals_to (fun n' (_ : unit) => n' = n) (S n) (train_model_body cfg t tt).
Proof.
  unfold train_model_body, train_now, train_branch, call, py_mod.
  destruct (start_train cfg <=? t);
    destruct (train_freq cfg =? 0); simpl; auto;
    try destruct (t mod train_freq cfg =? 0); simpl;
    destruct (save_freq cfg =? 0); simpl;
    destruct (update_target_freq cfg =? 0); simpl;
    try destruct (t mod update_target_freq cfg =? 0); simpl;
    try destruct (t mod save_freq cfg =? 0); simpl;
    intros; auto.
Qed.

Lemma train_model_body_dies (t : Z) (n : nat) :
  raises_at cfg t = true ->
  dies_within n (train_model_body cfg t tt).
Proof.
  unfold raises_at, trains_at, dies_within.
  unfold train_model_body, train_now, train_branch, call, py_mod.
  destruct (start_train cfg <=? t);
    destruct (train_freq cfg =? 0); simpl; auto;
    try destruct (t mod train_freq cfg =? 0); simpl;
    destruct (save_freq cfg =? 0); simpl;
    destruct (update_target_freq cfg =? 0); simpl;
    try destruct (t mod update_target_freq cfg =? 0); simpl;
    try destruct (t mod save_freq cfg =? 0); simpl;
    intros; auto; discriminate.
Qed.

(** A loop with a step that raises never returns, and signals at most once
    per step before that one. *)
Lemma train_model_loop_dies (ts : list Z) :
  forall (j : nat) (t : Z),
    nth_error ts j = Some t -> raises_at cfg t = true ->
    dies_within j (for_each ts (train_model_body cfg) tt).
Proof.
  induction ts as [| t0 ts IH]; intros [| j] t Hnth Hr; simpl in Hnth;
    try discriminate.
  - injection Hnth as ->. cbn [for_each]. unfold dies_within.
    apply signals_to_bind with (Q1 := fun _ _ => False); [contradiction |].
    now apply train_model_body_dies.
  - cbn [for_each]. unfold dies_within.
    apply signals_to_bind with (Q1 := fun n' (_ : unit) => n' = j).
    + intros n [] ->. eapply IH; eassumption.
    + apply train_model_body_signals.
Qed.

Lemma learner_dying_step (left : nat) (sh sh' : shared) (th th' : thread unit)
  (lbl : option evname) :
  thread_dies_within left th ->
  tstep sh th lbl sh' th' ->
  (thread_dies_within left th' /\
   (train_done sh' = true -> train_done sh = true) /\
   begun Learner N_signal_train_done (tag Learner lbl) = O) \/
  (exists left', left = S left' /\ thread_dies_within left' th' /\
     begun Learner N_signal_train_done (tag Learner lbl) = 1%nat).
Proof.
  intros Hd Hs.
  destruct th as [[r | e | X ev k] | X ev k]; simpl in Hs; try contradiction.
  - unfold thread_dies_within, dies_within in Hd.
    destruct ev; simpl in Hd, Hs;
      lazymatch type of Hs with
      | _ /\ _ =>
          destruct Hs as (Hsh & Hth & Hlbl); subst sh' th' lbl;
          left; split; [exact Hd | split; [auto | reflexivity]]
      | _ => destruct Hs as (x & Hs & Hth & Hlbl); subst th' lbl
      end.
    + destruct (train_done sh); [| discriminate]. injection Hs as <- <-.
      left. split; [apply Hd | split; [discriminate | reflexivity]].
    + injection Hs as <- <-.
      left. split; [apply Hd | split; [auto | reflexivity]].
    + destruct (act_chosen sh); [| discriminate]. injection Hs as <- <-.
      left. split; [apply Hd | split; [auto | reflexivity]].
    + destruct left as [| left']; [contradiction |]. injection Hs as <- <-.
      right. exists left'. split; [reflexivity |]. split; [apply Hd | reflexivity].
    + injection Hs as <- <-.
      left. split; [apply Hd | split; [auto | reflexivity]].
    + injection Hs as <- <-.
      left. split; [apply Hd | split; [auto | reflexivity]].
  - destruct Hs as (x & -> & -> & ->).
    left. split; [apply Hd | split; [auto | reflexivity]].
Qed.

Lemma dying_inv_step (budget rounds : nat) (s s' : gstate) :
  handshake_inv false rounds s -> dying_inv budget s -> gstep s s' ->
  dying_inv budget s'.
Proof.
  intros (ph & na & _ & HA & _ & _) (left & HL & Hbud & Htok)
         [(lbl & Hs & Hother & Hh) | (lbl & Hs & Hother & Hh)].
  - exists left. rewrite Hother, Hh, !begun_app.
    rewrite (begun_other N_signal_train_done lbl) by discriminate.
    split; [exact HL |]. split; [lia |].
    destruct (@actor_tstep _ _ _ _ _ _ _ _ _ HA Hs)
      as [(_ & Htd & _ & Hb)
         | [(_ & Htd & n' & _ & _ & Htd' & _ & Hb)
           | (_ & _ & Htd & _ & Hb)]].
    + rewrite Hb, Htd. lia.
    + rewrite Hb, Htd'. rewrite Htd in Htok. lia.
    + rewrite Hb, Htd. lia.
  - destruct (@learner_dying_step _ _ _ _ _ _ HL Hs)
      as [(HL' & Htd & Hb) | (left' & -> & HL' & Hb)].
    + exists left. rewrite Hh, !begun_app, Hb.
      rewrite (begun_other N_wait_train_done lbl) by discriminate.
      split; [exact HL' |]. split; [lia |].
      destruct (train_done (g_shared s')).
      * rewrite (Htd eq_refl) in Htok. lia.
      * destruct (train_done (g_shared s)); lia.
    + exists left'. rewrite Hh, !begun_app, Hb.
      rewrite (begun_other N_wait_train_done lbl) by discriminate.
      split; [exact HL' |]. split; [lia |].
      destruct (train_done (g_shared s')); destruct (train_done (g_shared s)); lia.
Qed.

Lemma dying_inv_reachable (flag : bool) (j : nat) (t : Z) (s : gstate) :
  nth_error (py_range (start_step cfg) (max_steps cfg + 1)) j = Some t ->
  raises_at cfg t = true ->
  reachable cfg flag s -> dying_inv j s.
Proof.
  intros Hnth Hr Hreach.
  induction Hreach as [| s1 s2 Hstep Hreach1 IH].
  - exists j. simpl. split; [| split; [reflexivity | lia]].
    unfold _train_model. eapply train_model_loop_dies; eassumption.
  - eapply dying_inv_step; [| exact IH | exact Hstep].
    apply handshake_inv_reachable with (cfg := cfg) (flag := flag);
      [discriminate | exact Hreach1].
Qed.

(** X12. When some step of the range makes the learning loop raise (a
    zero period met at that step), the learning thread never returns; and
    when that step is not the last of the range, the acting thread never
    returns either: it passes its wait on [train_done] at most once more
    than the learner has signalled, which is at most once per step before
    the raising one.  No run goes on for ever, so every run of the two
    threads ends with the acting loop short of its last step. *)
Theorem a_raising_learner_strands_the_actor (flag : bool) (j : nat) (t : Z)
  (s : gstate) :
  nth_error (py_range (start_step cfg) (max_steps cfg + 1)) j = Some t ->
  raises_at cfg t = true ->
  reachable cfg flag s ->
  ~ returned (g_learner s) /\
  (begun Learner N_signal_train_done (g_hist s) <= j)%nat /\
  (begun Actor N_wait_train_done (g_hist s) <= S j)%nat /\
  ((S j < length (py_range (start_step cfg) (max_steps cfg + 1)))%nat ->
   ~ returned (g_actor s)) /\
  well_founded (fun s' s : gstate => gstep s s').
Proof.
  intros Hnth Hr Hreach.
  destruct (@dying_inv_reachable flag j t s Hnth Hr Hreach) as (left & HL & Hbud & Htok).
  split; [| split; [| split; [| split]]].
  - intro Hret. destruct (g_learner s) as [[r | e | X ev k] | X ev k];
      simpl in Hret; try contradiction; exact HL.
  - lia.
  - destruct (train_done (g_shared s)); lia.
  - intros Hlast Hret.
    destruct (@handshake_inv_reachable _ cfg false flag s) as
      (ph & na & _ & HA & _ & HcA & _); [discriminate | exact Hreach |].
    destruct (g_actor s) as [[r | e | X ev k] | X ev k];
      simpl in Hret; try contradiction.
    simpl in HA. destruct HA as [_ ->].
    destruct (train_done (g_shared s)); lia.
  - apply gstep_terminates.
Qed.

End DyingLearner.

Section Pipelining.
Context {C : Collaborators}.
Variable answer : forall X : Type, agentE X -> X.
Variable cfg : config.

(** In a step that trains, the learner can be inside the training step of
    the session while the actor is inside the step of the environment. *)
Lemma pipelining_run (t : Z) (ts : list Z) (last_obs : Obs) (flag : bool)
  (hist : list (tid * evname)) (i : nat) :
  trains_at cfg t = true ->
  at_round i hist ->
  exists s,
    clos_refl_trans gstate gstep (round_start cfg (t :: ts) last_obs flag hist) s /\
    in_call (evname_eqb N_sess_run_train) (g_learner s) = true /\
    in_call (evname_eqb N_env_step) (g_actor s) = true /\
    completed i (g_hist s).
Proof.
  intros Htrain ((Hlog & Hsig) & _).
  unfold trains_at in Htrain. apply andb_prop in Htrain as [Hle Hmod].
  assert (HL1 : exists thl lbls,
    tsteps {| act_chosen := false; train_done := true; learn_started := flag |}
      (Ready (for_each (t :: ts) (train_model_body cfg) tt)) lbls
      {| act_chosen := false; train_done := true; learn_started := true |} thl /\
    count_name N_signal_train_done lbls = O /\
    forall td : bool,
      exists thl' lbls',
        tsteps {| act_chosen := true; train_done := td; learn_started := true |}
          thl lbls'
          {| act_chosen := false; train_done := td; learn_started := true |} thl' /\
        count_name N_signal_train_done lbls' = O /\
        in_call (evname_eqb N_sess_run_train) thl' = true).
  { cbn [for_each]. unfold train_model_body, train_now. rewrite Hle.
    destruct (py_mod t (train_freq cfg)) as [e | m]; [discriminate |].
    simpl. rewrite Hmod. simpl.
    do 2 eexists. split; [| split].
    - eapply tsteps_cons with (lbl := Some N_set_learn_started);
        [simpl; exists tt; repeat split |].
      eapply tsteps_cons with (lbl := Some N_replay_buf_sample);
        [simpl; repeat split |].
      eapply tsteps_cons with (lbl := None);
        [simpl; exists (answer (replay_buf_sample (batch_size cfg)));
         repeat split |].
      eapply tsteps_cons with (lbl := Some N_lr_value);
        [simpl; repeat split |].
      eapply tsteps_cons with (lbl := None);
        [simpl; exists (answer (lr_value t)); repeat split |].
      eapply tsteps_cons with (lbl := Some N_exploration_value);
        [simpl; repeat split |].
      eapply tsteps_cons with (lbl := None);
        [simpl; exists (answer (exploration_value t)); repeat split |].
      eapply tsteps_cons with (lbl := Some N_get_mean_ep_rew);
        [simpl; repeat split |].
      eapply tsteps_cons with (lbl := None);
        [simpl; exists (answer get_mean_ep_rew); repeat split |].
      eapply tsteps_cons with (lbl := Some N_get_best_mean_ep_rew);
        [simpl; repeat split |].
      eapply tsteps_cons with (lbl := None);
        [simpl; exists (answer get_best_mean_ep_rew); repeat split |].
      apply tsteps_nil.
    - reflexivity.
    - intro td. do 2 eexists. split; [| split].
      + eapply tsteps_cons with (lbl := Some N_wait_act_chosen);
          [simpl; exists tt; repeat split |].
        eapply tsteps_cons with (lbl := Some N_sess_run_train);
          [simpl; repeat split |].
        apply tsteps_nil.
      + reflexivity.
      + reflexivity. }
  destruct HL1 as (thl & lblsL & HrunL & HcL & HL2).
  assert (HA : exists tha lbls,
    tsteps {| act_chosen := false; train_done := true; learn_started := true |}
      (Ready (for_each (t :: ts) run_env_body last_obs ;; Ret tt)) lbls
      {| act_chosen := true; train_done := false; learn_started := true |} tha /\
    count_name N_log_progress lbls = O /\
    in_call (evname_eqb N_env_step) tha = true).
  { cbn [for_each]. unfold run_env_body, get_action.
    destruct (float_lt (answer random_uniform) (answer (exploration_value t)))
      eqn:Hlt.
    - do 2 eexists. split; [| split].
      + eapply tsteps_cons with (lbl := Some N_wait_train_done);
          [simpl; exists tt; repeat split |].
        eapply tsteps_cons with (lbl := Some N_store_frame);
          [simpl; repeat split |].
        eapply tsteps_cons with (lbl := None);
          [simpl; exists (answer (store_frame last_obs)); repeat split |].
        eapply tsteps_cons with (lbl := Some N_get_learn_started);
          [simpl; exists true; repeat split |].
        eapply tsteps_cons with (lbl := Some N_exploration_value);
          [simpl; repeat split |].
        eapply tsteps_cons with (lbl := None);
          [simpl; exists (answer (exploration_value t)); repeat split |].
        eapply tsteps_cons with (lbl := Some N_random_uniform);
          [simpl; repeat split |].
        eapply tsteps_cons with (lbl := None);
          [simpl; exists (answer random_uniform); repeat split |].
        rewrite Hlt.
        eapply tsteps_cons with (lbl := Some N_action_space_sample);
          [simpl; repeat split |].
        eapply tsteps_cons with (lbl := None);
          [simpl; exists (answer action_space_sample); repeat split |].
        eapply tsteps_cons with (lbl := Some N_signal_act_chosen);
          [simpl; exists tt; repeat split |].
        eapply tsteps_cons with (lbl := Some N_env_step);
          [simpl; repeat split |].
        apply tsteps_nil.
      + reflexivity.
      + reflexivity.
    - do 2 eexists. split; [| split].
      + eapply tsteps_cons with (lbl := Some N_wait_train_done);
          [simpl; exists tt; repeat split |].
        eapply tsteps_cons with (lbl := Some N_store_frame);
          [simpl; repeat split |].
        eapply tsteps_cons with (lbl := None);
          [simpl; exists (answer (store_frame last_obs)); repeat split |].
        eapply tsteps_cons with (lbl := Some N_get_learn_started);
          [simpl; exists true; repeat split |].
        eapply tsteps_cons with (lbl := Some N_exploration_value);
          [simpl; repeat split |].
        eapply tsteps_cons with (lbl := None);
          [simpl; exists (answer (exploration_value t)); repeat split |].
        eapply tsteps_cons with (lbl := Some N_random_uniform);
          [simpl; repeat split |].
        eapply tsteps_cons with (lbl := None);
          [simpl; exists (answer random_uniform); repeat split |].
        rewrite Hlt.
        eapply tsteps_cons with (lbl := Some N_encode_recent_obs);
          [simpl; repeat split |].
        eapply tsteps_cons with (lbl := None);
          [simpl; exists (answer encode_recent_obs); repeat split |].
        eapply tsteps_cons with (lbl := Some N_control_action);
          [simpl; repeat split |].
        eapply tsteps_cons with (lbl := None);
          [simpl; exists (answer (control_action (answer encode_recent_obs)));
           repeat split |].
        eapply tsteps_cons with (lbl := Some N_signal_act_chosen);
          [simpl; exists tt; repeat split |].
        eapply tsteps_cons with (lbl := Some N_env_step);
          [simpl; repeat split |].
        apply tsteps_nil.
      + reflexivity.
      + reflexivity. }
  destruct HA as (tha & lblsA & HrunA & HcA & HinA).
  destruct (HL2 false) as (thl' & lblsL' & HrunL' & HcL' & HinL).
  eexists. split; [| split; [| split]].
  - eapply rt_trans; [apply (learner_run HrunL) |].
    eapply rt_trans; [apply (actor_run HrunA) |].
    apply (learner_run HrunL').
  - exact HinL.
  - exact HinA.
  - cbn [g_hist]. unfold completed.
    rewrite !begun_app, !begun_map_same, !begun_map_other by discriminate.
    rewrite HcL, HcA, HcL', Hlog, Hsig. split; lia.
Qed.

(** X13. The handshake lets optimization overlap with the environment:
    with periods that are not zero, for every step of the range at which
    the learning loop trains, the two threads can reach a state where the
    learner is inside the training step of the session while the actor is
    inside [env.step] of the same step (both loops having completed the
    iterations before it). *)
Theorem training_overlaps_environment_step (flag : bool) (i : nat) (t : Z) :
  periods_nonzero cfg ->
  nth_error (py_range (start_step cfg) (max_steps cfg + 1)) i = Some t ->
  trains_at cfg t = true ->
  exists s,
    reachable cfg flag s /\
    in_call (evname_eqb N_sess_run_train) (g_learner s) = true /\
    in_call (evname_eqb N_env_step) (g_actor s) = true /\
    completed i (g_hist s).
Proof.
  intros Hper Hnth Htrain.
  apply nth_error_split in Hnth as (ts1 & ts2 & Hsteps & Hlen).
  destruct (initial_run answer cfg flag) as (o0 & h0 & Hrun0 & Hat0).
  rewrite Hsteps in Hrun0.
  destruct (rounds_run answer Hper ts1 (t :: ts2) o0 flag Hat0)
    as (o1 & f1 & h1 & Hrun1 & Hat1).
  simpl in Hat1. rewrite Hlen in Hat1.
  destruct (@pipelining_run t ts2 o1 f1 h1 i Htrain Hat1)
    as (s & Hrun2 & H1 & H2 & H3).
  exists s. split; [| exact (conj H1 (conj H2 H3))].
  apply clos_rt_rtn1. eapply rt_trans; [exact Hrun0 |].
  eapply rt_trans; eassumption.
Qed.

End Pipelining.

(** ** The further properties at concrete inputs *)

Lemma small_training_state :
  exists s,
    reachable small_config false s /\
    in_call is_optimization (g_learner s) = true.
Proof.
  destruct (initial_run (small_answer false 0 1) small_config false)
    as (o0 & h0 & Hrun0 & Hat0).
  change (py_range (start_step small_config) (max_steps small_config + 1))
    with ([1] ++ [2; 3; 4]) in Hrun0.
  destruct (rounds_run (small_answer false 0 1) small_config_periods
              [1] [2; 3; 4] o0 false Hat0)
    as (o1 & f1 & h1 & Hrun1 & _).
  destruct (@training_run small_world (small_answer false 0 1) small_config
              2 [3; 4] o1 f1 h1 eq_refl)
    as (s & Hrun2 & Hin).
  exists s. split; [| exact Hin].
  apply clos_rt_rtn1. eapply rt_trans; [exact Hrun0 |].
  eapply rt_trans; [exact Hrun1 | exact Hrun2].
Qed.

Lemma small_inference_state :
  exists s,
    reachable small_config true s /\
    in_call is_inference (g_actor s) = true.
Proof.
  destruct (initial_run (small_answer true 5 1) small_config true)
    as (o0 & h0 & Hrun0 & Hat0).
  change (py_range (start_step small_config) (max_steps small_config + 1))
    with (1 :: [2; 3; 4]) in Hrun0.
  destruct (@inference_run small_world (small_answer true 5 1) small_config
              1 [2; 3; 4] o0 h0 eq_refl)
    as (s & Hrun1 & Hin).
  exists s. split; [| exact Hin].
  apply clos_rt_rtn1. eapply rt_trans; [exact Hrun0 | exact Hrun1].
Qed.

(** With a [save_freq] of zero the learner raises in its first iteration,
    once the actor has signalled. *)
Lemma stranded_state :
  exists s,
    reachable stranded_config false s /\
    g_learner s = Ready (Raise ZeroDivisionError).
Proof.
  destruct (initial_run (small_answer false 0 1) stranded_config false)
    as (o0 & h0 & Hrun0 & _).
  change (py_range (start_step stranded_config) (max_steps stranded_config + 1))
    with (1 :: [2; 3; 4]) in Hrun0.
  destruct (run_env_body_solo (small_answer false 0 1) 1 o0
              {| act_chosen := false; train_done := true; learn_started := false |}
              eq_refl) as (next & lblsA & HsoloA & _).
  apply solo_sound in HsoloA.
  apply (tsteps_bind (fun o => for_each [2; 3; 4] run_env_body o)) in HsoloA.
  apply (tsteps_bind (fun _ : Z => Ret tt)) in HsoloA.
  cbn [learn_started] in HsoloA.
  assert (HL : tsteps
      {| act_chosen := true; train_done := false; learn_started := false |}
      (Ready (for_each (1 :: [2; 3; 4]) (train_model_body stranded_config) tt))
      (names_of (Some N_wait_act_chosen) ++ [])
      {| act_chosen := false; train_done := false; learn_started := false |}
      (Ready (Raise ZeroDivisionError))).
  { eapply tsteps_cons with (lbl := Some N_wait_act_chosen).
    - simpl. exists tt. repeat split.
    - apply tsteps_nil. }
  eexists. split.
  - apply clos_rt_rtn1. eapply rt_trans; [exact Hrun0 |].
    eapply rt_trans.
    + apply (actor_run HsoloA).
    + apply (learner_run HL).
  - reflexivity.
Qed.

(** X7 at 20000 and 4: step 40000 (both divide it) trains and refreshes. *)
Lemma built_agent_refreshes_on_its_period_witness :
  exists a,
    @__init__ small_world unit unit unit
      (small_base (Discrete 6) 4) tt tt tt 20000 1000000 4 = inr a /\
    update_target_freq (config_of a) <> 0 /\
    (train_freq (config_of a) | update_target_freq (config_of a)) /\
    let tr := trace_of (exec (stateless (small_answer true 0 1))
                          (train_model_body (config_of a) 40000 tt) tt) in
    occurrences N_sess_run_update_target tr = 1%nat /\
    occurrences N_sess_run_train tr = 1%nat.
Proof.
  eexists. split; [reflexivity |].
  assert (Hutf : update_target_freq
                   (config_of
                      {| agent_base := small_base (Discrete 6) 4;
                         agent_opt_conf := tt;
                         agent_exploration := tt;
                         agent_update_target_freq := 20000;
                         agent_model :=
                           {| kw_user := tt; kw_obs_shape := [84; 84];
                              kw_n_actions := 6; kw_opt_conf := tt |};
                         agent_replay_buf :=
                           {| buf_size := 1000000; buf_obs_shape := [84; 84];
                              buf_obs_len := 4 |};
                         agent_learn_rate_ph := None;
                         agent_epsilon_ph := None |}) <> 0)
    by (simpl; discriminate).
  split; [exact Hutf |].
  destruct (@built_agent_refreshes_on_its_period small_world unit unit unit
              (small_base (Discrete 6) 4) tt tt tt 20000 1000000 4 _
              eq_refl Hutf) as (_ & Hdiv & Hsteps).
  split; [exact Hdiv |].
  destruct (Hsteps unit (stateless (small_answer true 0 1)) 40000 tt)
    as (Hrefresh & Htrain); [simpl; lia |].
  split; [exact Hrefresh | exact (Htrain eq_refl)].
Defined.

(** X8 with a [train_freq] of 4: step 4 trains and then raises. *)
Lemma zero_target_period_is_accepted_and_raises_witness :
  is_Box (env_observation_space (small_base (Discrete 6) 4)) = true /\
  is_Discrete (env_action_space (small_base (Discrete 6) 4)) = true /\
  base_train_freq (small_base (Discrete 6) 4) <> 0 /\
  4 <= 1000000 /\
  exists a,
    @__init__ small_world unit unit unit
      (small_base (Discrete 6) 4) tt tt tt 0 1000000 4 = inr a /\
    result_of (exec (stateless (small_answer true 0 1))
                 (train_model_body (config_of a) 4 tt) tt)
    = Raised ZeroDivisionError.
Proof.
  assert (H3 : base_train_freq (small_base (Discrete 6) 4) <> 0)
    by (simpl; discriminate).
  assert (H4 : 4 <= 1000000) by lia.
  split; [reflexivity |]. split; [reflexivity |].
  split; [exact H3 |]. split; [exact H4 |].
  destruct (@zero_target_period_is_accepted_and_raises small_world unit unit unit
              (small_base (Discrete 6) 4) tt tt tt 1000000 4
              eq_refl eq_refl H3 H4) as (a & Hinit & Hraise).
  exists a. split; [exact Hinit |].
  injection Hinit as <-.
  exact (proj1 (Hraise unit (stateless (small_answer true 0 1)) 4 tt eq_refl)).
Defined.

(** X5 at the small configuration: steps 2 and 4 train, 4 refreshes the
    target, 3 asks for a checkpoint. *)
Lemma learning_loop_counts_witness :
  let r := exec (stateless (small_answer true 0 1)) (_train_model small_config) tt in
  periods_nonzero small_config /\
  result_of r = Returned tt /\
  occurrences N_replay_buf_sample (trace_of r) = 2%nat /\
  occurrences N_sess_run_train (trace_of r) = 2%nat /\
  occurrences N_sess_run_update_target (trace_of r) = 1%nat /\
  occurrences N_save (trace_of r) = 1%nat.
Proof.
  exact (conj small_config_periods
           (@learning_loop_counts small_world small_config unit
              (stateless (small_answer true 0 1)) tt small_config_periods)).
Defined.


(** X10 in a state where the learner is inside the training step. *)
Lemma loops_advance_in_lockstep_witness :
  exists s,
    reachable small_config false s /\
    in_call is_optimization (g_learner s) = true /\
    act_chosen (g_shared s) && train_done (g_shared s) = false.
Proof.
  destruct small_training_state as (s & Hreach & Hin).
  exists s. split; [exact Hreach |]. split; [exact Hin |].
  exact (proj2 (proj2 (@loops_advance_in_lockstep small_world small_config
                         false s Hreach))).
Defined.

(** X11 in a state where the actor is inside [control_action]. *)
Lemma learn_started_is_set_once_and_gates_inference_witness :
  exists s,
    reachable small_config true s /\
    in_call is_inference (g_actor s) = true /\
    learn_started (g_shared s) = true.
Proof.
  destruct small_inference_state as (s & Hreach & Hin).
  exists s. split; [exact Hreach |]. split; [exact Hin |].
  exact (proj1 (@learn_started_is_set_once_and_gates_inference small_world
                  small_config true s Hreach) Hin).
Defined.

(** X12 with a [save_freq] of zero, in a state where the learner has
    raised in its first iteration: the actor has not returned. *)
Lemma a_raising_learner_strands_the_actor_witness :
  nth_error (py_range (start_step stranded_config) (max_steps stranded_config + 1)) 0
    = Some 1 /\
  raises_at stranded_config 1 = true /\
  exists s,
    reachable stranded_config false s /\
    g_learner s = Ready (Raise ZeroDivisionError) /\
    ~ returned (g_actor s) /\
    (begun Actor N_wait_train_done (g_hist s) <= 1)%nat.
Proof.
  split; [reflexivity |]. split; [reflexivity |].
  destruct stranded_state as (s & Hreach & Hl).
  exists s. split; [exact Hreach |]. split; [exact Hl |].
  destruct (@a_raising_learner_strands_the_actor small_world stranded_config
              false 0%nat 1 s eq_refl eq_refl Hreach)
    as (_ & _ & Hwaits & Hactor & _).
  split; [| exact Hwaits].
  apply Hactor. vm_compute. lia.
Defined.

(** X13 at step 2 of the small configuration. *)
Lemma training_overlaps_environment_step_witness :
  periods_nonzero small_config /\
  nth_error (py_range (start_step small_config) (max_steps small_config + 1)) 1
    = Some 2 /\
  trains_at small_config 2 = true /\
  exists s,
    reachable small_config false s /\
    in_call (evname_eqb N_sess_run_train) (g_learner s) = true /\
    in_call (evname_eqb N_env_step) (g_actor s) = true /\
    completed 1 (g_hist s).
Proof.
  split; [exact small_config_periods |].
  split; [reflexivity |]. split; [reflexivity |].
  exact (@training_overlaps_environment_step small_world
           (small_answer false 0 1) small_config false 1%nat 2
           small_config_periods eq_refl eq_refl).
Defined.

(** ** A zero [update_target_freq]

    Line 39 is the only check on [update_target_freq], and zero passes it
    (the remainder of zero by a [train_freq] that is not zero is zero);
    line 175 then divides by it in the first iteration that trains. *)

Section RaisingLoop.
Context {C : Collaborators}.
Variable cfg : config.


End RaisingLoop.


